(** * ledgerjs-hw-app-cardano: validation, chunked streaming and the
      interaction driver, embedded in Rocq.

    The development follows the three source files:
    - [parsing.ts]: the domain validator ([Parsing]),
    - [Ada.js]: the legacy wire variant with its chunked [setTransaction]
      ([Legacy]),
    - [Ada.ts]: the interaction driver, the retry wrapper and the public
      operations ([AdaApi]).

    JavaScript values are modelled as the TypeScript types declare them:
    a [number] that the code treats as an integer is a [Z], a [string] is a
    [string], an optional or nullable field is an [option], an array is a
    [list], a [Buffer] is a list of bytes held as [Z].  A function that can
    throw returns a [sum]: [inl] is the thrown value, [inr] the result. *)

From Stdlib Require Import String Ascii List ZArith Lia Bool Arith.
Import ListNotations.

Set Implicit Arguments.

(** ** Exceptions as results *)

Module Js.

Definition Result (E A : Type) : Type := (E + A)%type.

Definition ret {E A : Type} (a : A) : Result E A := inr a.
Definition throw {E A : Type} (e : E) : Result E A := inl e.

Definition bind {E A B : Type} (c : Result E A) (k : A -> Result E B) : Result E B :=
  match c with
  | inl e => inl e
  | inr a => k a
  end.

(** [Array.prototype.map] with a callback that can throw: the elements are
    visited from left to right and the first exception ends the call. *)
Fixpoint mapM {E A B : Type} (f : A -> Result E B) (l : list A) : Result E (list B) :=
  match l with
  | [] => inr []
  | x :: rest =>
      match f x with
      | inl e => inl e
      | inr y =>
          match mapM f rest with
          | inl e => inl e
          | inr ys => inr (y :: ys)
          end
      end
  end.

(** [for (const x of l) { body }] with a body that can throw. *)
Fixpoint forEachM {E A : Type} (f : A -> Result E unit) (l : list A) : Result E unit :=
  match l with
  | [] => inr tt
  | x :: rest =>
      match f x with
      | inl e => inl e
      | inr _ => forEachM f rest
      end
  end.

Definition isOk {E A : Type} (c : Result E A) : bool :=
  match c with
  | inl _ => false
  | inr _ => true
  end.

(** [String.prototype.split] with a one-character separator. *)
Fixpoint split (sep : ascii) (s : string) : list string :=
  match s with
  | EmptyString => [EmptyString]
  | String c rest =>
      if Ascii.eqb c sep then EmptyString :: split sep rest
      else
        match split sep rest with
        | [] => [String c EmptyString]
        | w :: ws => String c w :: ws
        end
  end.

(** [Array.prototype.join("")]. *)
Definition join (parts : list string) : string := String.concat EmptyString parts.

(** [str.split("")]: the characters of the string. *)
Definition chars (s : string) : list ascii := list_ascii_of_string s.

End Js.

Declare Scope js_scope.
Delimit Scope js_scope with js.
Notation "x <- c ;; k" := (Js.bind c (fun x => k))
  (at level 61, c at next level, right associativity) : js_scope.
Notation "c ;;; k" := (Js.bind c (fun _ => k))
  (at level 61, right associativity) : js_scope.

(** ** The error reasons of [txErrors] used by [parsing.ts]

    [TxErrors.X] is a message string in the source; the embedding keeps the
    name of the constant. *)

Inductive TxErrors : Type :=
| CERTIFICATE_MISSING_PATH
| CERTIFICATE_SUPERFLUOUS_POOL_KEY_HASH
| CERTIFICATE_MISSING_POOL_KEY_HASH
| CERTIFICATE_INVALID
| CERTIFICATES_NOT_ARRAY
| CERTIFICATES_COMBINATION_FORBIDDEN
| INPUTS_NOT_ARRAY
| INPUT_INVALID_TX_HASH
| INPUT_WITH_PATH
| OUTPUTS_NOT_ARRAY
| OUTPUT_WITH_PATH
| OUTPUT_INVALID_TOKEN_BUNDLE
| OUTPUT_INVALID_TOKEN_POLICY
| OUTPUT_INVALID_ASSET_NAME
| FEE_INVALID
| TTL_INVALID
| WITHDRAWALS_NOT_ARRAY
| WITHDRAWALS_FORBIDDEN
| METADATA_INVALID
| VALIDITY_INTERVAL_START_INVALID
| CERTIFICATE_POOL_INVALID_MARGIN
| CERTIFICATE_POOL_INVALID_MARGIN_DENOMINATOR
| CERTIFICATE_POOL_INVALID_POOL_KEY_HASH
| CERTIFICATE_POOL_INVALID_VRF_KEY_HASH
| CERTIFICATE_POOL_INVALID_PLEDGE
| CERTIFICATE_POOL_INVALID_COST
| CERTIFICATE_POOL_INVALID_REWARD_ACCOUNT
| CERTIFICATE_POOL_OWNERS_TOO_MANY
| CERTIFICATE_POOL_RELAYS_TOO_MANY
| CERTIFICATE_POOL_OWNERS_SINGLE_PATH
| CERTIFICATE_POOL_OWNER_INVALID_PATH
| CERTIFICATE_POOL_OWNER_INVALID_KEY_HASH
| CERTIFICATE_POOL_OWNER_INCOMPLETE
| CERTIFICATE_POOL_RELAY_INVALID_PORT
| CERTIFICATE_POOL_RELAY_INVALID_IPV4
| CERTIFICATE_POOL_RELAY_INVALID_IPV6
| CERTIFICATE_POOL_RELAY_INVALID_DNS
| CERTIFICATE_POOL_RELAY_INVALID_TYPE
| CERTIFICATE_POOL_METADATA_INVALID_URL
| CERTIFICATE_POOL_METADATA_INVALID_HASH.

(** What the validator throws: [new Error(msg)] with one of the reasons
    above, [new Error()] with the default message when a check is called
    without one, or a [TypeError] when a property of [undefined] is read. *)
Inductive Thrown : Type :=
| Error (msg : option TxErrors)
| TypeError.

Definition Checked (A : Type) : Type := Js.Result Thrown A.

(** ** [utils]: characters, numerals and [Precondition] *)

Module Utils.

Local Open Scope js_scope.

Definition BIP32Path : Type := list Z.
Definition Buffer : Type := list Z.

Definition charCode (c : ascii) : nat := nat_of_ascii c.

Definition isDigit (c : ascii) : bool :=
  (48 <=? charCode c) && (charCode c <=? 57).

Definition isHexChar (c : ascii) : bool :=
  isDigit c
  || ((65 <=? charCode c) && (charCode c <=? 70))
  || ((97 <=? charCode c) && (charCode c <=? 102)).

(** A decimal numeral: one digit or more, nothing else. *)
Definition isDecimal (s : string) : bool :=
  negb (String.length s =? 0) && forallb isDigit (Js.chars s).

Definition digitValue (c : ascii) : Z := Z.of_nat (charCode c) - 48.

(** The number a decimal numeral denotes. *)
Definition uintValue (s : string) : Z :=
  fold_left (fun acc c => acc * 10 + digitValue c)%Z (Js.chars s) 0%Z.

Definition hexValue (c : ascii) : Z :=
  if isDigit c then Z.of_nat (charCode c) - 48
  else if (97 <=? charCode c) then Z.of_nat (charCode c) - 87
  else Z.of_nat (charCode c) - 55.

Definition UINT64_MAX_STR : string := "18446744073709551615".

Module Precondition.

(** Modelled from the spec: [Precondition.check] of [utils] (not under
    [src/]), the generic check every other one goes through: it throws an
    [Error] carrying the given reason when the condition is false. *)
Definition check (cond : bool) (msg : option TxErrors) : Checked unit :=
  if cond then inr tt else inl (Error msg).

(** Modelled from the spec: [Precondition.checkIsString].  A field typed
    [string] that is absent at run time is [None]. *)
Definition checkIsString (data : option string) (msg : option TxErrors) : Checked unit :=
  check (match data with Some _ => true | None => false end) msg.

(** Modelled from the spec: [Precondition.checkIsUint32], an unsigned
    32-bit integer. *)
Definition checkIsUint32 (data : Z) (msg : option TxErrors) : Checked unit :=
  check ((0 <=? data)%Z && (data <=? 4294967295)%Z) msg.

(** Modelled from the spec: [Precondition.checkIsUint8], an octet in
    [0, 255]. *)
Definition checkIsUint8 (data : Z) (msg : option TxErrors) : Checked unit :=
  check ((0 <=? data)%Z && (data <=? 255)%Z) msg.

(** Modelled from the spec: [Precondition.checkIsHexString], a string
    composed only of hex digits that encodes whole bytes. *)
Definition isHexString (s : string) : bool :=
  Nat.even (String.length s) && forallb isHexChar (Js.chars s).

Definition checkIsHexString (data : option string) (msg : option TxErrors) : Checked unit :=
  check (match data with Some s => isHexString s | None => false end) msg.

(** Modelled from the spec: [Precondition.checkIsHexStringOfLength], a hex
    string of exactly the required length, the length being counted in
    bytes (a 28-byte key hash, a 16-byte IPv6 address). *)
Definition isHexStringOfLength (s : string) (expectedByteLength : nat) : bool :=
  isHexString s && (String.length s =? expectedByteLength * 2).

Definition checkIsHexStringOfLength
  (data : option string) (expectedByteLength : nat) (msg : option TxErrors) : Checked unit :=
  check (match data with Some s => isHexStringOfLength s expectedByteLength | None => false end) msg.

(** Modelled from the spec: [Precondition.checkIsValidPath], an array of
    unsigned 32-bit integers of at most 10 indexes. *)
Definition isValidPath (path : BIP32Path) : bool :=
  forallb (fun x => (0 <=? x)%Z && (x <=? 4294967295)%Z) path && (length path <=? 10).

Definition checkIsValidPath (path : option BIP32Path) (msg : option TxErrors) : Checked unit :=
  check (match path with Some p => isValidPath p | None => false end) msg.

(** Modelled from the spec: [Precondition.checkIsValidUintStr], an
    unsigned decimal string: numeric, non-negative and at most the
    explicit maximum [maxValue]. *)
Definition isValidUintStr (data maxValue : string) : bool :=
  isDecimal data && (uintValue data <=? uintValue maxValue)%Z.

Definition checkIsValidUintStr (data maxValue : string) (msg : option TxErrors) : Checked unit :=
  check (isValidUintStr data maxValue) msg.

(** Modelled from the spec: [Precondition.checkIsUint64Str], a bounded
    unsigned 64-bit decimal string. *)
Definition checkIsUint64Str (data : string) (msg : option TxErrors) : Checked unit :=
  checkIsValidUintStr data UINT64_MAX_STR msg.

(** Modelled from the spec: [Precondition.checkIsPositiveUint64Str], an
    unsigned 64-bit decimal string that is not zero. *)
Definition checkIsPositiveUint64Str (data : string) (msg : option TxErrors) : Checked unit :=
  check (isValidUintStr data UINT64_MAX_STR && (0 <? uintValue data)%Z) msg.

End Precondition.

(** Modelled from the spec: [utils.safe_parseInt], which reads one
    dot-separated octet of an IPv4 address written in decimal and throws
    on anything else. *)
Definition safe_parseInt (str : string) : Checked Z :=
  if isDecimal str then inr (uintValue str) else inl (Error None).

(** Modelled from the spec: [hex_to_buf], the bytes a hex string encodes,
    two digits per byte. *)
Fixpoint hexPairs (cs : list ascii) : Buffer :=
  match cs with
  | hi :: lo :: rest => (hexValue hi * 16 + hexValue lo)%Z :: hexPairs rest
  | _ => []
  end.

Definition hex_to_buf (data : string) : Buffer := hexPairs (Js.chars data).

End Utils.

(** ** [parsing.ts]: the domain validator *)

Module Parsing.

Import Utils.
Local Open Scope js_scope.

(** *** Constants *)

Module CertificateType.
Definition STAKE_REGISTRATION : Z := 0.
Definition STAKE_DEREGISTRATION : Z := 1.
Definition STAKE_DELEGATION : Z := 2.
Definition STAKE_POOL_REGISTRATION : Z := 3.
End CertificateType.

Module RelayType.
Definition SingleHostAddr : Z := 0.
Definition SingleHostName : Z := 1.
Definition MultiHostName : Z := 2.
End RelayType.

Definition KEY_HASH_LENGTH : nat := 28.
Definition TX_HASH_LENGTH : nat := 32.
Definition TOKEN_POLICY_LENGTH : nat := 28.
Definition TOKEN_NAME_LENGTH : nat := 32.
Definition ASSET_GROUPS_MAX : nat := 1000.
Definition TOKENS_IN_GROUP_MAX : nat := 1000.
Definition POOL_REGISTRATION_OWNERS_MAX : nat := 1000.
Definition POOL_REGISTRATION_RELAYS_MAX : nat := 1000.

(** *** The caller's request objects (the types imported from [./Ada]) *)

Record Margin : Type := mkMargin {
  numeratorStr : string;
  denominatorStr : string
}.

Record PoolOwnerParams : Type := mkPoolOwnerParams {
  stakingPath : option BIP32Path;
  stakingKeyHashHex : option string
}.

(** [RelayParams.params] is cast to the relay record its [type] selects;
    the object is kept with every field the three records can hold. *)
Record RelayFields : Type := mkRelayFields {
  portNumber : option Z;
  ipv4 : option string;
  ipv6 : option string;
  dnsName : option string
}.

Record RelayParams : Type := mkRelayParams {
  relayType : Z;
  params : RelayFields
}.

Record PoolMetadataParams : Type := mkPoolMetadataParams {
  metadataUrl : string;
  metadataHashHex : string
}.

Record PoolParams : Type := mkPoolParams {
  poolKeyHashHex : string;
  vrfKeyHashHex : string;
  pledgeStr : string;
  costStr : string;
  margin : Margin;
  rewardAccountHex : string;
  poolOwners : list PoolOwnerParams;
  relays : list RelayParams;
  metadata : option PoolMetadataParams
}.

Record Certificate : Type := mkCertificate {
  certType : Z;
  certPath : option BIP32Path;
  certPoolKeyHashHex : option string;
  poolRegistrationParams : option PoolParams
}.

Record Network : Type := mkNetwork {
  networkId : Z;
  protocolMagic : Z
}.

Record InputTypeUTxO : Type := mkInput {
  txHashHex : string;
  outputIndex : Z;
  inputPath : option BIP32Path
}.

Record Token : Type := mkToken {
  assetNameHex : string;
  tokenAmountStr : string
}.

Record AssetGroup : Type := mkAssetGroup {
  policyIdHex : string;
  tokens : list Token
}.

(** [TxOutputTypeAddress | TxOutputTypeAddressParams]: one object with the
    fields of both shapes, those of the other shape absent. *)
Record TxOutput : Type := mkTxOutput {
  amountStr : string;
  tokenBundle : option (list AssetGroup);
  addressHex : option string;
  addressTypeNibble : option Z;
  spendingPath : option BIP32Path;
  outputStakingPath : option BIP32Path;
  outputStakingKeyHashHex : option string;
  stakingBlockchainPointer : option (Z * Z * Z)
}.

Record Withdrawal : Type := mkWithdrawal {
  withdrawalPath : option BIP32Path;
  withdrawalAmountStr : string
}.

(** *** The validated intermediate representation *)

Record ParsedMargin : Type := mkParsedMargin {
  parsedNumeratorStr : string;
  parsedDenominatorStr : string
}.

Inductive ParsedPoolOwner : Type :=
| OwnerPath (path : BIP32Path)
| OwnerKeyHash (hashHex : string).

Inductive ParsedPoolRelay : Type :=
| ParsedSingleHostAddr (port : option Z) (ipv4 : option Buffer) (ipv6 : option Buffer)
| ParsedSingleHostName (port : option Z) (dnsName : string)
| ParsedMultiHostName (dnsName : string).

Record ParsedPoolMetadata : Type := mkParsedPoolMetadata {
  url : string;
  hashHex : string
}.

Record ParsedPoolParams : Type := mkParsedPoolParams {
  keyHashHex : string;
  vrfHashHex : string;
  parsedPledgeStr : string;
  parsedCostStr : string;
  parsedMargin : ParsedMargin;
  parsedRewardAccountHex : string;
  owners : list ParsedPoolOwner;
  parsedRelays : list ParsedPoolRelay;
  parsedMetadata : option ParsedPoolMetadata
}.

(** [ParsedCertificate]: the [type] and the fields that variant carries. *)
Inductive ParsedCertificate : Type :=
| ParsedStakeCert (type : Z) (path : BIP32Path)
| ParsedDelegation (type : Z) (path : BIP32Path) (poolKeyHashHex : string)
| ParsedPoolRegistration (type : Z) (pool : ParsedPoolParams).

Definition parsedType (cert : ParsedCertificate) : Z :=
  match cert with
  | ParsedStakeCert t _ => t
  | ParsedDelegation t _ _ => t
  | ParsedPoolRegistration t _ => t
  end.

(** *** The small parsers *)

Definition isPrintableAscii (c : ascii) : bool :=
  (32 <=? charCode c) && (charCode c <=? 126).

Definition parseAscii (str : string) (err : TxErrors) : Checked string :=
  Precondition.checkIsString (Some str) (Some err) ;;;
  Precondition.check (forallb isPrintableAscii (Js.chars str)) (Some err) ;;;
  Js.ret str.

Definition parseHexStringOfLength (str : option string) (length : nat) (err : TxErrors)
  : Checked string :=
  Precondition.checkIsHexStringOfLength str length (Some err) ;;;
  match str with
  | Some s => Js.ret s
  | None => Js.throw TypeError
  end.

Definition parseUint64_str (str maxValue : string) (err : TxErrors) : Checked string :=
  Precondition.checkIsValidUintStr str maxValue (Some err) ;;;
  Js.ret str.

Definition parseBIP32Path (path : option BIP32Path) (err : TxErrors) : Checked BIP32Path :=
  Precondition.checkIsValidPath path (Some err) ;;;
  match path with
  | Some p => Js.ret p
  | None => Js.throw TypeError
  end.

Definition parsePort (portNumber : Z) (err : TxErrors) : Checked Z :=
  Precondition.checkIsUint32 portNumber (Some err) ;;;
  Precondition.check (portNumber <=? 65535)%Z (Some err) ;;;
  Js.ret portNumber.

Definition parseIPv4 (ipv4 : string) (err : TxErrors) : Checked Buffer :=
  Precondition.checkIsString (Some ipv4) (Some err) ;;;
  let ipParts := Js.split "."%char ipv4 in
  Precondition.check (length ipParts =? 4) (Some err) ;;;
  Js.mapM (fun part =>
             ipPart <- safe_parseInt part ;;
             Precondition.checkIsUint8 ipPart (Some err) ;;;
             Js.ret ipPart) ipParts.

Definition parseIPv6 (ipv6 : string) (err : TxErrors) : Checked Buffer :=
  Precondition.checkIsString (Some ipv6) (Some err) ;;;
  let ipHex := Js.join (Js.split ":"%char ipv6) in
  Precondition.checkIsHexStringOfLength (Some ipHex) 16 (Some err) ;;;
  Js.ret (hex_to_buf ipHex).

Definition isAscii7 (c : ascii) : bool := charCode c <=? 127.

Definition parseDnsName (dnsName : option string) (err : TxErrors) : Checked string :=
  Precondition.checkIsString dnsName (Some err) ;;;
  match dnsName with
  | None => Js.throw TypeError
  | Some name =>
      Precondition.check (String.length name <=? 64) (Some err) ;;;
      Precondition.check (forallb isAscii7 (Js.chars name)) (Some err) ;;;
      Precondition.check (forallb isPrintableAscii (Js.chars name)) (Some err) ;;;
      Js.ret name
  end.

(** [field != null ? parse(field) : null] *)
Definition parseOptional {A B : Type} (parse : A -> Checked B) (field : option A)
  : Checked (option B) :=
  match field with
  | Some v => r <- parse v ;; Js.ret (Some r)
  | None => Js.ret None
  end.

Definition parsePoolRelayParams (relayParams : RelayParams) : Checked ParsedPoolRelay :=
  let p := params relayParams in
  if (relayType relayParams =? RelayType.SingleHostAddr)%Z then
    port <- parseOptional (fun n => parsePort n CERTIFICATE_POOL_RELAY_INVALID_PORT) (portNumber p) ;;
    v4 <- parseOptional (fun s => parseIPv4 s CERTIFICATE_POOL_RELAY_INVALID_IPV4) (ipv4 p) ;;
    v6 <- parseOptional (fun s => parseIPv6 s CERTIFICATE_POOL_RELAY_INVALID_IPV6) (ipv6 p) ;;
    Js.ret (ParsedSingleHostAddr port v4 v6)
  else if (relayType relayParams =? RelayType.SingleHostName)%Z then
    port <- parseOptional (fun n => parsePort n CERTIFICATE_POOL_RELAY_INVALID_PORT) (portNumber p) ;;
    name <- parseDnsName (dnsName p) CERTIFICATE_POOL_RELAY_INVALID_DNS ;;
    Js.ret (ParsedSingleHostName port name)
  else if (relayType relayParams =? RelayType.MultiHostName)%Z then
    name <- parseDnsName (dnsName p) CERTIFICATE_POOL_RELAY_INVALID_DNS ;;
    Js.ret (ParsedMultiHostName name)
  else Js.throw (Error (Some CERTIFICATE_POOL_RELAY_INVALID_TYPE)).

Definition parsePoolMetadataParams (params : option PoolMetadataParams)
  : Checked (option ParsedPoolMetadata) :=
  match params with
  | None => Js.ret None
  | Some p =>
      url <- parseAscii (metadataUrl p) CERTIFICATE_POOL_METADATA_INVALID_URL ;;
      Precondition.check (String.length url <=? 64) (Some CERTIFICATE_POOL_METADATA_INVALID_URL) ;;;
      hashHex <- parseHexStringOfLength (Some (metadataHashHex p)) 32
                   CERTIFICATE_POOL_METADATA_INVALID_HASH ;;
      Js.ret (Some (mkParsedPoolMetadata url hashHex))
  end.

(** [if (params.stakingPath)] holds for every array, the empty one
    included; [if (params.stakingKeyHashHex)] holds for every string but
    the empty one. *)
Definition parsePoolOwnerParams (params : PoolOwnerParams) : Checked ParsedPoolOwner :=
  match stakingPath params with
  | Some _ =>
      path <- parseBIP32Path (stakingPath params) CERTIFICATE_POOL_OWNER_INVALID_PATH ;;
      Js.ret (OwnerPath path)
  | None =>
      match stakingKeyHashHex params with
      | Some (String _ _) =>
          hashHex <- parseHexStringOfLength (stakingKeyHashHex params) KEY_HASH_LENGTH
                       CERTIFICATE_POOL_OWNER_INVALID_KEY_HASH ;;
          Js.ret (OwnerKeyHash hashHex)
      | _ => Js.throw (Error (Some CERTIFICATE_POOL_OWNER_INCOMPLETE))
      end
  end.

Definition isPathOwner (o : ParsedPoolOwner) : bool :=
  match o with
  | OwnerPath _ => true
  | OwnerKeyHash _ => false
  end.

Section Constants.

(** [MAX_LOVELACE_SUPPLY_STR] is imported from [utils] and the bound of
    [Precondition.checkIsValidPoolMarginDenominator] lives there too;
    neither value is under [src/], so both are parameters. *)
Variable MAX_LOVELACE_SUPPLY_STR : string.
Variable POOL_MARGIN_DENOMINATOR_MAX_STR : string.

(** Modelled from the spec: [Precondition.checkIsValidPoolMarginDenominator],
    an unsigned decimal string under the pool margin denominator bound. *)
Definition checkIsValidPoolMarginDenominator (data : string) (msg : option TxErrors)
  : Checked unit :=
  Precondition.checkIsValidUintStr data POOL_MARGIN_DENOMINATOR_MAX_STR msg.

(** Modelled from the spec: [Precondition.checkIsValidAdaAmount], an
    unsigned decimal string of at most the maximal lovelace supply. *)
Definition checkIsValidAdaAmount (data : string) (msg : option TxErrors) : Checked unit :=
  Precondition.checkIsValidUintStr data MAX_LOVELACE_SUPPLY_STR msg.

Definition parseMargin (params : Margin) : Checked ParsedMargin :=
  let marginNumeratorStr := numeratorStr params in
  let marginDenominatorStr := denominatorStr params in
  Precondition.checkIsUint64Str marginNumeratorStr (Some CERTIFICATE_POOL_INVALID_MARGIN) ;;;
  checkIsValidPoolMarginDenominator marginDenominatorStr
    (Some CERTIFICATE_POOL_INVALID_MARGIN_DENOMINATOR) ;;;
  Precondition.checkIsValidUintStr marginNumeratorStr marginDenominatorStr
    (Some CERTIFICATE_POOL_INVALID_MARGIN) ;;;
  Js.ret (mkParsedMargin marginNumeratorStr marginDenominatorStr).

Definition parsePoolParams (params : PoolParams) : Checked ParsedPoolParams :=
  keyHashHex <- parseHexStringOfLength (Some (poolKeyHashHex params)) KEY_HASH_LENGTH
                  CERTIFICATE_POOL_INVALID_POOL_KEY_HASH ;;
  vrfHashHex <- parseHexStringOfLength (Some (vrfKeyHashHex params)) 32
                  CERTIFICATE_POOL_INVALID_VRF_KEY_HASH ;;
  pledgeStr <- parseUint64_str (pledgeStr params) MAX_LOVELACE_SUPPLY_STR
                 CERTIFICATE_POOL_INVALID_PLEDGE ;;
  costStr <- parseUint64_str (costStr params) MAX_LOVELACE_SUPPLY_STR
               CERTIFICATE_POOL_INVALID_COST ;;
  margin <- parseMargin (margin params) ;;
  rewardAccountHex <- parseHexStringOfLength (Some (rewardAccountHex params)) 29
                        CERTIFICATE_POOL_INVALID_REWARD_ACCOUNT ;;
  owners <- Js.mapM parsePoolOwnerParams (poolOwners params) ;;
  relays <- Js.mapM parsePoolRelayParams (relays params) ;;
  metadata <- parsePoolMetadataParams (metadata params) ;;
  Precondition.check (length owners <=? POOL_REGISTRATION_OWNERS_MAX)
    (Some CERTIFICATE_POOL_OWNERS_TOO_MANY) ;;;
  Precondition.check (length relays <=? POOL_REGISTRATION_RELAYS_MAX)
    (Some CERTIFICATE_POOL_RELAYS_TOO_MANY) ;;;
  Precondition.check (length (filter isPathOwner owners) =? 1)
    (Some CERTIFICATE_POOL_OWNERS_SINGLE_PATH) ;;;
  Js.ret (mkParsedPoolParams keyHashHex vrfHashHex pledgeStr costStr margin
            rewardAccountHex owners relays metadata).

(** [cert.poolRegistrationParams!] only silences the type checker: on an
    absent field [parsePoolParams] reads a property of [undefined]. *)
Definition parseCertificate (cert : Certificate) : Checked ParsedCertificate :=
  if ((certType cert =? CertificateType.STAKE_REGISTRATION)
      || (certType cert =? CertificateType.STAKE_DEREGISTRATION))%Z then
    Precondition.checkIsValidPath (certPath cert) (Some CERTIFICATE_MISSING_PATH) ;;;
    Precondition.check (match certPoolKeyHashHex cert with None => true | Some _ => false end)
      (Some CERTIFICATE_SUPERFLUOUS_POOL_KEY_HASH) ;;;
    path <- parseBIP32Path (certPath cert) CERTIFICATE_MISSING_PATH ;;
    Js.ret (ParsedStakeCert (certType cert) path)
  else if (certType cert =? CertificateType.STAKE_DELEGATION)%Z then
    Precondition.checkIsValidPath (certPath cert) (Some CERTIFICATE_MISSING_PATH) ;;;
    Precondition.checkIsHexStringOfLength (certPoolKeyHashHex cert) KEY_HASH_LENGTH
      (Some CERTIFICATE_MISSING_POOL_KEY_HASH) ;;;
    path <- parseBIP32Path (certPath cert) CERTIFICATE_MISSING_PATH ;;
    poolKeyHashHex <- parseHexStringOfLength (certPoolKeyHashHex cert) KEY_HASH_LENGTH
                        CERTIFICATE_MISSING_POOL_KEY_HASH ;;
    Js.ret (ParsedDelegation (certType cert) path poolKeyHashHex)
  else if (certType cert =? CertificateType.STAKE_POOL_REGISTRATION)%Z then
    match poolRegistrationParams cert with
    | None => Js.throw TypeError
    | Some poolParams =>
        pool <- parsePoolParams poolParams ;;
        Js.ret (ParsedPoolRegistration (certType cert) pool)
    end
  else Js.throw (Error (Some CERTIFICATE_INVALID)).

Definition isNotPoolRegistration (cert : ParsedCertificate) : bool :=
  negb (parsedType cert =? CertificateType.STAKE_POOL_REGISTRATION)%Z.

(** [Precondition.checkIsArray(certificates, ...)] cannot fail on a value
    of type [Array<Certificate>]; the list type stands for it. *)
Definition parseCertificates (certificates : list Certificate)
  : Checked (list ParsedCertificate) :=
  parsed <- Js.mapM parseCertificate certificates ;;
  Precondition.check (forallb isNotPoolRegistration parsed || (length parsed =? 1))
    (Some CERTIFICATES_COMBINATION_FORBIDDEN) ;;;
  Js.ret parsed.

(** *** [validateTransaction] *)

(** [serializeOutputBasicParams] is imported from [./cardano], which is
    not under [src/]: it returns nothing the validator uses and throws
    when the amount or the address parameters of the output are invalid. *)
Variable serializeOutputBasicParams : TxOutput -> Network -> Checked unit.

Definition isPoolRegistration (cert : Certificate) : bool :=
  (certType cert =? CertificateType.STAKE_POOL_REGISTRATION)%Z.

(** The body of [for (const input of inputs)]; [!input.path] holds exactly
    when the field is absent, every array being truthy. *)
Definition validateInput (isSigningPoolRegistrationAsOwner : bool) (input : InputTypeUTxO)
  : Checked unit :=
  Precondition.checkIsHexStringOfLength (Some (txHashHex input)) TX_HASH_LENGTH
    (Some INPUT_INVALID_TX_HASH) ;;;
  if isSigningPoolRegistrationAsOwner then
    Precondition.check (match inputPath input with None => true | Some _ => false end)
      (Some INPUT_WITH_PATH)
  else Js.ret tt.

(** The body of [for (const token of assetGroup.tokens)]. *)
Definition validateToken (token : Token) : Checked unit :=
  Precondition.checkIsHexString (Some (assetNameHex token)) (Some OUTPUT_INVALID_ASSET_NAME) ;;;
  Precondition.check (String.length (assetNameHex token) <=? TOKEN_NAME_LENGTH * 2)
    (Some OUTPUT_INVALID_ASSET_NAME) ;;;
  Precondition.checkIsUint64Str (tokenAmountStr token) None.

(** The body of [for (const assetGroup of output.tokenBundle)]. *)
Definition validateAssetGroup (assetGroup : AssetGroup) : Checked unit :=
  Precondition.checkIsHexStringOfLength (Some (policyIdHex assetGroup)) TOKEN_POLICY_LENGTH
    (Some OUTPUT_INVALID_TOKEN_POLICY) ;;;
  Precondition.check (length (tokens assetGroup) <=? TOKENS_IN_GROUP_MAX) None ;;;
  Js.forEachM validateToken (tokens assetGroup).

(** The body of [for (const output of outputs)]. *)
Definition validateOutput (isSigningPoolRegistrationAsOwner : bool) (network : Network)
  (output : TxOutput) : Checked unit :=
  serializeOutputBasicParams output network ;;;
  match spendingPath output with
  | Some _ => Precondition.check (negb isSigningPoolRegistrationAsOwner) (Some OUTPUT_WITH_PATH)
  | None => Js.ret tt
  end ;;;
  match tokenBundle output with
  | Some bundle =>
      Precondition.check (length bundle <=? ASSET_GROUPS_MAX) None ;;;
      Js.forEachM validateAssetGroup bundle
  | None => Js.ret tt
  end.

(** The body of [for (const withdrawal of withdrawals)]. *)
Definition validateWithdrawal (withdrawal : Withdrawal) : Checked unit :=
  checkIsValidAdaAmount (withdrawalAmountStr withdrawal) None ;;;
  Precondition.checkIsValidPath (withdrawalPath withdrawal) None.

Definition validateTransaction
  (network : Network)
  (inputs : list InputTypeUTxO)
  (outputs : list TxOutput)
  (feeStr : string)
  (ttlStr : option string)
  (certificates : list Certificate)
  (withdrawals : list Withdrawal)
  (metadataHashHex : option string)
  (validityIntervalStartStr : option string) : Checked unit :=
  let isSigningPoolRegistrationAsOwner := existsb isPoolRegistration certificates in
  (* inputs *)
  Js.forEachM (validateInput isSigningPoolRegistrationAsOwner) inputs ;;;
  (* outputs *)
  Js.forEachM (validateOutput isSigningPoolRegistrationAsOwner network) outputs ;;;
  (* fee *)
  checkIsValidAdaAmount feeStr (Some FEE_INVALID) ;;;
  (* ttl *)
  match ttlStr with
  | Some ttl => Precondition.checkIsPositiveUint64Str ttl (Some TTL_INVALID)
  | None => Js.ret tt
  end ;;;
  (* certificates *)
  parseCertificates certificates ;;;
  (* withdrawals *)
  (if isSigningPoolRegistrationAsOwner && (0 <? length withdrawals)
   then Js.throw (Error (Some WITHDRAWALS_FORBIDDEN))
   else Js.ret tt) ;;;
  Js.forEachM validateWithdrawal withdrawals ;;;
  (* metadata could be null *)
  match metadataHashHex with
  | Some h => Precondition.checkIsHexStringOfLength (Some h) 32 (Some METADATA_INVALID)
  | None => Js.ret tt
  end ;;;
  (* validity interval start *)
  match validityIntervalStartStr with
  | Some v => Precondition.checkIsPositiveUint64Str v (Some VALIDITY_INTERVAL_START_INVALID)
  | None => Js.ret tt
  end.

End Constants.

End Parsing.

(** ** [Ada.js]: the legacy wire variant *)

Module Legacy.

Import Utils.

Definition CLA : Z := 128.

Definition INS_GET_PUBLIC_KEY : Z := 1.
Definition INS_SET_TX : Z := 2.
Definition INS_APP_INFO : Z := 4.

Definition P1_FIRST : Z := 1.
Definition P1_NEXT : Z := 2.
Definition P1_LAST : Z := 3.

Definition P2_SINGLE_TX : Z := 1.
Definition P2_MULTI_TX : Z := 2.

Definition MAX_APDU_SIZE : nat := 64.
Definition OFFSET_CDATA : nat := 5.
Definition MAX_ADDR_PRINT_LENGTH : nat := 12.

(** The arguments of one [transport.send(cla, ins, p1, p2, data)]. *)
Record Apdu : Type := mkApdu {
  cla : Z;
  ins : Z;
  p1 : Z;
  p2 : Z;
  data : Buffer
}.

(** [Buffer.prototype.slice(start, end)], clamped to the buffer. *)
Definition slice (buf : Buffer) (start stop : nat) : Buffer :=
  firstn (stop - start) (skipn start buf).

(** [Buffer.from(txHex, "hex")]: whole bytes are decoded until the first
    pair that is not two hex digits. *)
Fixpoint decodeHex (cs : list ascii) : Buffer :=
  match cs with
  | hi :: lo :: rest =>
      if isHexChar hi && isHexChar lo
      then (hexValue hi * 16 + hexValue lo)%Z :: decodeHex rest
      else []
  | _ => []
  end.

Definition bufferFromHex (txHex : string) : Buffer := decodeHex (Js.chars txHex).

(** What [setTransaction] can throw: whatever the transport threw, or the
    [RangeError] of a read past the end of the response. *)
Inductive Thrown (E : Type) : Type :=
| TransportThrew (e : E)
| RangeError.

Arguments RangeError {E}.

(** [res.readUInt32LE(offset)] *)
Definition readUInt32LE {E : Type} (res : Buffer) (offset : nat) : Js.Result (Thrown E) Z :=
  match slice res offset (offset + 4) with
  | [b0; b1; b2; b3] => inr (b0 + 256 * b1 + 65536 * b2 + 16777216 * b3)%Z
  | _ => inl RangeError
  end.

Definition hexDigit (n : Z) : ascii :=
  ascii_of_nat (Z.to_nat (if (n <? 10)%Z then 48 + n else 87 + n)%Z).

Fixpoint hexDigits (width : nat) (n : Z) (acc : string) : string :=
  match width with
  | O => acc
  | S w => hexDigits w (n / 16)%Z (String (hexDigit (n mod 16)%Z) acc)
  end.

(** [new Int64(hi, lo).toOctetString()]: the sixteen hex digits of the
    64-bit value. *)
Definition toOctetString (hi lo : Z) : string :=
  hexDigits 16 (hi * 4294967296 + lo)%Z EmptyString.

(** One entry of [txs].  [slice(...).toString()] decodes the address bytes
    into a string; the embedding keeps the bytes. *)
Record Tx : Type := mkTx {
  address : Buffer;
  amount : string
}.

Record Summary : Type := mkSummary {
  inputs : Z;
  outputs : Z;
  txs : list Tx
}.

(** The inner [for (let i = 0; i < outputs; i++)] over a response. *)
Fixpoint readTxs {E : Type} (count : nat) (res : Buffer) (offset : nat)
  : Js.Result (Thrown E) (list Tx) :=
  match count with
  | O => inr []
  | S n =>
      let address := slice res offset (offset + MAX_ADDR_PRINT_LENGTH) in
      let offset := offset + MAX_ADDR_PRINT_LENGTH in
      match readUInt32LE res (offset + 4) with
      | inl e => inl e
      | inr hi =>
          match readUInt32LE res offset with
          | inl e => inl e
          | inr lo =>
              match readTxs n res (offset + 8) with
              | inl e => inl e
              | inr rest => inr (mkTx address (toOctetString hi lo) :: rest)
              end
          end
      end
  end.

(** [if (res.length > 4) { ... response = { inputs, outputs, txs } }];
    [None] is the object [{}]. *)
Definition readSummary {E : Type} (res : Buffer) (response : option Summary)
  : Js.Result (Thrown E) (option Summary) :=
  if 4 <? length res then
    let inputs := nth 0 res 0%Z in
    let outputs := nth 1 res 0%Z in
    match readTxs (Z.to_nat outputs) res 2 with
    | inl e => inl e
    | inr txs => inr (Some (mkSummary inputs outputs txs))
    end
  else inr response.

Section Transport.

(** The transport is external: a device state [Device] and one operation
    that answers a frame or throws. *)
Variable Device : Type.
Variable E : Type.

Definition Transport : Type := Apdu -> Device -> Js.Result E Buffer * Device.

Variable send : Transport.

(** The [p1] and [p2] of the chunk that starts at offset [i]. *)
Definition chunkP2 (rawTx : Buffer) (chunkSize : nat) : Z :=
  if length rawTx <? chunkSize then P2_SINGLE_TX else P2_MULTI_TX.

Definition chunkP1 (rawTx : Buffer) (chunkSize i : nat) : Z :=
  if i =? 0 then P1_FIRST
  else if length rawTx <=? i + chunkSize then P1_LAST
  else P1_NEXT.

Definition chunkApdu (rawTx : Buffer) (chunkSize i : nat) : Apdu :=
  mkApdu CLA INS_SET_TX (chunkP1 rawTx chunkSize i) (chunkP2 rawTx chunkSize)
    (slice rawTx i (i + chunkSize)).

(** [for (let i = 0; i < rawTx.length; i += chunkSize) { ... }], one
    unit of [fuel] per iteration; [None] when the fuel runs out before the
    loop ends. *)
Fixpoint sendChunks (fuel : nat) (rawTx : Buffer) (chunkSize i : nat)
  (response : option Summary) (d : Device)
  : option (Js.Result (Thrown E) (option Summary) * Device) :=
  if i <? length rawTx then
    match fuel with
    | O => None
    | S fuel' =>
        match send (chunkApdu rawTx chunkSize i) d with
        | (inl e, d') => Some (inl (TransportThrew e), d')
        | (inr res, d') =>
            match readSummary res response with
            | inl e => Some (inl e, d')
            | inr response' => sendChunks fuel' rawTx chunkSize (i + chunkSize) response' d'
            end
        end
    end
  else Some (inr response, d).

Definition setTransactionRaw (rawTx : Buffer) (d : Device)
  : option (Js.Result (Thrown E) (option Summary) * Device) :=
  let chunkSize := MAX_APDU_SIZE - OFFSET_CDATA in
  sendChunks (length rawTx) rawTx chunkSize 0 None d.

Definition setTransaction (txHex : string) (d : Device)
  : option (Js.Result (Thrown E) (option Summary) * Device) :=
  setTransactionRaw (bufferFromHex txHex) d.

End Transport.

(** A transport that also records every frame it is handed, in order. *)
Definition logged {Device E : Type} (send : Transport Device E)
  : Transport (Device * list Apdu) E :=
  fun apdu st =>
    let (r, d') := send apdu (fst st) in (r, (d', snd st ++ [apdu])).

(** The frames of [n] successive chunks, the first one at offset [i]. *)
Definition framesFrom (rawTx : Buffer) (chunkSize i n : nat) : list Apdu :=
  map (fun k => chunkApdu rawTx chunkSize (i + k * chunkSize)) (seq 0 n).

(** The [k]-th piece of a payload cut into pieces of [chunkSize] bytes. *)
Definition piece (rawTx : Buffer) (chunkSize k : nat) : Buffer :=
  slice rawTx (k * chunkSize) (k * chunkSize + chunkSize).

(** The rounded-up quotient. *)
Definition ceilDiv (n d : nat) : nat := (n + d - 1) / d.

(** What a run of [setTransaction] over a recording transport sent. *)
Definition framesSent {Device R : Type}
  (outcome : option (R * (Device * list Apdu))) : list Apdu :=
  match outcome with
  | Some (_, (_, sent)) => sent
  | None => []
  end.

(** *** The other methods of the legacy class *)

(** [buf.toString("hex")]: two lower-case hex digits per byte. *)
Fixpoint toHexString (buf : Buffer) : string :=
  match buf with
  | [] => EmptyString
  | b :: rest =>
      String (hexDigit (b / 16)%Z) (String (hexDigit (b mod 16)%Z) (toHexString rest))
  end.

(** A JavaScript number as [isNaN] tells them apart: [NaN] or a value,
    the values being the integers. *)
Inductive JsNumber : Type :=
| NaN
| Num (value : Z).

(** [Buffer.alloc(4)] followed by [buffer.writeUInt32BE(value, 0)], which
    throws a [RangeError] outside [0, 2^32 - 1]. *)
Definition writeUInt32BE {E : Type} (value : Z) : Js.Result (Thrown E) Buffer :=
  if ((0 <=? value) && (value <=? 4294967295))%Z
  then inr [(value / 16777216)%Z; ((value / 65536) mod 256)%Z;
            ((value / 256) mod 256)%Z; (value mod 256)%Z]
  else inl RangeError.

(** The number four bytes spell in big-endian order. *)
Definition bigEndian (bytes : Buffer) : Z :=
  fold_left (fun acc b => acc * 256 + b)%Z bytes 0%Z.

Record WalletKey : Type := mkWalletKey {
  publicKey : string;
  chainCode : string
}.

Section Methods.

Variable Device : Type.
Variable E : Type.
Variable send : Transport Device E.

(** [new TransportStatusError(code)], the error class of the transport
    library, which the class also throws itself. *)
Variable TransportStatusError : Z -> E.

(** [const [publicKeyLength] = response]; on an empty response the
    length is [undefined] and both slices are empty, as they are with the
    length 0 used here. *)
Definition getWalletRecoveryPassphrase (d : Device)
  : Js.Result (Thrown E) WalletKey * Device :=
  match send (mkApdu CLA INS_GET_PUBLIC_KEY 1 0 []) d with
  | (inl e, d') => (inl (TransportThrew e), d')
  | (inr response, d') =>
      let publicKeyLength := Z.to_nat (nth 0 response 0%Z) in
      let publicKey := toHexString (slice response 1 (1 + publicKeyLength)) in
      let chainCode :=
        toHexString (slice response (1 + publicKeyLength) (1 + publicKeyLength + 32)) in
      (inr (mkWalletKey publicKey chainCode), d')
  end.

Definition getWalletPublicKeyWithIndex (index : JsNumber) (d : Device)
  : Js.Result (Thrown E) string * Device :=
  match index with
  | NaN => (inl (TransportThrew (TransportStatusError 20483)), d)
  | Num value =>
      match writeUInt32BE value with
      | inl e => (inl e, d)
      | inr buffer =>
          match send (mkApdu CLA INS_GET_PUBLIC_KEY 2 0 buffer) d with
          | (inl e, d') => (inl (TransportThrew e), d')
          | (inr response, d') =>
              let publicKeyLength := Z.to_nat (nth 0 response 0%Z) in
              (inr (toHexString (slice response 1 (1 + publicKeyLength))), d')
          end
      end
  end.

End Methods.

(** What a method of the class sent over a recording transport. *)
Definition sentBy {Device R : Type} (outcome : R * (Device * list Apdu)) : list Apdu :=
  snd (snd outcome).

End Legacy.

(** ** [Ada.ts]: interactions, their driver and the public operations *)

Module AdaApi.

Import Utils.

Definition CLA : Z := 215.

(** [SendParams]: what an interaction yields. *)
Record SendParams : Type := mkSendParams {
  ins : Z;
  p1 : Z;
  p2 : Z;
  data : Buffer;
  expectedResponseLength : option nat
}.

(** The arguments of one [transport.send(cla, ins, p1, p2, data)]. *)
Record Frame : Type := mkFrame {
  frameCla : Z;
  frameIns : Z;
  frameP1 : Z;
  frameP2 : Z;
  frameData : Buffer
}.

Inductive InvalidDataReason : Type :=
| GET_EXT_PUB_KEY_PATHS_NOT_ARRAY
| INVALID_PATH
| OtherReason (name : string).

(** The values thrown on the way from the transport to the caller.  An
    error of the transport that reports a device status is an object with
    a numeric [statusCode]; every other failure of the channel has none. *)
Inductive JsError : Type :=
| TransportStatusError (code : Z)
| DeviceStatusError (code : Z)
| AssertionError (message : string)
| InvalidDataError (reason : InvalidDataReason)
| TransportFailure (description : string).

(** Modelled from the spec: the [DeviceStatusError] class of [./errors]
    (not under [src/]) carries the raw status, which is what the retry
    wrapper reads as [e.statusCode]; an assertion or validation error has
    no such property. *)
Definition statusCode (e : JsError) : option Z :=
  match e with
  | TransportStatusError c => Some c
  | DeviceStatusError c => Some c
  | AssertionError _ => None
  | InvalidDataError _ => None
  | TransportFailure _ => None
  end.

(** [Interaction<T>], a generator that yields [SendParams], is resumed
    with the response [Buffer] and returns a [T]: the state of the
    generator is the rest of the conversation. *)
Inductive Interaction (T : Type) : Type :=
| Done (value : T)
| Yield (apdu : SendParams) (next : Buffer -> Interaction T)
| Raise (e : JsError).

Arguments Done {T} value.
Arguments Yield {T} apdu next.
Arguments Raise {T} e.

(** [const x = yield* m; ...rest]: delegation to a smaller interaction. *)
Fixpoint delegate {A B : Type} (m : Interaction A) (rest : A -> Interaction B)
  : Interaction B :=
  match m with
  | Done v => rest v
  | Yield apdu next => Yield apdu (fun res => delegate (next res) rest)
  | Raise e => Raise e
  end.

Section Driver.

Variable Device : Type.

Definition SendFn : Type := SendParams -> Device -> Js.Result JsError Buffer * Device.
Definition TransportSend : Type := Frame -> Device -> Js.Result JsError Buffer * Device.

(** [DeviceStatusCodes.ERR_STILL_IN_CALL] is a constant of [./errors]. *)
Variable ERR_STILL_IN_CALL : Z.

(** [e && e.statusCode && e.statusCode === ERR_STILL_IN_CALL] *)
Definition isStillInCall (e : JsError) : bool :=
  match statusCode e with
  | Some c => negb (c =? 0)%Z && (c =? ERR_STILL_IN_CALL)%Z
  | None => false
  end.

Definition wrapConvertDeviceStatusError (fn : TransportSend) : TransportSend :=
  fun frame d =>
    match fn frame d with
    | (inl e, d') =>
        match statusCode e with
        | Some c => (inl (DeviceStatusError c), d')
        | None => (inl e, d')
        end
    | (inr res, d') => (inr res, d')
    end.

Definition wrapRetryStillInCall (fn : SendFn) : SendFn :=
  fun apdu d =>
    match fn apdu d with
    | (inl e, d') =>
        if isStillInCall e then
          (* Do the retry *)
          fn apdu d'
        else (inl e, d')
    | (inr res, d') => (inr res, d')
    end.

(** The [while (!cursor.done)] loop of [interact], entered with the
    current value of [first]. *)
Fixpoint interactLoop {T : Type} (send : SendFn) (first : bool) (cursor : Interaction T)
  (d : Device) : Js.Result JsError T * Device :=
  match cursor with
  | Done value => (inr value, d)
  | Raise e => (inl e, d)
  | Yield apdu next =>
      match (if first then wrapRetryStillInCall send else send) apdu d with
      | (inl e, d') => (inl e, d')
      | (inr res, d') => interactLoop send false (next res) d'
      end
  end.

Definition interact {T : Type} (interaction : Interaction T) (send : SendFn)
  : Device -> Js.Result JsError T * Device :=
  interactLoop send true interaction.

(** Modelled from the spec: [utils.stripRetcodeFromResponse] (not under
    [src/]) removes the trailing two-byte status code of a response
    frame. *)
Definition stripRetcodeFromResponse (response : Buffer) : Buffer :=
  firstn (length response - 2) response.

(** Modelled from the spec: [assert] of [./utils/assert] throws a fatal
    error, one without a status code, when its condition is false. *)
Definition assert (cond : bool) (message : string) : Js.Result JsError unit :=
  if cond then inr tt else inl (AssertionError message).

(** [this._send], built by the constructor from [transport.send]. *)
Definition _send (transport : TransportSend) : SendFn :=
  fun params d =>
    match wrapConvertDeviceStatusError transport
            (mkFrame CLA (ins params) (p1 params) (p2 params) (data params)) d with
    | (inl e, d') => (inl e, d')
    | (inr response, d') =>
        let response := stripRetcodeFromResponse response in
        match expectedResponseLength params with
        | Some expected =>
            match assert (length response =? expected) "unexpected response length" with
            | inl e => (inl e, d')
            | inr _ => (inr response, d')
            end
        | None => (inr response, d')
        end
    end.

End Driver.

(** A send function that also records every [SendParams] it is handed. *)
Definition logged {Device : Type} (send : SendFn Device) : SendFn (Device * list SendParams) :=
  fun apdu st =>
    let (r, d') := send apdu (fst st) in (r, (d', snd st ++ [apdu])).

(** A transport that also records every frame it is handed. *)
Definition loggedTransport {Device : Type} (transport : TransportSend Device)
  : TransportSend (Device * list Frame) :=
  fun frame st =>
    let (r, d') := transport frame (fst st) in (r, (d', snd st ++ [frame])).

(** The conversation with no retry at all, as the spec words the rule for
    every exchange but the first: each request is handed to [send] once
    and a failure ends the run. *)
Fixpoint exchangeOnce {Device T : Type} (send : SendFn Device) (cursor : Interaction T)
  (d : Device) : Js.Result JsError T * Device * list SendParams :=
  match cursor with
  | Done value => (inr value, d, [])
  | Raise e => (inl e, d, [])
  | Yield apdu next =>
      match send apdu d with
      | (inl e, d') => (inl e, d', [apdu])
      | (inr res, d') =>
          let '(r, d'', sent) := exchangeOnce send (next res) d' in
          (r, d'', apdu :: sent)
      end
  end.

(** The rest of a conversation run without retry from the state [d],
    the exchanges so far being [log]. *)
Definition resume {Device T : Type} (send : SendFn Device) (log : list SendParams)
  (cursor : Interaction T) (d : Device)
  : Js.Result JsError T * (Device * list SendParams) :=
  let '(r, d', sent) := exchangeOnce send cursor d in (r, (d', log ++ sent)).

(** The frame [_send] hands to the transport for a request. *)
Definition frameOf (params : SendParams) : Frame :=
  mkFrame CLA (ins params) (p1 params) (p2 params) (data params).

(** The frames a run over a recording transport has sent. *)
Definition framesOf {Device R : Type} (outcome : R * (Device * list Frame)) : list Frame :=
  snd (snd outcome).

Record Version : Type := mkVersion {
  major : Z;
  minor : Z;
  patch : Z;
  flags : Z
}.

Record ExtendedPublicKey : Type := mkExtendedPublicKey {
  publicKeyHex : string;
  chainCodeHex : string
}.

Definition BIP32Path : Type := list Z.

Section Operations.

(** *** What [Ada.ts] imports from files that are not under [src/] *)

Variable Device : Type.
Variable ERR_STILL_IN_CALL : Z.

(** The request and result types of [./types/public] and
    [./types/internal]. *)
Variables Serial DeviceCompatibility ValidBIP32Path : Type.
Variables Network DeviceOwnedAddress ParsedAddressParams DerivedAddress : Type.
Variables SignTransactionRequest ParsedSigningRequest SignedTransactionData : Type.
Variables OperationalCertificate ParsedOperationalCertificate : Type.
Variable OperationalCertificateSignature : Type.
Variables CIP36Vote ParsedCVote SignedCIP36VoteData : Type.
Variables NativeScript ParsedNativeScript : Type.
Variables NativeScriptHashDisplayFormat NativeScriptHash : Type.

(** The request frame and the response decoder of
    [./interactions/getVersion]. *)
Variable GET_VERSION : SendParams.
Variable decodeVersion : Buffer -> Js.Result JsError Version.
Variable getCompatibility : Version -> DeviceCompatibility.

(** Modelled from the spec: the [getVersion] interaction of
    [./interactions/getVersion] (not under [src/]) queries the device
    version: one get-version request, whose response is decoded into the
    version. *)
Definition getVersion : Interaction Version :=
  Yield GET_VERSION
    (fun response =>
       match decodeVersion response with
       | inr version => Done version
       | inl e => Raise e
       end).

(** The feature interactions of [./interactions/*]. *)
Variable getSerial : Version -> Interaction Serial.
Variable runTests : Version -> Interaction unit.
Variable getExtendedPublicKeys :
  Version -> list ValidBIP32Path -> Interaction (list ExtendedPublicKey).
Variable deriveAddress : Version -> ParsedAddressParams -> Interaction DerivedAddress.
Variable showAddress : Version -> ParsedAddressParams -> Interaction unit.
Variable signTransaction : Version -> ParsedSigningRequest -> Interaction SignedTransactionData.
Variable signOperationalCertificate :
  Version -> ParsedOperationalCertificate -> Interaction OperationalCertificateSignature.
Variable signCVote : Version -> ParsedCVote -> Interaction SignedCIP36VoteData.
Variable deriveNativeScriptHash :
  Version -> ParsedNativeScript -> NativeScriptHashDisplayFormat -> Interaction NativeScriptHash.

(** The validators of [./parsing/*] and [./utils/parse]. *)
Variable parseBIP32Path : BIP32Path -> InvalidDataReason -> Js.Result JsError ValidBIP32Path.
Variable parseAddress : Network -> DeviceOwnedAddress -> Js.Result JsError ParsedAddressParams.
Variable parseSignTransactionRequest :
  SignTransactionRequest -> Js.Result JsError ParsedSigningRequest.
Variable parseOperationalCertificate :
  OperationalCertificate -> Js.Result JsError ParsedOperationalCertificate.
Variable parseCVote : CIP36Vote -> Js.Result JsError ParsedCVote.
Variable parseNativeScript : NativeScript -> Js.Result JsError ParsedNativeScript.
Variable parseNativeScriptHashDisplayFormat :
  NativeScriptHashDisplayFormat -> Js.Result JsError NativeScriptHashDisplayFormat.

(** *** The class [Ada] *)

(** [this.transport], handed to the constructor. *)
Variable transport : TransportSend Device.

Definition Outcome (T : Type) : Type := (Js.Result JsError T * Device)%type.

(** A validator that runs before the interaction is built; when it throws
    nothing is sent. *)
Definition validated {A T : Type} (parsed : Js.Result JsError A)
  (run : A -> Device -> Outcome T) (d : Device) : Outcome T :=
  match parsed with
  | inl e => (inl e, d)
  | inr a => run a d
  end.

Definition run {T : Type} (interaction : Interaction T) : Device -> Outcome T :=
  interact ERR_STILL_IN_CALL interaction (_send transport).

(** An operation begins with a fresh version when its run is: the
    get-version request, sent as the first exchange; then, with the version
    decoded from the response to that very request, the conversation of
    the feature, sent as later exchanges. *)
Definition BeginsWithFreshVersion {T : Type} (operation : Device -> Outcome T)
  (feature : Version -> Interaction T) : Prop :=
  forall d : Device,
    operation d
    = match wrapRetryStillInCall ERR_STILL_IN_CALL (_send transport) GET_VERSION d with
      | (inl e, d1) => (inl e, d1)
      | (inr response, d1) =>
          match decodeVersion response with
          | inl e => (inl e, d1)
          | inr version =>
              interactLoop ERR_STILL_IN_CALL (_send transport) false (feature version) d1
          end
      end.

Definition _getVersion : Interaction Version :=
  delegate getVersion (fun v => Done v).

Definition Ada_getVersion (d : Device) : Outcome (Version * DeviceCompatibility) :=
  match run _getVersion d with
  | (inr version, d') => (inr (version, getCompatibility version), d')
  | (inl e, d') => (inl e, d')
  end.

Definition _getSerial : Interaction Serial :=
  delegate getVersion (fun version => getSerial version).

Definition Ada_getSerial : Device -> Outcome Serial :=
  run _getSerial.

Definition _runTests : Interaction unit :=
  delegate getVersion (fun version => runTests version).

Definition Ada_runTests : Device -> Outcome unit :=
  run _runTests.

Definition _getExtendedPublicKeys (paths : list ValidBIP32Path)
  : Interaction (list ExtendedPublicKey) :=
  delegate getVersion (fun version => getExtendedPublicKeys version paths).

(** [validate(isArray(paths), ...)] cannot fail on a list. *)
Definition Ada_getExtendedPublicKeys (paths : list BIP32Path)
  : Device -> Outcome (list ExtendedPublicKey) :=
  validated (Js.mapM (fun path => parseBIP32Path path INVALID_PATH) paths)
    (fun parsed => run (_getExtendedPublicKeys parsed)).

(** [(await this.getExtendedPublicKeys({paths: [path]}))[0]]; indexing an
    empty array gives [undefined], here [None]. *)
Definition Ada_getExtendedPublicKey (path : BIP32Path) (d : Device)
  : Outcome (option ExtendedPublicKey) :=
  match Ada_getExtendedPublicKeys [path] d with
  | (inr keys, d') => (inr (nth_error keys 0), d')
  | (inl e, d') => (inl e, d')
  end.

Definition _deriveAddress (addressParams : ParsedAddressParams) : Interaction DerivedAddress :=
  delegate getVersion (fun version => deriveAddress version addressParams).

Definition Ada_deriveAddress (network : Network) (address : DeviceOwnedAddress)
  : Device -> Outcome DerivedAddress :=
  validated (parseAddress network address)
    (fun parsedParams => run (_deriveAddress parsedParams)).

Definition _showAddress (addressParams : ParsedAddressParams) : Interaction unit :=
  delegate getVersion (fun version => showAddress version addressParams).

Definition Ada_showAddress (network : Network) (address : DeviceOwnedAddress)
  : Device -> Outcome unit :=
  validated (parseAddress network address)
    (fun parsedParams => run (_showAddress parsedParams)).

Definition _signTx (request : ParsedSigningRequest) : Interaction SignedTransactionData :=
  delegate getVersion (fun version => signTransaction version request).

Definition Ada_signTransaction (request : SignTransactionRequest)
  : Device -> Outcome SignedTransactionData :=
  validated (parseSignTransactionRequest request)
    (fun parsedRequest => run (_signTx parsedRequest)).

Definition _signOperationalCertificate (request : ParsedOperationalCertificate)
  : Interaction OperationalCertificateSignature :=
  delegate getVersion (fun version => signOperationalCertificate version request).

Definition Ada_signOperationalCertificate (request : OperationalCertificate)
  : Device -> Outcome OperationalCertificateSignature :=
  validated (parseOperationalCertificate request)
    (fun parsed => run (_signOperationalCertificate parsed)).

Definition _signCIP36Vote (request : ParsedCVote) : Interaction SignedCIP36VoteData :=
  delegate getVersion (fun version => signCVote version request).

Definition Ada_signCIP36Vote (request : CIP36Vote) : Device -> Outcome SignedCIP36VoteData :=
  validated (parseCVote request) (fun parsedCVote => run (_signCIP36Vote parsedCVote)).

Definition _deriveNativeScriptHash (script : ParsedNativeScript)
  (displayFormat : NativeScriptHashDisplayFormat) : Interaction NativeScriptHash :=
  delegate getVersion (fun version => deriveNativeScriptHash version script displayFormat).

Definition Ada_deriveNativeScriptHash (script : NativeScript)
  (displayFormat : NativeScriptHashDisplayFormat) : Device -> Outcome NativeScriptHash :=
  validated (parseNativeScript script)
    (fun parsedScript =>
       validated (parseNativeScriptHashDisplayFormat displayFormat)
         (fun parsedDisplayFormat =>
            run (_deriveNativeScriptHash parsedScript parsedDisplayFormat))).

End Operations.

End AdaApi.

(** ** Sample requests *)

Module Samples.

Import Utils Parsing.
Local Open Scope string_scope.

(** The constants of [utils] at which the sample requests are run: a
    lovelace supply of 45 * 10^15 and a margin denominator bound of
    10^18. *)
Definition lovelaceSupply : string := "45000000000000000".
Definition marginBound : string := "1000000000000000000".

Definition hash28 : string := "0d13015cdbcdbd0889ce276192a1601f2d4d20b8392d4ef4f9a754e2".
Definition hash32 : string :=
  "07821cd344d7fd7e3ae5f2ed863218cb979ff1d59e50c4276bdc479b0d084450".
Definition rewardAccount : string :=
  "e1" ++ "0d13015cdbcdbd0889ce276192a1601f2d4d20b8392d4ef4f9a754e2".

Definition stakingKeyPath : BIP32Path :=
  [2147485500; 2147485463; 2147483648; 2; 0]%Z.

Definition samplePool : PoolParams :=
  mkPoolParams hash28 hash32 "500000000" "340000000" (mkMargin "3" "100") rewardAccount
    [mkPoolOwnerParams (Some stakingKeyPath) None; mkPoolOwnerParams None (Some hash28)]
    [mkRelayParams 0 (mkRelayFields (Some 3000%Z) (Some "54.228.75.154")
                        (Some "24ff:7801:33a2:e383:a5c4:340a:07c2:76e5") None);
     mkRelayParams 1 (mkRelayFields (Some 3000%Z) None None (Some "aaaa.bbbb.com"));
     mkRelayParams 2 (mkRelayFields None None None (Some "aaaa.bbbc.com"))]
    (Some (mkPoolMetadataParams "https://www.vacuumlabs.com/sampleUrl.json" hash32)).

Definition poolRegistration : Certificate :=
  mkCertificate CertificateType.STAKE_POOL_REGISTRATION None None (Some samplePool).

Definition stakeRegistration : Certificate :=
  mkCertificate CertificateType.STAKE_REGISTRATION (Some stakingKeyPath) None None.

(** A stake registration whose [path] is missing. *)
Definition stakeRegistrationNoPath : Certificate :=
  mkCertificate CertificateType.STAKE_REGISTRATION None None None.

(** A stake delegation whose pool key hash is two characters long. *)
Definition stakeDelegationShortHash : Certificate :=
  mkCertificate CertificateType.STAKE_DELEGATION (Some stakingKeyPath) (Some "0d") None.

Definition mainnet : Network := mkNetwork 1 764824073.

Definition inputNoPath : InputTypeUTxO := mkInput hash32 0 None.
Definition inputWithPath : InputTypeUTxO :=
  mkInput hash32 0 (Some [2147485500; 2147485463; 2147483648; 0; 0]%Z).

Definition outputNoPath : TxOutput :=
  mkTxOutput "1000000" None (Some ("61" ++ hash28)) None None None None None.

Definition withdrawal : Withdrawal := mkWithdrawal (Some stakingKeyPath) "111".

(** An output with a spending path and a token bundle of one asset group
    that holds one token. *)
Definition outputWithTokens : TxOutput :=
  mkTxOutput "2000000" (Some [mkAssetGroup hash28 [mkToken "7564247542686911" "47"]])
    None (Some 0%Z) (Some [2147485500; 2147485463; 2147483648; 0; 0]%Z)
    (Some stakingKeyPath) None None.

(** A stand-in for [serializeOutputBasicParams] that accepts an output
    whose amount is a valid lovelace amount. *)
Definition acceptValidAmount (output : TxOutput) (network : Network) : Checked unit :=
  checkIsValidAdaAmount lovelaceSupply (amountStr output) None.

(** A legacy device that acknowledges every frame with the bare status
    word [0x9000]. *)
Definition acknowledge : Legacy.Transport unit unit :=
  fun _ d => (inr [144; 0]%Z, d).

(** A payload of exactly [MAX_APDU_SIZE - OFFSET_CDATA] bytes. *)
Definition payload59 : Buffer := repeat 7%Z 59.

(** The status word of "still in call" and a status word of another
    kind. *)
Definition STILL_IN_CALL : Z := 28164.
Definition REJECTED_BY_POLICY : Z := 28161.

Definition request (ins : Z) : AdaApi.SendParams := AdaApi.mkSendParams ins 0 0 [] None.

(** A conversation of two exchanges that returns both responses. *)
Definition twoExchanges : AdaApi.Interaction (Buffer * Buffer) :=
  AdaApi.Yield (request 0)
    (fun r0 => AdaApi.Yield (request 1) (fun r1 => AdaApi.Done (r0, r1))).

(** A device that counts the calls it has seen and answers call number
    [failing] with the status [status], every other call with its own
    number. *)
Definition failingAt (failing : nat) (status : Z) : AdaApi.SendFn nat :=
  fun apdu calls =>
    if Nat.eqb calls failing then (inl (AdaApi.TransportStatusError status), S calls)
    else (inr [Z.of_nat calls], S calls).

(** A device whose application is replaced between two calls: it
    answers call number [n] with the version [n.0.0]. *)
Definition upgradedBetweenCalls : AdaApi.TransportSend nat :=
  fun frame calls => (inr [Z.of_nat calls; 0; 0; 0; 144; 0]%Z, S calls).

Definition GET_VERSION : AdaApi.SendParams := AdaApi.mkSendParams 0 0 0 [] (Some 4).

Definition decodeVersion (response : Buffer) : Js.Result AdaApi.JsError AdaApi.Version :=
  match response with
  | [major; minor; patch; flags] => inr (AdaApi.mkVersion major minor patch flags)
  | _ => inl (AdaApi.AssertionError "version")
  end.

(** A transport whose every response is the payload [1; 2; 3] followed by
    the status word [0x9000]. *)
Definition threeBytes : AdaApi.TransportSend unit :=
  fun frame d => (inr [1; 2; 3; 144; 0]%Z, d).

(** A transport that reports the status [REJECTED_BY_POLICY] on every
    call. *)
Definition rejecting : AdaApi.TransportSend unit :=
  fun frame d => (inl (AdaApi.TransportStatusError REJECTED_BY_POLICY), d).

(** A channel that is closed: every call fails with an error that has no
    status code. *)
Definition unplugged : AdaApi.TransportSend unit :=
  fun frame d => (inl (AdaApi.TransportFailure "disconnected"), d).

(** A legacy device that answers every frame with a key of two bytes
    followed by a chain code of 32 bytes. *)
Definition rootKey : Buffer := (2 :: 171 :: 205 :: repeat 9 32)%Z.

Definition answersRootKey : Legacy.Transport unit unit :=
  fun _ d => (inr rootKey, d).

End Samples.

(** ** Reference definitions, in the words of the specification *)

Module Reference.

Import Utils.

(** An IPv6 address after removing colons. *)
Definition withoutColons (ipv6 : string) : string :=
  string_of_list_ascii (filter (fun c => negb (Ascii.eqb c ":"%char)) (Js.chars ipv6)).

(** Exactly 32 hex characters. *)
Definition is32HexChars (s : string) : bool :=
  (String.length s =? 32) && forallb isHexChar (Js.chars s).

(** The first element of the array an operation returned, when it
    returned one; [None] is [undefined]. *)
Definition firstElementOf {D T : Type} (outcome : Js.Result AdaApi.JsError (list T) * D)
  : Js.Result AdaApi.JsError (option T) * D :=
  match outcome with
  | (inr (x :: _), d) => (inr (Some x), d)
  | (inr [], d) => (inr None, d)
  | (inl e, d) => (inl e, d)
  end.

(** A check whose result is not used. *)
Definition asCheck {A : Type} (c : Checked A) : Checked unit :=
  match c with
  | inl e => inl e
  | inr _ => inr tt
  end.

(** The error of the first check of a list that fails, and [otherwise]
    when they all pass. *)
Fixpoint firstFailure (checks : list (Checked unit)) (otherwise : Thrown) : Thrown :=
  match checks with
  | [] => otherwise
  | inl e :: _ => e
  | inr _ :: rest => firstFailure rest otherwise
  end.

(** The bounds of a token bundle: at most 1000 asset groups, each with a
    28-byte policy id and at most 1000 tokens, each with a hex asset name
    of at most 32 bytes and an unsigned 64-bit amount. *)
Definition bundleWithinBounds (bundle : list Parsing.AssetGroup) : Prop :=
  length bundle <= 1000
  /\ Forall (fun assetGroup =>
               Precondition.isHexStringOfLength (Parsing.policyIdHex assetGroup) 28 = true
               /\ length (Parsing.tokens assetGroup) <= 1000
               /\ Forall (fun token =>
                            Precondition.isHexString (Parsing.assetNameHex token) = true
                            /\ String.length (Parsing.assetNameHex token) <= 64
                            /\ Precondition.isValidUintStr (Parsing.tokenAmountStr token)
                                 UINT64_MAX_STR = true)
                    (Parsing.tokens assetGroup))
       bundle.

End Reference.

(** ** Proof automation *)

(** Splits a successful sequence of checks into its steps. *)
Ltac bind_ok H :=
  repeat match type of H with
         | Js.bind ?c _ = inr _ =>
             let a := fresh "a" in
             let Hc := fresh "Hc" in
             destruct c as [? | a] eqn:Hc; [discriminate H |]; simpl in H
         end.

(** Splits off the first step of a successful sequence, naming its
    result and the equation that gives it. *)
Ltac bind_step H x Hx :=
  match type of H with
  | Js.bind ?c _ = inr _ =>
      destruct c as [? | x] eqn:Hx; [discriminate H |]; simpl in H
  end.

(** * Properties *)

(** ** Maps with a callback that can throw *)

Section ResultFacts.

Context {E A B : Type}.

Lemma mapM_inr (f : A -> Js.Result E B) (l : list A) (l' : list B) :
  Js.mapM f l = inr l' -> Forall2 (fun x y => f x = inr y) l l'.
Proof.
  revert l'; induction l as [| x rest IH]; simpl; intros l' H.
  - injection H as <-. constructor.
  - destruct (f x) as [e | y] eqn:Hx; [discriminate |].
    destruct (Js.mapM f rest) as [e | ys]; [discriminate |].
    injection H as <-. constructor; auto.
Qed.

Lemma mapM_length (f : A -> Js.Result E B) (l : list A) (l' : list B) :
  Js.mapM f l = inr l' -> length l' = length l.
Proof.
  intros H. apply mapM_inr in H. symmetry. eapply Forall2_length; eassumption.
Qed.

End ResultFacts.

(** ** [parseMargin] *)

Section MarginFacts.

Import Utils Parsing.

Variable bound : string.

(** The three checks of [parseMargin], in the order the source runs them. *)
Lemma parseMargin_unfold (n d : string) :
  parseMargin bound (mkMargin n d) =
    if negb (Precondition.isValidUintStr n UINT64_MAX_STR)
    then inl (Error (Some CERTIFICATE_POOL_INVALID_MARGIN))
    else if negb (Precondition.isValidUintStr d bound)
    then inl (Error (Some CERTIFICATE_POOL_INVALID_MARGIN_DENOMINATOR))
    else if negb (Precondition.isValidUintStr n d)
    then inl (Error (Some CERTIFICATE_POOL_INVALID_MARGIN))
    else inr (mkParsedMargin n d).
Proof.
  unfold parseMargin, checkIsValidPoolMarginDenominator, Precondition.checkIsUint64Str,
    Precondition.checkIsValidUintStr, Precondition.check.
  simpl.
  destruct (Precondition.isValidUintStr n UINT64_MAX_STR); simpl; [| reflexivity].
  destruct (Precondition.isValidUintStr d bound); simpl; [| reflexivity].
  destruct (Precondition.isValidUintStr n d); reflexivity.
Qed.

Lemma isValidUintStr_spec (s m : string) :
  Precondition.isValidUintStr s m = true <->
    isDecimal s = true /\ (uintValue s <= uintValue m)%Z.
Proof.
  unfold Precondition.isValidUintStr.
  rewrite andb_true_iff, Z.leb_le. reflexivity.
Qed.

Lemma isValidUintStr_false (s m : string) :
  isDecimal s = true ->
  (Precondition.isValidUintStr s m = false <-> (uintValue m < uintValue s)%Z).
Proof.
  intros Hs. unfold Precondition.isValidUintStr. rewrite Hs. simpl.
  rewrite Z.leb_gt. reflexivity.
Qed.

End MarginFacts.

(** C6 (as amended).  For decimal strings [n] and [d], under a denominator
    bound that is itself an unsigned 64-bit string: when [n <= d <= bound]
    [parseMargin] returns both strings unchanged; when [n > d] it throws,
    with the invalid-margin reason when the denominator is within its
    bound or the numerator is no unsigned 64-bit value, and with the
    invalid-margin-denominator reason when the numerator is an unsigned
    64-bit value and the denominator exceeds its bound. *)
Theorem parseMargin_ordered_pairs (bound n d : string) :
  Utils.isDecimal n = true ->
  Utils.isDecimal d = true ->
  Utils.Precondition.isValidUintStr bound Utils.UINT64_MAX_STR = true ->
  ((Utils.uintValue n <= Utils.uintValue d)%Z ->
   (Utils.uintValue d <= Utils.uintValue bound)%Z ->
   Parsing.parseMargin bound (Parsing.mkMargin n d) = inr (Parsing.mkParsedMargin n d))
  /\ ((Utils.uintValue d < Utils.uintValue n)%Z ->
      (Utils.uintValue d <= Utils.uintValue bound)%Z ->
      Parsing.parseMargin bound (Parsing.mkMargin n d)
      = inl (Error (Some CERTIFICATE_POOL_INVALID_MARGIN)))
  /\ ((Utils.uintValue d < Utils.uintValue n)%Z ->
      (Utils.uintValue Utils.UINT64_MAX_STR < Utils.uintValue n)%Z ->
      Parsing.parseMargin bound (Parsing.mkMargin n d)
      = inl (Error (Some CERTIFICATE_POOL_INVALID_MARGIN)))
  /\ ((Utils.uintValue d < Utils.uintValue n)%Z ->
      (Utils.uintValue n <= Utils.uintValue Utils.UINT64_MAX_STR)%Z ->
      (Utils.uintValue bound < Utils.uintValue d)%Z ->
      Parsing.parseMargin bound (Parsing.mkMargin n d)
      = inl (Error (Some CERTIFICATE_POOL_INVALID_MARGIN_DENOMINATOR))).
Proof.
  intros Hn Hd Hbound.
  apply isValidUintStr_spec in Hbound as [_ Hbound].
  rewrite parseMargin_unfold.
  repeat split.
  - intros Hnd Hdb.
    assert (H1 : Utils.Precondition.isValidUintStr n Utils.UINT64_MAX_STR = true)
      by (apply isValidUintStr_spec; split; [assumption | lia]).
    assert (H2 : Utils.Precondition.isValidUintStr d bound = true)
      by (apply isValidUintStr_spec; split; assumption).
    assert (H3 : Utils.Precondition.isValidUintStr n d = true)
      by (apply isValidUintStr_spec; split; assumption).
    rewrite H1, H2, H3. reflexivity.
  - intros Hnd Hdb.
    assert (H2 : Utils.Precondition.isValidUintStr d bound = true)
      by (apply isValidUintStr_spec; split; assumption).
    assert (H3 : Utils.Precondition.isValidUintStr n d = false)
      by (apply isValidUintStr_false; assumption).
    rewrite H2, H3.
    destruct (Utils.Precondition.isValidUintStr n Utils.UINT64_MAX_STR); reflexivity.
  - intros Hnd Hbig.
    assert (H1 : Utils.Precondition.isValidUintStr n Utils.UINT64_MAX_STR = false)
      by (apply isValidUintStr_false; assumption).
    rewrite H1. reflexivity.
  - intros Hnd Hn64 Hdb.
    assert (H1 : Utils.Precondition.isValidUintStr n Utils.UINT64_MAX_STR = true)
      by (apply isValidUintStr_spec; split; assumption).
    assert (H2 : Utils.Precondition.isValidUintStr d bound = false)
      by (apply isValidUintStr_false; assumption).
    rewrite H1, H2. reflexivity.
Qed.

(** The theorem at the bound 10^18 and the margin 3/100. *)
Lemma parseMargin_ordered_pairs_witness :
  Parsing.parseMargin Samples.marginBound (Parsing.mkMargin "3" "100")
  = inr (Parsing.mkParsedMargin "3" "100").
Proof.
  apply (proj1 (parseMargin_ordered_pairs Samples.marginBound "3" "100"
                  eq_refl eq_refl eq_refl)).
  - apply Z.leb_le. reflexivity.
  - apply Z.leb_le. reflexivity.
Defined.

(** C6, the claim as worded fails: the numerator 2^64 - 1 exceeds the
    denominator 2^64 - 2, yet the error is the one of the denominator,
    which is checked against its own bound (here 10^18; any bound below
    2^64 - 2 gives the same) before the two are compared. *)
Lemma parseMargin_reports_denominator_first :
  (Utils.uintValue "18446744073709551614" < Utils.uintValue "18446744073709551615")%Z
  /\ Parsing.parseMargin Samples.marginBound
       (Parsing.mkMargin "18446744073709551615" "18446744073709551614")
     = inl (Error (Some CERTIFICATE_POOL_INVALID_MARGIN_DENOMINATOR))
  /\ (forall bound : string,
         (Utils.uintValue bound < Utils.uintValue "18446744073709551614")%Z ->
         Parsing.parseMargin bound
           (Parsing.mkMargin "18446744073709551615" "18446744073709551614")
         = inl (Error (Some CERTIFICATE_POOL_INVALID_MARGIN_DENOMINATOR))).
Proof.
  split; [reflexivity |].
  split; [vm_compute; reflexivity |].
  intros bound Hbound. rewrite parseMargin_unfold.
  assert (H2 : Utils.Precondition.isValidUintStr "18446744073709551614" bound = false)
    by (apply isValidUintStr_false; [reflexivity | exact Hbound]).
  rewrite H2. reflexivity.
Qed.

(** ** [parseIPv6] *)

Lemma split_nonempty (sep : ascii) (s : string) :
  exists w ws, Js.split sep s = w :: ws.
Proof.
  induction s as [| c rest IH]; simpl.
  - eauto.
  - destruct (Ascii.eqb c sep); [eauto |].
    destruct IH as (w & ws & ->). eauto.
Qed.

Lemma join_cons_char (c : ascii) (w : string) (ws : list string) :
  Js.join (String c w :: ws) = String c (Js.join (w :: ws)).
Proof.
  unfold Js.join. destruct ws as [| w' ws']; reflexivity.
Qed.

Lemma join_cons_empty (w : string) (ws : list string) :
  Js.join (EmptyString :: w :: ws) = Js.join (w :: ws).
Proof.
  reflexivity.
Qed.

(** [ipv6.split(":").join("")] deletes every colon and nothing else. *)
Lemma join_split_colon (s : string) :
  Js.join (Js.split ":"%char s) = Reference.withoutColons s.
Proof.
  unfold Reference.withoutColons, Js.chars.
  induction s as [| c rest IH]; [reflexivity |].
  simpl. destruct (split_nonempty ":"%char rest) as (w & ws & Hsplit).
  rewrite Hsplit in *.
  destruct (Ascii.eqb c ":"%char); simpl.
  - rewrite join_cons_empty. exact IH.
  - rewrite join_cons_char, IH. reflexivity.
Qed.

Lemma even_32 (n : nat) : n = 32 -> Nat.even n = true.
Proof. intros ->. reflexivity. Qed.

Lemma isHexStringOfLength_16 (s : string) :
  Utils.Precondition.isHexStringOfLength s 16 = Reference.is32HexChars s.
Proof.
  unfold Utils.Precondition.isHexStringOfLength, Utils.Precondition.isHexString,
    Reference.is32HexChars.
  change (16 * 2) with 32.
  destruct (Nat.eqb_spec (String.length s) 32) as [Hlen | Hlen].
  - rewrite (even_32 Hlen). simpl. apply andb_true_r.
  - rewrite andb_false_r. reflexivity.
Qed.

(** C7.  [parseIPv6] accepts a string exactly when, after deleting all
    colons, exactly 32 hexadecimal characters remain; it then returns the
    16 bytes they encode, and otherwise throws the error it was given (the
    invalid-IPv6 reason in [parsePoolRelayParams]).  In particular a
    string that leaves fewer than 32 characters, as every compressed form
    does, is rejected. *)
Theorem parseIPv6_accepts_iff_32_hex (ipv6 : string) (err : TxErrors) :
  Parsing.parseIPv6 ipv6 err
  = (if Reference.is32HexChars (Reference.withoutColons ipv6)
     then inr (Utils.hex_to_buf (Reference.withoutColons ipv6))
     else inl (Error (Some err)))
  /\ (Js.isOk (Parsing.parseIPv6 ipv6 err) = true <->
      String.length (Reference.withoutColons ipv6) = 32
      /\ forallb Utils.isHexChar (Js.chars (Reference.withoutColons ipv6)) = true)
  /\ (String.length (Reference.withoutColons ipv6) < 32 ->
      Parsing.parseIPv6 ipv6 err = inl (Error (Some err))).
Proof.
  assert (Hrun : Parsing.parseIPv6 ipv6 err
                 = if Reference.is32HexChars (Reference.withoutColons ipv6)
                   then inr (Utils.hex_to_buf (Reference.withoutColons ipv6))
                   else inl (Error (Some err))).
  { unfold Parsing.parseIPv6, Utils.Precondition.checkIsHexStringOfLength,
      Utils.Precondition.checkIsString, Utils.Precondition.check.
    simpl. rewrite join_split_colon, isHexStringOfLength_16.
    destruct (Reference.is32HexChars (Reference.withoutColons ipv6)); reflexivity. }
  split; [exact Hrun |].
  rewrite Hrun. unfold Reference.is32HexChars.
  split.
  - rewrite <- Nat.eqb_eq, <- andb_true_iff.
    destruct (_ && _); simpl; split; congruence.
  - intros Hshort.
    destruct (Nat.eqb_spec (String.length (Reference.withoutColons ipv6)) 32) as [Heq | Hne].
    + lia.
    + reflexivity.
Qed.

(** The compressed loopback address [::1] is rejected, and so is the
    compressed form of an address whose full form is accepted. *)
Example parseIPv6_compressed_rejected :
  Parsing.parseIPv6 "::1" CERTIFICATE_POOL_RELAY_INVALID_IPV6
  = inl (Error (Some CERTIFICATE_POOL_RELAY_INVALID_IPV6))
  /\ Parsing.parseIPv6 "2001:db8::ff00:42:8329" CERTIFICATE_POOL_RELAY_INVALID_IPV6
     = inl (Error (Some CERTIFICATE_POOL_RELAY_INVALID_IPV6))
  /\ Js.isOk (Parsing.parseIPv6 "2001:0db8:0000:0000:0000:ff00:0042:8329"
                CERTIFICATE_POOL_RELAY_INVALID_IPV6) = true.
Proof.
  repeat split; vm_compute; reflexivity.
Qed.

(** ** [parseCertificates] *)

Section CertificateFacts.

Import Utils Parsing.

Variable lovelace bound : string.

(** A parsed certificate keeps the [type] of the raw one. *)
Lemma parseCertificate_type (cert : Certificate) (parsed : ParsedCertificate) :
  parseCertificate lovelace bound cert = inr parsed ->
  parsedType parsed = certType cert.
Proof.
  unfold parseCertificate. intros H.
  destruct (_ || _)%bool.
  - bind_ok H. injection H as <-. reflexivity.
  - destruct (certType cert =? CertificateType.STAKE_DELEGATION)%Z.
    + bind_ok H. injection H as <-. reflexivity.
    + destruct (certType cert =? CertificateType.STAKE_POOL_REGISTRATION)%Z;
        [| discriminate].
      destruct (poolRegistrationParams cert); [| discriminate].
      bind_ok H. injection H as <-. reflexivity.
Qed.

Lemma parsed_pool_registrations (certificates : list Certificate)
  (parsed : list ParsedCertificate) :
  Forall2 (fun c p => parseCertificate lovelace bound c = inr p) certificates parsed ->
  forallb isNotPoolRegistration parsed = negb (existsb isPoolRegistration certificates).
Proof.
  induction 1 as [| c p cs ps Hc _ IH]; [reflexivity |].
  simpl. rewrite IH, negb_orb.
  unfold isNotPoolRegistration at 1, isPoolRegistration at 1.
  rewrite (parseCertificate_type _ Hc). reflexivity.
Qed.

(** What [parseCertificates] does once every certificate has parsed. *)
Lemma parseCertificates_unfold (certificates : list Certificate)
  (parsed : list ParsedCertificate) :
  Js.mapM (parseCertificate lovelace bound) certificates = inr parsed ->
  parseCertificates lovelace bound certificates =
    if negb (existsb isPoolRegistration certificates) || (length certificates =? 1)
    then inr parsed
    else inl (Error (Some CERTIFICATES_COMBINATION_FORBIDDEN)).
Proof.
  intros Hmap. unfold parseCertificates. rewrite Hmap. simpl.
  rewrite (parsed_pool_registrations (mapM_inr _ _ Hmap)), (mapM_length _ _ Hmap).
  unfold Precondition.check.
  destruct (_ || _)%bool; reflexivity.
Qed.

(** The first certificate that does not parse decides the error. *)
Lemma parseCertificates_invalid (certificates : list Certificate) (e : Thrown) :
  Js.mapM (parseCertificate lovelace bound) certificates = inl e ->
  parseCertificates lovelace bound certificates = inl e.
Proof.
  intros Hmap. unfold parseCertificates. rewrite Hmap. reflexivity.
Qed.

End CertificateFacts.

(** C1 (as amended).  When every certificate of the list is valid on its
    own: a list that holds a stake-pool-registration certificate together
    with at least one other certificate is refused with
    [CERTIFICATES_COMBINATION_FORBIDDEN], and a list of exactly one
    certificate is accepted and returned parsed. *)
Theorem parseCertificates_pool_registration_alone
  (lovelace bound : string)
  (certificates : list Parsing.Certificate) (parsed : list Parsing.ParsedCertificate) :
  Js.mapM (Parsing.parseCertificate lovelace bound) certificates = inr parsed ->
  (existsb Parsing.isPoolRegistration certificates = true ->
   1 < length certificates ->
   Parsing.parseCertificates lovelace bound certificates
   = inl (Error (Some CERTIFICATES_COMBINATION_FORBIDDEN)))
  /\ (length certificates = 1 ->
      Parsing.parseCertificates lovelace bound certificates = inr parsed).
Proof.
  intros Hmap. rewrite (@parseCertificates_unfold _ _ _ _ Hmap). split.
  - intros Hpool Hlen. rewrite Hpool. simpl.
    destruct (Nat.eqb_spec (length certificates) 1) as [Heq | Hne];
      [lia | reflexivity].
  - intros Hlen. rewrite Hlen, orb_true_r. reflexivity.
Qed.

(** A pool registration next to a stake registration, both valid, is
    refused; the pool registration alone is accepted. *)
Lemma parseCertificates_pool_registration_alone_witness :
  Js.isOk (Js.mapM (Parsing.parseCertificate Samples.lovelaceSupply Samples.marginBound)
             [Samples.poolRegistration; Samples.stakeRegistration]) = true
  /\ Parsing.parseCertificates Samples.lovelaceSupply Samples.marginBound
       [Samples.poolRegistration; Samples.stakeRegistration]
     = inl (Error (Some CERTIFICATES_COMBINATION_FORBIDDEN))
  /\ Js.isOk (Parsing.parseCertificates Samples.lovelaceSupply Samples.marginBound
                [Samples.poolRegistration]) = true.
Proof.
  split; [vm_compute; reflexivity |].
  destruct (Js.mapM (Parsing.parseCertificate Samples.lovelaceSupply Samples.marginBound)
              [Samples.poolRegistration; Samples.stakeRegistration]) as [e | two] eqn:Htwo;
    [vm_compute in Htwo; discriminate |].
  destruct (Js.mapM (Parsing.parseCertificate Samples.lovelaceSupply Samples.marginBound)
              [Samples.poolRegistration]) as [e | one] eqn:Hone;
    [vm_compute in Hone; discriminate |].
  split.
  - apply (proj1 (@parseCertificates_pool_registration_alone _ _ _ _ Htwo)).
    + reflexivity.
    + apply Nat.ltb_lt. reflexivity.
  - rewrite (proj2 (@parseCertificates_pool_registration_alone _ _ _ _ Hone) eq_refl).
    reflexivity.
Defined.

(** C1, the claim as worded fails: this list holds a pool registration
    together with another certificate, and the error is the one of the
    certificate that is invalid on its own, raised while the certificates
    are parsed one by one, before the combination is looked at. *)
Lemma parseCertificates_reports_invalid_certificate_first :
  existsb Parsing.isPoolRegistration
    [Samples.stakeRegistrationNoPath; Samples.poolRegistration] = true
  /\ length [Samples.stakeRegistrationNoPath; Samples.poolRegistration] = 2
  /\ Parsing.parseCertificates Samples.lovelaceSupply Samples.marginBound
       [Samples.stakeRegistrationNoPath; Samples.poolRegistration]
     = inl (Error (Some CERTIFICATE_MISSING_PATH))
  /\ (forall lovelace bound : string,
         Parsing.parseCertificates lovelace bound
           [Samples.stakeRegistrationNoPath; Samples.poolRegistration]
         = inl (Error (Some CERTIFICATE_MISSING_PATH)))
  /\ (forall lovelace bound : string,
         Parsing.parseCertificates lovelace bound
           [Samples.stakeDelegationShortHash; Samples.poolRegistration]
         = inl (Error (Some CERTIFICATE_MISSING_POOL_KEY_HASH))).
Proof.
  split; [reflexivity |].
  split; [reflexivity |].
  split; [vm_compute; reflexivity |].
  split; intros lovelace bound; reflexivity.
Qed.

(** ** [validateTransaction] *)

(** C5 (as amended).  A transaction whose certificate list holds a
    stake-pool registration and whose withdrawals list is not empty never
    passes [validateTransaction]; the error is [WITHDRAWALS_FORBIDDEN]
    whenever the checks that run before the withdrawals (inputs, outputs,
    fee, ttl and certificates) pass, and otherwise the error of the first
    of these five checks, in this order, that fails.
    [validateTransaction] is a function of the request alone: it is handed
    no transport, so it fails before any exchange with the device. *)
Theorem validateTransaction_withdrawals_forbidden
  (lovelace bound : string)
  (serializeOutputBasicParams : Parsing.TxOutput -> Parsing.Network -> Checked unit)
  (network : Parsing.Network)
  (inputs : list Parsing.InputTypeUTxO)
  (outputs : list Parsing.TxOutput)
  (feeStr : string) (ttlStr : option string)
  (certificates : list Parsing.Certificate)
  (withdrawals : list Parsing.Withdrawal)
  (metadataHashHex validityIntervalStartStr : option string) :
  existsb Parsing.isPoolRegistration certificates = true ->
  0 < length withdrawals ->
  Js.isOk (Parsing.validateTransaction lovelace bound serializeOutputBasicParams network
             inputs outputs feeStr ttlStr certificates withdrawals
             metadataHashHex validityIntervalStartStr) = false
  /\ (Js.forEachM (Parsing.validateInput true) inputs = inr tt ->
      Js.forEachM (Parsing.validateOutput serializeOutputBasicParams true network) outputs
      = inr tt ->
      Parsing.checkIsValidAdaAmount lovelace feeStr (Some FEE_INVALID) = inr tt ->
      match ttlStr with
      | Some ttl => Utils.Precondition.checkIsPositiveUint64Str ttl (Some TTL_INVALID)
      | None => inr tt
      end = inr tt ->
      Js.isOk (Parsing.parseCertificates lovelace bound certificates) = true ->
      Parsing.validateTransaction lovelace bound serializeOutputBasicParams network
        inputs outputs feeStr ttlStr certificates withdrawals
        metadataHashHex validityIntervalStartStr
      = inl (Error (Some WITHDRAWALS_FORBIDDEN)))
  /\ Parsing.validateTransaction lovelace bound serializeOutputBasicParams network
       inputs outputs feeStr ttlStr certificates withdrawals
       metadataHashHex validityIntervalStartStr
     = inl (Reference.firstFailure
              [Js.forEachM (Parsing.validateInput true) inputs;
               Js.forEachM (Parsing.validateOutput serializeOutputBasicParams true network)
                 outputs;
               Parsing.checkIsValidAdaAmount lovelace feeStr (Some FEE_INVALID);
               match ttlStr with
               | Some ttl =>
                   Utils.Precondition.checkIsPositiveUint64Str ttl (Some TTL_INVALID)
               | None => inr tt
               end;
               Reference.asCheck (Parsing.parseCertificates lovelace bound certificates)]
              (Error (Some WITHDRAWALS_FORBIDDEN))).
Proof.
  intros Hpool Hwithdrawals.
  apply Nat.ltb_lt in Hwithdrawals.
  unfold Parsing.validateTransaction.
  rewrite Hpool, Hwithdrawals. simpl.
  split; [| split].
  - destruct (Js.forEachM (Parsing.validateInput true) inputs); [reflexivity |].
    destruct (Js.forEachM _ outputs); [reflexivity |].
    destruct (Parsing.checkIsValidAdaAmount lovelace feeStr _); [reflexivity |].
    simpl. destruct (match ttlStr with Some _ => _ | None => _ end); [reflexivity |].
    simpl. destruct (Parsing.parseCertificates lovelace bound certificates); reflexivity.
  - intros Hin Hout Hfee Httl Hcerts.
    rewrite Hin, Hout, Hfee. simpl.
    destruct ttlStr as [ttl |]; [rewrite Httl |]; simpl;
      destruct (Parsing.parseCertificates lovelace bound certificates);
      (discriminate || reflexivity).
  - destruct (Js.forEachM (Parsing.validateInput true) inputs) as [e | []];
      [reflexivity |].
    destruct (Js.forEachM _ outputs) as [e | []]; [reflexivity |].
    destruct (Parsing.checkIsValidAdaAmount lovelace feeStr _) as [e | []];
      [reflexivity |].
    simpl.
    destruct (match ttlStr with Some _ => _ | None => _ end) as [e | []];
      [reflexivity |].
    simpl. destruct (Parsing.parseCertificates lovelace bound certificates); reflexivity.
Qed.

(** The scenario of the spec: one pool registration, one withdrawal, and
    inputs, outputs, fee and ttl that are in order. *)
Lemma validateTransaction_withdrawals_forbidden_witness :
  Parsing.validateTransaction Samples.lovelaceSupply Samples.marginBound
    Samples.acceptValidAmount Samples.mainnet
    [Samples.inputNoPath] [Samples.outputNoPath] "42"%string (Some "10"%string)
    [Samples.poolRegistration] [Samples.withdrawal] None None
  = inl (Error (Some WITHDRAWALS_FORBIDDEN)).
Proof.
  apply (proj1 (proj2 (validateTransaction_withdrawals_forbidden
                         Samples.lovelaceSupply Samples.marginBound
                         Samples.acceptValidAmount Samples.mainnet
                         [Samples.inputNoPath] [Samples.outputNoPath]
                         "42"%string (Some "10"%string)
                         [Samples.poolRegistration] [Samples.withdrawal] None None
                         eq_refl (Nat.lt_0_succ 0)))).
  - vm_compute. reflexivity.
  - vm_compute. reflexivity.
  - vm_compute. reflexivity.
  - vm_compute. reflexivity.
  - vm_compute. reflexivity.
Defined.

(** C5, the claim as worded fails: the certificate list holds a pool
    registration and there is a withdrawal, but an input that carries a
    path is refused first, with [INPUT_WITH_PATH]. *)
Lemma validateTransaction_reports_input_first :
  existsb Parsing.isPoolRegistration [Samples.poolRegistration] = true
  /\ length [Samples.withdrawal] = 1
  /\ Parsing.validateTransaction Samples.lovelaceSupply Samples.marginBound
       Samples.acceptValidAmount Samples.mainnet
       [Samples.inputWithPath] [Samples.outputNoPath] "42"%string (Some "10"%string)
       [Samples.poolRegistration] [Samples.withdrawal] None None
     = inl (Error (Some INPUT_WITH_PATH))
  /\ (forall (lovelace bound : string)
             (serializeOutputBasicParams : Parsing.TxOutput -> Parsing.Network -> Checked unit),
         Parsing.validateTransaction lovelace bound serializeOutputBasicParams Samples.mainnet
           [Samples.inputWithPath] [Samples.outputNoPath] "42"%string (Some "10"%string)
           [Samples.poolRegistration] [Samples.withdrawal] None None
         = inl (Error (Some INPUT_WITH_PATH))).
Proof.
  split; [reflexivity |].
  split; [reflexivity |].
  split; [vm_compute; reflexivity |].
  intros lovelace bound serializeOutputBasicParams. reflexivity.
Qed.

(** ** [setTransaction]: the chunked streaming of the legacy variant *)

Section ChunkFacts.

Import Utils Legacy.

Variable Device E : Type.
Variable send : Transport Device E.

Lemma framesFrom_succ (rawTx : Buffer) (chunkSize i n : nat) :
  framesFrom rawTx chunkSize i (S n)
  = chunkApdu rawTx chunkSize i :: framesFrom rawTx chunkSize (i + chunkSize) n.
Proof.
  unfold framesFrom. simpl. rewrite Nat.add_0_r. f_equal.
  rewrite <- seq_shift, map_map. apply map_ext. intros k. f_equal. simpl. lia.
Qed.

Lemma ceilDiv_zero (c : nat) : 0 < c -> ceilDiv 0 c = 0.
Proof.
  intros Hc. unfold ceilDiv. apply Nat.div_small. lia.
Qed.

Lemma ceilDiv_step (n c : nat) :
  0 < c -> 0 < n -> ceilDiv n c = S (ceilDiv (n - c) c).
Proof.
  intros Hc Hn. unfold ceilDiv.
  destruct (le_lt_dec c n) as [Hle | Hlt].
  - replace (n + c - 1) with ((n - c + c - 1) + 1 * c) by lia.
    rewrite Nat.div_add by lia. lia.
  - replace (n - c) with 0 by lia.
    replace (n + c - 1) with ((n - 1) + 1 * c) by lia.
    rewrite Nat.div_add by lia.
    rewrite (Nat.div_small (n - 1) c) by lia.
    rewrite (Nat.div_small (0 + c - 1) c) by lia. reflexivity.
Qed.

(** The loop with a recording transport: it ends, the frames it sent are
    the first [n] frames of the split, in order, and a run that returns
    has sent all of them. *)
Lemma sendChunks_frames (rawTx : Buffer) (chunkSize : nat) :
  0 < chunkSize ->
  forall (fuel i : nat) (response : option Summary) (d : Device) (log : list Apdu),
    length rawTx - i <= fuel ->
    exists r d' n,
      sendChunks (logged send) fuel rawTx chunkSize i response (d, log)
      = Some (r, (d', log ++ framesFrom rawTx chunkSize i n))
      /\ n <= ceilDiv (length rawTx - i) chunkSize
      /\ (forall v, r = inr v -> n = ceilDiv (length rawTx - i) chunkSize).
Proof.
  intros Hc. induction fuel as [| fuel IH]; intros i response d log Hfuel.
  - exists (inr response), d, 0. simpl.
    destruct (Nat.ltb_spec i (length rawTx)) as [Hlt | Hge]; [lia |].
    rewrite app_nil_r. replace (length rawTx - i) with 0 by lia.
    rewrite ceilDiv_zero by assumption. auto.
  - simpl. destruct (Nat.ltb_spec i (length rawTx)) as [Hlt | Hge].
    + rewrite (@ceilDiv_step (length rawTx - i) chunkSize) by lia.
      replace (length rawTx - i - chunkSize) with (length rawTx - (i + chunkSize)) by lia.
      unfold logged at 1. simpl.
      destruct (send (chunkApdu rawTx chunkSize i) d) as [[e | res] d1].
      * exists (inl (TransportThrew e)), d1, 1.
        rewrite framesFrom_succ. simpl.
        repeat split; [lia | discriminate].
      * destruct (readSummary res response) as [e | response'].
        -- exists (inl e), d1, 1.
           rewrite framesFrom_succ. simpl.
           repeat split; [lia | discriminate].
        -- destruct (IH (i + chunkSize) response' d1 (log ++ [chunkApdu rawTx chunkSize i]))
             as (r & d' & n & Hrun & Hn & Hdone); [lia |].
           exists r, d', (S n). rewrite Hrun, framesFrom_succ, <- app_assoc. simpl.
           repeat split; [lia |].
           intros v Hv. rewrite (Hdone v Hv). reflexivity.
    + exists (inr response), d, 0. simpl.
      rewrite app_nil_r. replace (length rawTx - i) with 0 by lia.
      rewrite ceilDiv_zero by assumption. auto.
Qed.

(** Laid end to end, the first [n] pieces of the split are the first
    [n * chunkSize] bytes of the payload. *)
Lemma concat_slices (rawTx : Buffer) (chunkSize n : nat) :
  concat (map (piece rawTx chunkSize) (seq 0 n)) = firstn (n * chunkSize) rawTx.
Proof.
  induction n as [| n IH]; [reflexivity |].
  rewrite seq_S, map_app, concat_app, IH. simpl.
  rewrite app_nil_r. unfold piece, slice.
  replace (n * chunkSize + chunkSize - n * chunkSize) with chunkSize by lia.
  replace (chunkSize + n * chunkSize) with (n * chunkSize + chunkSize) by lia.
  rewrite <- (firstn_skipn (n * chunkSize) (firstn (n * chunkSize + chunkSize) rawTx)).
  f_equal.
  - rewrite firstn_firstn. f_equal. lia.
  - rewrite skipn_firstn_comm. f_equal. lia.
Qed.

Lemma ceilDiv_covers (n c : nat) : 0 < c -> n <= ceilDiv n c * c.
Proof.
  intros Hc. unfold ceilDiv.
  pose proof (Nat.div_mod_eq (n + c - 1) c) as Hdiv.
  pose proof (Nat.mod_upper_bound (n + c - 1) c) as Hmod.
  nia.
Qed.

Lemma data_framesFrom (rawTx : Buffer) (chunkSize n : nat) :
  map data (framesFrom rawTx chunkSize 0 n) = map (piece rawTx chunkSize) (seq 0 n).
Proof.
  unfold framesFrom. rewrite map_map. apply map_ext. intros k. reflexivity.
Qed.

End ChunkFacts.

(** C3 (as amended).  Whatever the transport answers, [setTransaction]
    ends, and the payloads of the frames it sent are, in order, the first
    pieces of the payload cut every 59 bytes; a run that returns has sent
    [ceil (L / 59)] frames, which is none at all when [L = 0], and their
    payloads laid end to end are the original [L] bytes. *)
Theorem setTransaction_chunks_in_order
  (Device E : Type) (send : Legacy.Transport Device E)
  (rawTx : Utils.Buffer) (d : Device) :
  exists r d' sent,
    Legacy.setTransactionRaw (Legacy.logged send) rawTx (d, []) = Some (r, (d', sent))
    /\ length sent <= Legacy.ceilDiv (length rawTx) 59
    /\ map Legacy.data sent = map (Legacy.piece rawTx 59) (seq 0 (length sent))
    /\ (forall response, r = inr response ->
        length sent = Legacy.ceilDiv (length rawTx) 59
        /\ concat (map Legacy.data sent) = rawTx).
Proof.
  unfold Legacy.setTransactionRaw.
  change (Legacy.MAX_APDU_SIZE - Legacy.OFFSET_CDATA) with 59.
  destruct (@sendChunks_frames Device E send rawTx 59 (Nat.lt_0_succ 58)
              (length rawTx) 0 None d [])
    as (r & d' & n & Hrun & Hn & Hdone); [lia |].
  rewrite Nat.sub_0_r in Hn, Hdone. simpl in Hrun.
  exists r, d', (Legacy.framesFrom rawTx 59 0 n).
  assert (Hlen : length (Legacy.framesFrom rawTx 59 0 n) = n)
    by (unfold Legacy.framesFrom; rewrite length_map, length_seq; reflexivity).
  rewrite Hlen, data_framesFrom.
  repeat split; try assumption.
  - apply Hdone with (v := response). assumption.
  - rewrite concat_slices, (Hdone response H).
    apply firstn_all2. apply ceilDiv_covers. lia.
Qed.

(** C3, the claim as worded fails: for the empty payload nothing is sent,
    where the claim counts one chunk. *)
Lemma setTransaction_empty_payload_sends_nothing :
  Legacy.setTransactionRaw (Legacy.logged Samples.acknowledge) [] (tt, [])
  = Some (inr None, (tt, []))
  /\ length (Legacy.framesSent
               (Legacy.setTransactionRaw (Legacy.logged Samples.acknowledge) [] (tt, [])))
     = 0.
Proof.
  split; vm_compute; reflexivity.
Qed.

(** A payload of 130 bytes goes out as three frames of 59, 59 and 12
    bytes. *)
Example setTransaction_130_bytes :
  map (fun a => length (Legacy.data a))
    (Legacy.framesSent
       (Legacy.setTransactionRaw (Legacy.logged Samples.acknowledge)
          (repeat 1%Z 130) (tt, [])))
  = [59; 59; 12].
Proof.
  vm_compute. reflexivity.
Qed.

(** ** The markers of the chunks *)

Lemma ceilDiv_le_iff (n c m : nat) :
  0 < c -> (Legacy.ceilDiv n c <= m <-> n <= m * c).
Proof.
  intros Hc. split.
  - intros Hle. pose proof (ceilDiv_covers n Hc). nia.
  - intros Hle. unfold Legacy.ceilDiv.
    apply Nat.lt_succ_r. apply Nat.Div0.div_lt_upper_bound. nia.
Qed.

(** The position marker of the [k]-th chunk of a run that sends them all:
    [FIRST] for the first one, [LAST] for the final one of several, [NEXT]
    in between. *)
Lemma chunkP1_position (rawTx : Utils.Buffer) (chunkSize k : nat) :
  0 < chunkSize ->
  k < Legacy.ceilDiv (length rawTx) chunkSize ->
  Legacy.chunkP1 rawTx chunkSize (k * chunkSize)
  = if k =? 0 then Legacy.P1_FIRST
    else if k =? Legacy.ceilDiv (length rawTx) chunkSize - 1 then Legacy.P1_LAST
    else Legacy.P1_NEXT.
Proof.
  intros Hc Hk. unfold Legacy.chunkP1.
  destruct (Nat.eqb_spec k 0) as [-> | Hk0]; [reflexivity |].
  destruct (Nat.eqb_spec (k * chunkSize) 0) as [Hz | _]; [nia |].
  pose proof (@ceilDiv_le_iff (length rawTx) chunkSize (S k) Hc) as Hiff.
  destruct (Nat.leb_spec (length rawTx) (k * chunkSize + chunkSize)) as [Hle | Hgt];
    destruct (Nat.eqb_spec k (Legacy.ceilDiv (length rawTx) chunkSize - 1)) as [He | Hne];
    try reflexivity.
  - assert (Legacy.ceilDiv (length rawTx) chunkSize <= S k) by (apply Hiff; simpl; lia).
    lia.
  - assert (length rawTx <= S k * chunkSize) by (apply Hiff; lia).
    simpl in *. lia.
Qed.

(** The second marker is [MULTI] from [chunkSize] bytes on, while more
    than one frame is needed only from [chunkSize + 1] bytes on. *)
Lemma chunkP2_multi_iff (rawTx : Utils.Buffer) (chunkSize : nat) :
  Legacy.chunkP2 rawTx chunkSize = Legacy.P2_MULTI_TX <-> chunkSize <= length rawTx.
Proof.
  unfold Legacy.chunkP2.
  destruct (Nat.ltb_spec (length rawTx) chunkSize) as [Hlt | Hge]; split; intros H;
    try discriminate; try reflexivity; lia.
Qed.

Lemma several_frames_iff (n chunkSize : nat) :
  0 < chunkSize -> (1 < Legacy.ceilDiv n chunkSize <-> chunkSize < n).
Proof.
  intros Hc. pose proof (@ceilDiv_le_iff n chunkSize 1 Hc) as Hiff. lia.
Qed.

(** C4, at the boundary.  A payload of exactly 59 bytes fits in one
    chunk: one frame is sent, it carries the whole payload and the marker
    [FIRST], and yet its second marker is [P2_MULTI_TX]. *)
Theorem setTransaction_full_single_chunk_marked_multi :
  length Samples.payload59 = Legacy.MAX_APDU_SIZE - Legacy.OFFSET_CDATA
  /\ Legacy.framesSent
       (Legacy.setTransactionRaw (Legacy.logged Samples.acknowledge)
          Samples.payload59 (tt, []))
     = [Legacy.mkApdu Legacy.CLA Legacy.INS_SET_TX Legacy.P1_FIRST Legacy.P2_MULTI_TX
          Samples.payload59].
Proof.
  split.
  - reflexivity.
  - vm_compute. reflexivity.
Qed.

(** One byte less and the single frame is marked [P2_SINGLE_TX]. *)
Example setTransaction_58_bytes_marked_single :
  map Legacy.p2
    (Legacy.framesSent
       (Legacy.setTransactionRaw (Legacy.logged Samples.acknowledge)
          (repeat 7%Z 58) (tt, [])))
  = [Legacy.P2_SINGLE_TX].
Proof.
  vm_compute. reflexivity.
Qed.

(** ** The driver [interact] and the retry wrapper *)

Section DriverFacts.

Import Utils AdaApi.

Variable Device : Type.
Variable ERR_STILL_IN_CALL : Z.
Variable send : SendFn Device.

Lemma logged_send (apdu : SendParams) (d : Device) (log : list SendParams) :
  logged send apdu (d, log) = (fst (send apdu d), (snd (send apdu d), log ++ [apdu])).
Proof.
  unfold logged. simpl. destruct (send apdu d) as [r d']. reflexivity.
Qed.

(** From the second exchange on the loop is the conversation without
    retry: every request reaches [send] once, in order, and the first
    failure ends the run. *)
Lemma interactLoop_later_exchanges (T : Type) (cursor : Interaction T) :
  forall (d : Device) (log : list SendParams),
    interactLoop ERR_STILL_IN_CALL (logged send) false cursor (d, log)
    = resume send log cursor d.
Proof.
  unfold resume.
  induction cursor as [value | apdu next IH | e]; intros d log; simpl.
  - rewrite app_nil_r. reflexivity.
  - rewrite logged_send. destruct (send apdu d) as [[e | res] d1]; simpl.
    + reflexivity.
    + rewrite IH. destruct (exchangeOnce send (next res) d1) as [[r d2] sent].
      rewrite <- app_assoc. reflexivity.
  - rewrite app_nil_r. reflexivity.
Qed.

Lemma isStillInCall_true (e : JsError) :
  ERR_STILL_IN_CALL <> 0%Z ->
  statusCode e = Some ERR_STILL_IN_CALL ->
  isStillInCall ERR_STILL_IN_CALL e = true.
Proof.
  intros Hnz Hcode. unfold isStillInCall. rewrite Hcode.
  rewrite Z.eqb_refl, andb_true_r.
  destruct (Z.eqb_spec ERR_STILL_IN_CALL 0); [contradiction | reflexivity].
Qed.

Lemma isStillInCall_false (e : JsError) :
  statusCode e <> Some ERR_STILL_IN_CALL ->
  isStillInCall ERR_STILL_IN_CALL e = false.
Proof.
  intros Hcode. unfold isStillInCall.
  destruct (statusCode e) as [c |]; [| reflexivity].
  destruct (Z.eqb_spec c ERR_STILL_IN_CALL) as [-> | Hne];
    [contradiction | apply andb_false_r].
Qed.

End DriverFacts.

(** C2.  On the first exchange of [interact] a failure that reports
    [ERR_STILL_IN_CALL] makes the same request go out a second time and no
    more: a second failure, whatever its status, is surfaced after exactly
    two attempts, and a success carries on with the rest of the
    conversation.  Any other failure of the first exchange is surfaced
    after one attempt.  From the second exchange on every request goes out
    once, and a failure, [ERR_STILL_IN_CALL] included, is surfaced at
    once: the loop is then the conversation run without any retry.  The
    send function is wrapped so as to record every request it is handed. *)
Theorem interact_retries_only_first_exchange_once
  (Device T : Type) (ERR_STILL_IN_CALL : Z) (send : AdaApi.SendFn Device)
  (apdu : AdaApi.SendParams) (next : Utils.Buffer -> AdaApi.Interaction T) (d : Device) :
  ERR_STILL_IN_CALL <> 0%Z ->
  (forall e d1,
      send apdu d = (inl e, d1) ->
      AdaApi.statusCode e = Some ERR_STILL_IN_CALL ->
      AdaApi.interact ERR_STILL_IN_CALL (AdaApi.Yield apdu next) (AdaApi.logged send) (d, [])
      = match send apdu d1 with
        | (inl e2, d2) => (inl e2, (d2, [apdu; apdu]))
        | (inr res, d2) => AdaApi.resume send [apdu; apdu] (next res) d2
        end)
  /\ (forall e d1,
         send apdu d = (inl e, d1) ->
         AdaApi.statusCode e <> Some ERR_STILL_IN_CALL ->
         AdaApi.interact ERR_STILL_IN_CALL (AdaApi.Yield apdu next) (AdaApi.logged send) (d, [])
         = (inl e, (d1, [apdu])))
  /\ (forall res d1,
         send apdu d = (inr res, d1) ->
         AdaApi.interact ERR_STILL_IN_CALL (AdaApi.Yield apdu next) (AdaApi.logged send) (d, [])
         = AdaApi.resume send [apdu] (next res) d1)
  /\ (forall (later : AdaApi.SendParams) (rest : Utils.Buffer -> AdaApi.Interaction T)
             (log : list AdaApi.SendParams) (d0 d1 : Device) (e : AdaApi.JsError),
         send later d0 = (inl e, d1) ->
         AdaApi.interactLoop ERR_STILL_IN_CALL (AdaApi.logged send) false
           (AdaApi.Yield later rest) (d0, log)
         = (inl e, (d1, log ++ [later])))
  /\ (forall (cursor : AdaApi.Interaction T) (log : list AdaApi.SendParams) (d0 : Device),
         AdaApi.interactLoop ERR_STILL_IN_CALL (AdaApi.logged send) false cursor (d0, log)
         = AdaApi.resume send log cursor d0).
Proof.
  intros Hnz. unfold AdaApi.interact.
  repeat apply conj.
  - intros e d1 Hfirst Hcode. simpl.
    unfold AdaApi.wrapRetryStillInCall. rewrite !logged_send, Hfirst. simpl.
    rewrite (isStillInCall_true e Hnz Hcode).
    destruct (send apdu d1) as [[e2 | res] d2]; simpl; [reflexivity |].
    apply interactLoop_later_exchanges.
  - intros e d1 Hfirst Hcode. simpl.
    unfold AdaApi.wrapRetryStillInCall. rewrite !logged_send, Hfirst. simpl.
    rewrite (isStillInCall_false e Hcode). reflexivity.
  - intros res d1 Hfirst. simpl.
    unfold AdaApi.wrapRetryStillInCall. rewrite !logged_send, Hfirst. simpl.
    apply interactLoop_later_exchanges.
  - intros later rest log d0 d1 e Hlater.
    simpl. rewrite logged_send, Hlater. reflexivity.
  - intros cursor log d0. apply interactLoop_later_exchanges.
Qed.

(** The retry property of the spec: the device answers the first call
    with "still in call" and every later one with success; the first
    request goes out twice, the second once, and the conversation
    returns. *)
Lemma interact_retries_only_first_exchange_once_witness :
  Samples.STILL_IN_CALL <> 0%Z
  /\ AdaApi.interact Samples.STILL_IN_CALL Samples.twoExchanges
       (AdaApi.logged (Samples.failingAt 0 Samples.STILL_IN_CALL)) (0, [])
     = (inr ([1%Z], [2%Z]),
        (3, [Samples.request 0; Samples.request 0; Samples.request 1])).
Proof.
  assert (Hnz : Samples.STILL_IN_CALL <> 0%Z) by (vm_compute; discriminate).
  split; [exact Hnz |].
  exact (proj1 (interact_retries_only_first_exchange_once
                  (Samples.failingAt 0 Samples.STILL_IN_CALL)
                  (Samples.request 0)
                  (fun r0 => AdaApi.Yield (Samples.request 1)
                               (fun r1 => AdaApi.Done (r0, r1)))
                  0 Hnz)
           (AdaApi.TransportStatusError Samples.STILL_IN_CALL) 1 eq_refl eq_refl).
Defined.

(** The same status on the second exchange ends the run after one
    attempt; another status on the first exchange does so too; and a
    device that stays "in call" is asked twice and no more. *)
Example interact_no_retry_scenarios :
  AdaApi.interact Samples.STILL_IN_CALL Samples.twoExchanges
    (AdaApi.logged (Samples.failingAt 1 Samples.STILL_IN_CALL)) (0, [])
  = (inl (AdaApi.TransportStatusError Samples.STILL_IN_CALL),
     (2, [Samples.request 0; Samples.request 1]))
  /\ AdaApi.interact Samples.STILL_IN_CALL Samples.twoExchanges
       (AdaApi.logged (Samples.failingAt 0 Samples.REJECTED_BY_POLICY)) (0, [])
     = (inl (AdaApi.TransportStatusError Samples.REJECTED_BY_POLICY),
        (1, [Samples.request 0]))
  /\ AdaApi.interact Samples.STILL_IN_CALL Samples.twoExchanges
       (AdaApi.logged (fun _ calls =>
                         (inl (AdaApi.TransportStatusError Samples.STILL_IN_CALL), S calls)))
       (0, [])
     = (inl (AdaApi.TransportStatusError Samples.STILL_IN_CALL),
        (2, [Samples.request 0; Samples.request 0])).
Proof.
  repeat split; vm_compute; reflexivity.
Qed.

(** ** [_send]: the length assertion *)

Section SendFacts.

Import Utils AdaApi.

Variable Device : Type.
Variable transport : TransportSend Device.

Lemma stripRetcode_app (payload : Buffer) (sw1 sw2 : Z) :
  stripRetcodeFromResponse (payload ++ [sw1; sw2]) = payload.
Proof.
  unfold stripRetcodeFromResponse. rewrite length_app. simpl.
  replace (length payload + 2 - 2) with (length payload + 0) by lia.
  rewrite firstn_app_2. simpl. apply app_nil_r.
Qed.

Lemma loggedTransport_send (frame : Frame) (d : Device) (log : list Frame) :
  loggedTransport transport frame (d, log)
  = (fst (transport frame d), (snd (transport frame d), log ++ [frame])).
Proof.
  unfold loggedTransport. simpl. destruct (transport frame d) as [r d']. reflexivity.
Qed.

(** What [_send] returns once the transport has answered. *)
Lemma send_answered (params : SendParams) (response : Buffer) (d d1 : Device) :
  transport (frameOf params) d = (inr response, d1) ->
  _send transport params d
  = match expectedResponseLength params with
    | Some expected =>
        if length (stripRetcodeFromResponse response) =? expected
        then (inr (stripRetcodeFromResponse response), d1)
        else (inl (AssertionError "unexpected response length"), d1)
    | None => (inr (stripRetcodeFromResponse response), d1)
    end.
Proof.
  intros Hanswer. unfold _send, wrapConvertDeviceStatusError.
  fold (frameOf params). rewrite Hanswer.
  destruct (expectedResponseLength params) as [expected |]; [| reflexivity].
  unfold assert. destruct (_ =? _); reflexivity.
Qed.

End SendFacts.

(** C9.  When the request declares an [expectedResponseLength], [_send]
    strips the trailing status code from the response and compares the
    length of what remains with it: on a match the stripped payload is
    returned, on a mismatch an assertion error is thrown.  That error has
    no status code, so the retry wrapper passes it on: the driver, on the
    first exchange as on a later one, surfaces it after the frame has
    reached the transport exactly once. *)
Theorem send_asserts_stripped_length
  (Device T : Type) (ERR_STILL_IN_CALL : Z) (transport : AdaApi.TransportSend Device)
  (params : AdaApi.SendParams) (expected : nat)
  (payload : Utils.Buffer) (sw1 sw2 : Z) (d d1 : Device) :
  AdaApi.expectedResponseLength params = Some expected ->
  transport (AdaApi.frameOf params) d = (inr (payload ++ [sw1; sw2]), d1) ->
  (length payload = expected ->
   AdaApi._send transport params d = (inr payload, d1))
  /\ (length payload <> expected ->
      AdaApi._send transport params d
      = (inl (AdaApi.AssertionError "unexpected response length"), d1)
      /\ AdaApi.wrapRetryStillInCall ERR_STILL_IN_CALL
           (AdaApi._send (AdaApi.loggedTransport transport)) params (d, [])
         = (inl (AdaApi.AssertionError "unexpected response length"),
            (d1, [AdaApi.frameOf params]))
      /\ forall (first : bool) (next : Utils.Buffer -> AdaApi.Interaction T),
          AdaApi.interactLoop ERR_STILL_IN_CALL
            (AdaApi._send (AdaApi.loggedTransport transport)) first
            (AdaApi.Yield params next) (d, [])
          = (inl (AdaApi.AssertionError "unexpected response length"),
             (d1, [AdaApi.frameOf params]))).
Proof.
  intros Hexpected Hanswer.
  assert (Hlogged : AdaApi.loggedTransport transport (AdaApi.frameOf params) (d, [])
                    = (inr (payload ++ [sw1; sw2]), (d1, [AdaApi.frameOf params])))
    by (rewrite loggedTransport_send, Hanswer; reflexivity).
  split.
  - intros Hlen.
    rewrite (@send_answered _ _ _ _ _ _ Hanswer), Hexpected, stripRetcode_app.
    apply Nat.eqb_eq in Hlen. rewrite Hlen. reflexivity.
  - intros Hlen. apply Nat.eqb_neq in Hlen.
    assert (Hsend : AdaApi._send (AdaApi.loggedTransport transport) params (d, [])
                    = (inl (AdaApi.AssertionError "unexpected response length"),
                       (d1, [AdaApi.frameOf params]))).
    { rewrite (@send_answered _ _ _ _ _ _ Hlogged), Hexpected, stripRetcode_app, Hlen.
      reflexivity. }
    repeat split.
    + rewrite (@send_answered _ _ _ _ _ _ Hanswer), Hexpected, stripRetcode_app, Hlen.
      reflexivity.
    + unfold AdaApi.wrapRetryStillInCall. rewrite Hsend. reflexivity.
    + intros first next. simpl. destruct first.
      * unfold AdaApi.wrapRetryStillInCall. rewrite Hsend. reflexivity.
      * rewrite Hsend. reflexivity.
Qed.

(** A response of three payload bytes against an expected length of four
    and of three. *)
Lemma send_asserts_stripped_length_witness :
  AdaApi._send Samples.threeBytes (AdaApi.mkSendParams 0 0 0 [] (Some 4)) tt
  = (inl (AdaApi.AssertionError "unexpected response length"), tt)
  /\ AdaApi._send Samples.threeBytes (AdaApi.mkSendParams 0 0 0 [] (Some 3)) tt
     = (inr [1; 2; 3]%Z, tt).
Proof.
  split.
  - apply (proj2 (@send_asserts_stripped_length unit unit Samples.STILL_IN_CALL
                    Samples.threeBytes (AdaApi.mkSendParams 0 0 0 [] (Some 4)) 4
                    [1; 2; 3]%Z 144%Z 0%Z tt tt eq_refl eq_refl)).
    simpl. discriminate.
  - apply (proj1 (@send_asserts_stripped_length unit unit Samples.STILL_IN_CALL
                    Samples.threeBytes (AdaApi.mkSendParams 0 0 0 [] (Some 3)) 3
                    [1; 2; 3]%Z 144%Z 0%Z tt tt eq_refl eq_refl)).
    reflexivity.
Defined.

(** ** The public operations *)

Section OperationFacts.

Import Utils AdaApi.

Variable Device : Type.
Variable ERR_STILL_IN_CALL : Z.
Variable GET_VERSION : SendParams.
Variable decodeVersion : Buffer -> Js.Result JsError Version.

(** An interaction that delegates to [getVersion] first runs as
    [BeginsWithFreshVersion] words it. *)
Lemma run_delegate_getVersion (transport : TransportSend Device) (T : Type)
  (feature : Version -> Interaction T) :
  BeginsWithFreshVersion ERR_STILL_IN_CALL GET_VERSION decodeVersion transport
    (run ERR_STILL_IN_CALL transport
       (delegate (getVersion GET_VERSION decodeVersion) feature))
    feature.
Proof.
  intros d. unfold run, interact. simpl.
  destruct (wrapRetryStillInCall ERR_STILL_IN_CALL (_send transport) GET_VERSION d)
    as [[e | response] d1]; [reflexivity |].
  destruct (decodeVersion response) as [e | version]; reflexivity.
Qed.

(** Validation happens before the interaction is built. *)
Lemma validated_inr (A T : Type) (parsed : Js.Result JsError A) (a : A)
  (operation : A -> Device -> Outcome Device T) :
  parsed = inr a -> validated parsed operation = operation a.
Proof.
  intros ->. reflexivity.
Qed.

Lemma validated_inl (A T : Type) (parsed : Js.Result JsError A) (e : JsError)
  (operation : A -> Device -> Outcome Device T) (d : Device) :
  parsed = inl e -> validated parsed operation d = (inl e, d).
Proof.
  intros ->. reflexivity.
Qed.

Variable transport : TransportSend Device.

Lemma send_logged_frame (params : SendParams) (d : Device) (log : list Frame) :
  framesOf (_send (loggedTransport transport) params (d, log)) = log ++ [frameOf params].
Proof.
  unfold framesOf, _send, wrapConvertDeviceStatusError. fold (frameOf params).
  rewrite loggedTransport_send.
  destruct (transport (frameOf params) d) as [[e | response] d1]; simpl.
  - destruct (statusCode e); reflexivity.
  - destruct (expectedResponseLength params) as [expected |]; [| reflexivity].
    destruct (assert _ _); reflexivity.
Qed.

(** The retry wrapper hands the frame of the request to the transport
    once or twice and nothing else. *)
Lemma retry_logged_frames (params : SendParams) (d : Device) (log : list Frame) :
  exists more,
    framesOf (wrapRetryStillInCall ERR_STILL_IN_CALL (_send (loggedTransport transport))
                params (d, log))
    = log ++ frameOf params :: more.
Proof.
  unfold wrapRetryStillInCall.
  pose proof (send_logged_frame params d log) as Hone.
  destruct (_send (loggedTransport transport) params (d, log)) as [r [d1 log1]].
  unfold framesOf in Hone. simpl in Hone. subst log1.
  destruct r as [e | response].
  - destruct (isStillInCall ERR_STILL_IN_CALL e).
    + rewrite send_logged_frame, <- app_assoc. simpl. eauto.
    + exists []. reflexivity.
  - exists []. reflexivity.
Qed.

(** The driver only ever adds frames to the record. *)
Lemma interactLoop_logged_frames (T : Type) (cursor : Interaction T) :
  forall (first : bool) (d : Device) (log : list Frame),
    exists more,
      framesOf (interactLoop ERR_STILL_IN_CALL (_send (loggedTransport transport))
                  first cursor (d, log))
      = log ++ more.
Proof.
  induction cursor as [value | apdu next IH | e]; intros first d log; simpl.
  - exists []. unfold framesOf. simpl. rewrite app_nil_r. reflexivity.
  - assert (Hstep : exists more,
               framesOf ((if first
                          then wrapRetryStillInCall ERR_STILL_IN_CALL
                                 (_send (loggedTransport transport))
                          else _send (loggedTransport transport)) apdu (d, log))
               = log ++ more).
    { destruct first.
      - destruct (retry_logged_frames apdu d log) as [more Hmore]. eauto.
      - rewrite send_logged_frame. eauto. }
    destruct Hstep as [more Hmore].
    destruct ((if first
               then wrapRetryStillInCall ERR_STILL_IN_CALL (_send (loggedTransport transport))
               else _send (loggedTransport transport)) apdu (d, log)) as [r [d1 log1]].
    unfold framesOf in Hmore. simpl in Hmore. subst log1.
    destruct r as [e | res].
    + exists more. reflexivity.
    + destruct (IH res false d1 (log ++ more)) as [more' Hmore'].
      rewrite Hmore', <- app_assoc. eauto.
  - exists []. unfold framesOf. simpl. rewrite app_nil_r. reflexivity.
Qed.

(** Over a recording transport, the first frame of an operation that
    begins with a fresh version is the get-version frame. *)
Lemma fresh_version_first_frame (T : Type)
  (operation : Device * list Frame -> Outcome (Device * list Frame) T)
  (feature : Version -> Interaction T) :
  BeginsWithFreshVersion ERR_STILL_IN_CALL GET_VERSION decodeVersion
    (loggedTransport transport) operation feature ->
  forall (d : Device) (log : list Frame),
    exists more, framesOf (operation (d, log)) = log ++ frameOf GET_VERSION :: more.
Proof.
  intros Hop d log. rewrite Hop.
  destruct (retry_logged_frames GET_VERSION d log) as [more Hmore].
  destruct (wrapRetryStillInCall ERR_STILL_IN_CALL (_send (loggedTransport transport))
              GET_VERSION (d, log)) as [r [d1 log1]].
  unfold framesOf in Hmore. simpl in Hmore. subst log1.
  destruct r as [e | response]; simpl.
  - exists more. reflexivity.
  - destruct (decodeVersion response) as [e | version].
    + exists more. reflexivity.
    + destruct (interactLoop_logged_frames (feature version) false d1
                  (log ++ frameOf GET_VERSION :: more)) as [more' Hmore'].
      rewrite Hmore', <- app_assoc. simpl. eauto.
Qed.

End OperationFacts.

Section FreshVersion.

Import Utils AdaApi.

Variable Device : Type.
Variable ERR_STILL_IN_CALL : Z.
Variable GET_VERSION : SendParams.
Variable decodeVersion : Buffer -> Js.Result JsError Version.
Variable transport : TransportSend Device.

Variables Serial ValidBIP32Path : Type.
Variables Network DeviceOwnedAddress ParsedAddressParams DerivedAddress : Type.
Variables SignTransactionRequest ParsedSigningRequest SignedTransactionData : Type.
Variables OperationalCertificate ParsedOperationalCertificate : Type.
Variable OperationalCertificateSignature : Type.
Variables CIP36Vote ParsedCVote SignedCIP36VoteData : Type.
Variables NativeScript ParsedNativeScript : Type.
Variables NativeScriptHashDisplayFormat NativeScriptHash : Type.

Variable getSerial : Version -> Interaction Serial.
Variable getExtendedPublicKeys :
  Version -> list ValidBIP32Path -> Interaction (list ExtendedPublicKey).
Variable deriveAddress : Version -> ParsedAddressParams -> Interaction DerivedAddress.
Variable showAddress : Version -> ParsedAddressParams -> Interaction unit.
Variable signTransaction : Version -> ParsedSigningRequest -> Interaction SignedTransactionData.
Variable signOperationalCertificate :
  Version -> ParsedOperationalCertificate -> Interaction OperationalCertificateSignature.
Variable signCVote : Version -> ParsedCVote -> Interaction SignedCIP36VoteData.
Variable deriveNativeScriptHash :
  Version -> ParsedNativeScript -> NativeScriptHashDisplayFormat -> Interaction NativeScriptHash.

Variable parseBIP32Path : BIP32Path -> InvalidDataReason -> Js.Result JsError ValidBIP32Path.
Variable parseAddress : Network -> DeviceOwnedAddress -> Js.Result JsError ParsedAddressParams.
Variable parseSignTransactionRequest :
  SignTransactionRequest -> Js.Result JsError ParsedSigningRequest.
Variable parseOperationalCertificate :
  OperationalCertificate -> Js.Result JsError ParsedOperationalCertificate.
Variable parseCVote : CIP36Vote -> Js.Result JsError ParsedCVote.
Variable parseNativeScript : NativeScript -> Js.Result JsError ParsedNativeScript.
Variable parseNativeScriptHashDisplayFormat :
  NativeScriptHashDisplayFormat -> Js.Result JsError NativeScriptHashDisplayFormat.

Local Abbreviation Fresh :=
  (BeginsWithFreshVersion ERR_STILL_IN_CALL GET_VERSION decodeVersion transport).

(** C8.  Each of the eight public operations, once its request has passed
    validation, begins with the get-version request, sent as the first
    exchange of its interaction, and hands to its feature the version
    decoded from the response to that very request.  This holds from every
    state of the device, so whatever an earlier operation has read is
    never used again; and over a transport that records its frames the
    first frame of such an operation is the get-version frame. *)
Theorem operations_begin_with_fresh_version :
  Fresh (Ada_getSerial ERR_STILL_IN_CALL GET_VERSION decodeVersion getSerial transport)
    getSerial
  /\ (forall paths parsed,
         Js.mapM (fun path => parseBIP32Path path INVALID_PATH) paths = inr parsed ->
         Fresh (Ada_getExtendedPublicKeys ERR_STILL_IN_CALL GET_VERSION decodeVersion
                  getExtendedPublicKeys parseBIP32Path transport paths)
           (fun version => getExtendedPublicKeys version parsed))
  /\ (forall network address parsedParams,
         parseAddress network address = inr parsedParams ->
         Fresh (Ada_deriveAddress ERR_STILL_IN_CALL GET_VERSION decodeVersion
                  deriveAddress parseAddress transport network address)
           (fun version => deriveAddress version parsedParams))
  /\ (forall network address parsedParams,
         parseAddress network address = inr parsedParams ->
         Fresh (Ada_showAddress ERR_STILL_IN_CALL GET_VERSION decodeVersion
                  showAddress parseAddress transport network address)
           (fun version => showAddress version parsedParams))
  /\ (forall request parsedRequest,
         parseSignTransactionRequest request = inr parsedRequest ->
         Fresh (Ada_signTransaction ERR_STILL_IN_CALL GET_VERSION decodeVersion
                  signTransaction parseSignTransactionRequest transport request)
           (fun version => signTransaction version parsedRequest))
  /\ (forall request parsed,
         parseOperationalCertificate request = inr parsed ->
         Fresh (Ada_signOperationalCertificate ERR_STILL_IN_CALL GET_VERSION decodeVersion
                  signOperationalCertificate parseOperationalCertificate transport request)
           (fun version => signOperationalCertificate version parsed))
  /\ (forall request parsedCVote,
         parseCVote request = inr parsedCVote ->
         Fresh (Ada_signCIP36Vote ERR_STILL_IN_CALL GET_VERSION decodeVersion
                  signCVote parseCVote transport request)
           (fun version => signCVote version parsedCVote))
  /\ (forall script displayFormat parsedScript parsedDisplayFormat,
         parseNativeScript script = inr parsedScript ->
         parseNativeScriptHashDisplayFormat displayFormat = inr parsedDisplayFormat ->
         Fresh (Ada_deriveNativeScriptHash ERR_STILL_IN_CALL GET_VERSION decodeVersion
                  deriveNativeScriptHash parseNativeScript
                  parseNativeScriptHashDisplayFormat transport script displayFormat)
           (fun version => deriveNativeScriptHash version parsedScript parsedDisplayFormat))
  /\ (forall (T : Type)
             (operation : Device * list Frame -> Outcome (Device * list Frame) T)
             (feature : Version -> Interaction T),
         BeginsWithFreshVersion ERR_STILL_IN_CALL GET_VERSION decodeVersion
           (loggedTransport transport) operation feature ->
         forall d log,
         exists more, framesOf (operation (d, log)) = log ++ frameOf GET_VERSION :: more).
Proof.
  repeat apply conj.
  - apply run_delegate_getVersion.
  - intros paths parsed Hparsed. unfold Ada_getExtendedPublicKeys.
    rewrite (validated_inr _ Hparsed). apply run_delegate_getVersion.
  - intros network address parsedParams Hparsed. unfold Ada_deriveAddress.
    rewrite (validated_inr _ Hparsed). apply run_delegate_getVersion.
  - intros network address parsedParams Hparsed. unfold Ada_showAddress.
    rewrite (validated_inr _ Hparsed). apply run_delegate_getVersion.
  - intros request parsedRequest Hparsed. unfold Ada_signTransaction.
    rewrite (validated_inr _ Hparsed). apply run_delegate_getVersion.
  - intros request parsed Hparsed. unfold Ada_signOperationalCertificate.
    rewrite (validated_inr _ Hparsed). apply run_delegate_getVersion.
  - intros request parsedCVote Hparsed. unfold Ada_signCIP36Vote.
    rewrite (validated_inr _ Hparsed). apply run_delegate_getVersion.
  - intros script displayFormat parsedScript parsedDisplayFormat Hscript Hformat.
    unfold Ada_deriveNativeScriptHash.
    rewrite (validated_inr _ Hscript), (validated_inr _ Hformat).
    apply run_delegate_getVersion.
  - intros T operation feature Hfresh.
    exact (@fresh_version_first_frame Device ERR_STILL_IN_CALL GET_VERSION decodeVersion
             transport T operation feature Hfresh).
Qed.

End FreshVersion.

(** Two calls of [getVersion] in a row on a device whose application is
    replaced in between: the second call reports the new version. *)
Example version_read_anew_by_each_call :
  let getVersion :=
    AdaApi.Ada_getVersion Samples.STILL_IN_CALL Samples.GET_VERSION Samples.decodeVersion
      (fun version => version) Samples.upgradedBetweenCalls in
  getVersion 1 = (inr (AdaApi.mkVersion 1 0 0 0, AdaApi.mkVersion 1 0 0 0), 2)
  /\ getVersion 2 = (inr (AdaApi.mkVersion 2 0 0 0, AdaApi.mkVersion 2 0 0 0), 3).
Proof.
  split; vm_compute; reflexivity.
Qed.

Section SingleKey.

Import Utils AdaApi.

Variable Device : Type.
Variable ERR_STILL_IN_CALL : Z.
Variable GET_VERSION : SendParams.
Variable decodeVersion : Buffer -> Js.Result JsError Version.
Variable ValidBIP32Path : Type.
Variable getExtendedPublicKeys :
  Version -> list ValidBIP32Path -> Interaction (list ExtendedPublicKey).
Variable parseBIP32Path : BIP32Path -> InvalidDataReason -> Js.Result JsError ValidBIP32Path.

Local Abbreviation single transport :=
  (Ada_getExtendedPublicKey ERR_STILL_IN_CALL GET_VERSION decodeVersion
     getExtendedPublicKeys parseBIP32Path transport).
Local Abbreviation several transport :=
  (Ada_getExtendedPublicKeys ERR_STILL_IN_CALL GET_VERSION decodeVersion
     getExtendedPublicKeys parseBIP32Path transport).

Lemma getExtendedPublicKey_unfold (D : Type) (transport : TransportSend D)
  (path : BIP32Path) (d : D) :
  single transport path d = Reference.firstElementOf (several transport [path] d).
Proof.
  unfold Ada_getExtendedPublicKey, Reference.firstElementOf.
  destruct (several transport [path] d) as [[e | keys] d'].
  - reflexivity.
  - destruct keys; reflexivity.
Qed.

(** C10.  [getExtendedPublicKey] on a path is the first element of what
    [getExtendedPublicKeys] returns on the list of that one path: an
    invalid path makes both fail with the same validation error before
    anything is sent, any failure of the one is the same failure of the
    other, a returned list gives its first key, and both send the same
    frames and leave the device in the same state. *)
Theorem getExtendedPublicKey_is_first_of_singleton
  (transport : TransportSend Device) (path : BIP32Path) (d : Device) :
  single transport path d = Reference.firstElementOf (several transport [path] d)
  /\ (forall e,
         parseBIP32Path path INVALID_PATH = inl e ->
         several transport [path] d = (inl e, d) /\ single transport path d = (inl e, d))
  /\ (forall e d',
         several transport [path] d = (inl e, d') <-> single transport path d = (inl e, d'))
  /\ (forall key rest d',
         several transport [path] d = (inr (key :: rest), d') ->
         single transport path d = (inr (Some key), d'))
  /\ (forall log,
         snd (single (loggedTransport transport) path (d, log))
         = snd (several (loggedTransport transport) [path] (d, log))).
Proof.
  repeat apply conj.
  - apply getExtendedPublicKey_unfold.
  - intros e Hinvalid.
    assert (Hseveral : several transport [path] d = (inl e, d)).
    { unfold Ada_getExtendedPublicKeys. apply validated_inl. simpl.
      rewrite Hinvalid. reflexivity. }
    split; [exact Hseveral |].
    rewrite getExtendedPublicKey_unfold, Hseveral. reflexivity.
  - intros e d'. rewrite getExtendedPublicKey_unfold.
    destruct (several transport [path] d) as [[e0 | keys] d0]; simpl.
    + split; intros H; injection H as -> ->; reflexivity.
    + destruct keys; split; discriminate.
  - intros key rest d' Hkeys.
    rewrite getExtendedPublicKey_unfold, Hkeys. reflexivity.
  - intros log. rewrite getExtendedPublicKey_unfold.
    destruct (several (loggedTransport transport) [path] (d, log)) as [[e | keys] st].
    + reflexivity.
    + destruct keys; reflexivity.
Qed.

End SingleKey.

(** ** Further properties of the three files *)

(** X1.  The frames of [setTransaction] and their markers: the frames sent
    are the successive chunks of the payload, each with class [CLA] and
    instruction [INS_SET_TX]; in a run that sends them all the first frame
    is marked [FIRST], the final one of several [LAST] and those in between
    [NEXT]; the second marker is [MULTI] from 59 bytes on, which is the
    marker of a payload that needs several frames for every length but
    59. *)
Theorem setTransaction_frame_markers
  (Device E : Type) (send : Legacy.Transport Device E)
  (rawTx : Utils.Buffer) (d : Device) :
  (exists n,
      Legacy.framesSent (Legacy.setTransactionRaw (Legacy.logged send) rawTx (d, []))
      = Legacy.framesFrom rawTx 59 0 n)
  /\ (forall k,
         k < Legacy.ceilDiv (length rawTx) 59 ->
         Legacy.chunkApdu rawTx 59 (k * 59)
         = Legacy.mkApdu Legacy.CLA Legacy.INS_SET_TX
             (if k =? 0 then Legacy.P1_FIRST
              else if k =? Legacy.ceilDiv (length rawTx) 59 - 1 then Legacy.P1_LAST
              else Legacy.P1_NEXT)
             (if length rawTx <? 59 then Legacy.P2_SINGLE_TX else Legacy.P2_MULTI_TX)
             (Legacy.piece rawTx 59 k))
  /\ (length rawTx <> 59 ->
      (Legacy.chunkP2 rawTx 59 = Legacy.P2_MULTI_TX
       <-> 1 < Legacy.ceilDiv (length rawTx) 59)).
Proof.
  repeat apply conj.
  - unfold Legacy.setTransactionRaw.
    change (Legacy.MAX_APDU_SIZE - Legacy.OFFSET_CDATA) with 59.
    destruct (@sendChunks_frames Device E send rawTx 59 (Nat.lt_0_succ 58)
                (length rawTx) 0 None d [])
      as (r & d' & n & Hrun & _); [lia |].
    exists n. rewrite Hrun. reflexivity.
  - intros k Hk. unfold Legacy.chunkApdu.
    rewrite (@chunkP1_position rawTx 59 k (Nat.lt_0_succ 58) Hk).
    reflexivity.
  - intros Hlen.
    rewrite chunkP2_multi_iff, (@several_frames_iff (length rawTx) 59 (Nat.lt_0_succ 58)).
    lia.
Qed.

(** X2.  Delegation is sequencing: from the second exchange on, driving
    an interaction that delegates to [m] and goes on with [rest] is
    driving [m] and then, from the state it left, the rest with its
    result; a failure of [m] ends the run. *)
Theorem delegate_runs_in_sequence
  (Device A B : Type) (ERR_STILL_IN_CALL : Z) (send : AdaApi.SendFn Device)
  (m : AdaApi.Interaction A) (rest : A -> AdaApi.Interaction B) (d : Device) :
  AdaApi.interactLoop ERR_STILL_IN_CALL send false (AdaApi.delegate m rest) d
  = match AdaApi.interactLoop ERR_STILL_IN_CALL send false m d with
    | (inl e, d') => (inl e, d')
    | (inr a, d') => AdaApi.interactLoop ERR_STILL_IN_CALL send false (rest a) d'
    end.
Proof.
  revert d. induction m as [value | apdu next IH | e]; intros d; simpl.
  - reflexivity.
  - destruct (send apdu d) as [[e | res] d1]; [reflexivity |].
    apply IH.
  - reflexivity.
Qed.

(** X3.  A request that fails validation never reaches the device: the
    operation returns the validation error and leaves the device as it
    was, whatever the transport. *)
Theorem invalid_request_sends_nothing
  (Device : Type) (ERR_STILL_IN_CALL : Z) (GET_VERSION : AdaApi.SendParams)
  (decodeVersion : Utils.Buffer -> Js.Result AdaApi.JsError AdaApi.Version)
  (transport : AdaApi.TransportSend Device)
  (ValidBIP32Path Network DeviceOwnedAddress ParsedAddressParams DerivedAddress : Type)
  (getExtendedPublicKeys :
     AdaApi.Version -> list ValidBIP32Path ->
     AdaApi.Interaction (list AdaApi.ExtendedPublicKey))
  (deriveAddress : AdaApi.Version -> ParsedAddressParams -> AdaApi.Interaction DerivedAddress)
  (parseBIP32Path :
     AdaApi.BIP32Path -> AdaApi.InvalidDataReason -> Js.Result AdaApi.JsError ValidBIP32Path)
  (parseAddress :
     Network -> DeviceOwnedAddress -> Js.Result AdaApi.JsError ParsedAddressParams)
  (d : Device) :
  (forall paths e,
      Js.mapM (fun path => parseBIP32Path path AdaApi.INVALID_PATH) paths = inl e ->
      AdaApi.Ada_getExtendedPublicKeys ERR_STILL_IN_CALL GET_VERSION decodeVersion
        getExtendedPublicKeys parseBIP32Path transport paths d
      = (inl e, d))
  /\ (forall network address e,
         parseAddress network address = inl e ->
         AdaApi.Ada_deriveAddress ERR_STILL_IN_CALL GET_VERSION decodeVersion
           deriveAddress parseAddress transport network address d
         = (inl e, d)).
Proof.
  split.
  - intros paths e Hinvalid. unfold AdaApi.Ada_getExtendedPublicKeys.
    apply validated_inl. exact Hinvalid.
  - intros network address e Hinvalid. unfold AdaApi.Ada_deriveAddress.
    apply validated_inl. exact Hinvalid.
Qed.

(** ** The validators of a pool registration *)

(** X4.  [parsePoolOwnerParams] looks at the staking path first: when a
    path is given the owner is a path owner or the call fails with the
    invalid-path reason, and the key hash given beside it is never looked
    at.  Without a path, an absent key hash and the empty string alike
    count as no owner at all, and any other string must be a 28-byte hex
    string. *)
Theorem parsePoolOwnerParams_path_first :
  (forall (path : Utils.BIP32Path) (keyHash : option string),
      Parsing.parsePoolOwnerParams (Parsing.mkPoolOwnerParams (Some path) keyHash)
      = if Utils.Precondition.isValidPath path
        then inr (Parsing.OwnerPath path)
        else inl (Error (Some CERTIFICATE_POOL_OWNER_INVALID_PATH)))
  /\ Parsing.parsePoolOwnerParams (Parsing.mkPoolOwnerParams None None)
     = inl (Error (Some CERTIFICATE_POOL_OWNER_INCOMPLETE))
  /\ Parsing.parsePoolOwnerParams (Parsing.mkPoolOwnerParams None (Some EmptyString))
     = inl (Error (Some CERTIFICATE_POOL_OWNER_INCOMPLETE))
  /\ (forall (c : ascii) (rest : string),
         Parsing.parsePoolOwnerParams
           (Parsing.mkPoolOwnerParams None (Some (String c rest)))
         = if Utils.Precondition.isHexStringOfLength (String c rest) Parsing.KEY_HASH_LENGTH
           then inr (Parsing.OwnerKeyHash (String c rest))
           else inl (Error (Some CERTIFICATE_POOL_OWNER_INVALID_KEY_HASH))).
Proof.
  repeat apply conj.
  - intros path keyHash.
    unfold Parsing.parsePoolOwnerParams, Parsing.parseBIP32Path,
      Utils.Precondition.checkIsValidPath, Utils.Precondition.check.
    simpl. destruct (Utils.Precondition.isValidPath path); reflexivity.
  - reflexivity.
  - reflexivity.
  - intros c rest.
    unfold Parsing.parsePoolOwnerParams, Parsing.parseHexStringOfLength,
      Utils.Precondition.checkIsHexStringOfLength, Utils.Precondition.check.
    cbn [Parsing.stakingPath Parsing.stakingKeyHashHex Js.bind].
    destruct (Utils.Precondition.isHexStringOfLength (String c rest) Parsing.KEY_HASH_LENGTH);
      reflexivity.
Qed.

Section PoolFacts.

Import Utils Parsing.

Variable lovelace bound : string.

Lemma parseHexStringOfLength_inr (str : option string) (n : nat) (err : TxErrors) (r : string) :
  parseHexStringOfLength str n err = inr r ->
  str = Some r /\ Precondition.isHexStringOfLength r n = true.
Proof.
  unfold parseHexStringOfLength, Precondition.checkIsHexStringOfLength, Precondition.check.
  destruct str as [s |]; simpl; [| discriminate].
  destruct (Precondition.isHexStringOfLength s n) eqn:Hhex; simpl; [| discriminate].
  intros H. injection H as <-. auto.
Qed.

Lemma parseUint64_str_inr (str maxValue : string) (err : TxErrors) (r : string) :
  parseUint64_str str maxValue err = inr r ->
  r = str /\ Precondition.isValidUintStr str maxValue = true.
Proof.
  unfold parseUint64_str, Precondition.checkIsValidUintStr, Precondition.check.
  destruct (Precondition.isValidUintStr str maxValue); simpl; [| discriminate].
  intros H. injection H as <-. auto.
Qed.

Lemma check_true (cond : bool) (msg : option TxErrors) (u : unit) :
  Precondition.check cond msg = inr u -> cond = true.
Proof.
  unfold Precondition.check. destruct cond; [reflexivity | discriminate].
Qed.

Lemma parseMargin_inr (m : Margin) (r : ParsedMargin) :
  parseMargin bound m = inr r ->
  r = mkParsedMargin (numeratorStr m) (denominatorStr m)
  /\ Precondition.isValidUintStr (numeratorStr m) (denominatorStr m) = true
  /\ Precondition.isValidUintStr (denominatorStr m) bound = true.
Proof.
  destruct m as [n d]. rewrite parseMargin_unfold. simpl.
  destruct (Precondition.isValidUintStr n UINT64_MAX_STR); simpl; [| discriminate].
  destruct (Precondition.isValidUintStr d bound); simpl; [| discriminate].
  destruct (Precondition.isValidUintStr n d); simpl; [| discriminate].
  intros H. injection H as <-. auto.
Qed.

Lemma parsePoolMetadataParams_inr (params : option PoolMetadataParams)
  (r : option ParsedPoolMetadata) :
  parsePoolMetadataParams params = inr r ->
  match params, r with
  | None, None => True
  | Some p, Some m =>
      url m = metadataUrl p /\ hashHex m = metadataHashHex p
      /\ String.length (url m) <= 64
      /\ forallb isPrintableAscii (Js.chars (url m)) = true
      /\ Precondition.isHexStringOfLength (hashHex m) 32 = true
  | _, _ => False
  end.
Proof.
  unfold parsePoolMetadataParams. destruct params as [p |].
  - unfold parseAscii, parseHexStringOfLength, Precondition.checkIsString,
      Precondition.checkIsHexStringOfLength, Precondition.check.
    simpl.
    destruct (forallb isPrintableAscii (Js.chars (metadataUrl p))) eqn:Hascii;
      simpl; [| discriminate].
    destruct (Nat.leb_spec (String.length (metadataUrl p)) 64) as [Hlen | Hlen];
      simpl; [| discriminate].
    destruct (Precondition.isHexStringOfLength (metadataHashHex p) 32) eqn:Hhex;
      simpl; [| discriminate].
    intros H. injection H as <-. simpl. auto.
  - intros H. injection H as <-. exact I.
Qed.

End PoolFacts.

(** X5.  What [parsePoolParams] returns is the request, field by field,
    and it is valid: the hashes have 28, 32 and 29 bytes, pledge and cost
    are within the lovelace supply, the margin numerator is at most its
    denominator and the denominator within its bound; the parsed owners
    are, position by position, what [parsePoolOwnerParams] gives of the
    owners of the request, and the parsed relays what
    [parsePoolRelayParams] gives of its relays; there are at most 1000
    owners, exactly one of them given by path, and at most 1000 relays; and
    the metadata, when there are any, have a printable URL of at most 64
    characters and a 32-byte hash. *)
Theorem parsePoolParams_returns_valid_request
  (lovelace bound : string) (params : Parsing.PoolParams) (pool : Parsing.ParsedPoolParams) :
  Parsing.parsePoolParams lovelace bound params = inr pool ->
  (Parsing.keyHashHex pool = Parsing.poolKeyHashHex params
   /\ Utils.Precondition.isHexStringOfLength (Parsing.keyHashHex pool) 28 = true)
  /\ (Parsing.vrfHashHex pool = Parsing.vrfKeyHashHex params
      /\ Utils.Precondition.isHexStringOfLength (Parsing.vrfHashHex pool) 32 = true)
  /\ (Parsing.parsedPledgeStr pool = Parsing.pledgeStr params
      /\ Utils.Precondition.isValidUintStr (Parsing.parsedPledgeStr pool) lovelace = true)
  /\ (Parsing.parsedCostStr pool = Parsing.costStr params
      /\ Utils.Precondition.isValidUintStr (Parsing.parsedCostStr pool) lovelace = true)
  /\ (Parsing.parsedMargin pool
      = Parsing.mkParsedMargin (Parsing.numeratorStr (Parsing.margin params))
          (Parsing.denominatorStr (Parsing.margin params))
      /\ Utils.Precondition.isValidUintStr (Parsing.numeratorStr (Parsing.margin params))
           (Parsing.denominatorStr (Parsing.margin params)) = true
      /\ Utils.Precondition.isValidUintStr (Parsing.denominatorStr (Parsing.margin params))
           bound = true)
  /\ (Parsing.parsedRewardAccountHex pool = Parsing.rewardAccountHex params
      /\ Utils.Precondition.isHexStringOfLength (Parsing.parsedRewardAccountHex pool) 29
         = true)
  /\ (Forall2 (fun owner parsed => Parsing.parsePoolOwnerParams owner = inr parsed)
        (Parsing.poolOwners params) (Parsing.owners pool)
      /\ length (Parsing.owners pool) = length (Parsing.poolOwners params)
      /\ length (Parsing.owners pool) <= 1000
      /\ length (filter Parsing.isPathOwner (Parsing.owners pool)) = 1)
  /\ (Forall2 (fun relay parsed => Parsing.parsePoolRelayParams relay = inr parsed)
        (Parsing.relays params) (Parsing.parsedRelays pool)
      /\ length (Parsing.parsedRelays pool) = length (Parsing.relays params)
      /\ length (Parsing.parsedRelays pool) <= 1000)
  /\ match Parsing.metadata params, Parsing.parsedMetadata pool with
     | None, None => True
     | Some p, Some m =>
         Parsing.url m = Parsing.metadataUrl p
         /\ Parsing.hashHex m = Parsing.metadataHashHex p
         /\ String.length (Parsing.url m) <= 64
         /\ forallb Parsing.isPrintableAscii (Js.chars (Parsing.url m)) = true
         /\ Utils.Precondition.isHexStringOfLength (Parsing.hashHex m) 32 = true
     | _, _ => False
     end.
Proof.
  unfold Parsing.parsePoolParams. intros H.
  bind_step H keyHash Hkey. bind_step H vrfHash Hvrf.
  bind_step H pledge Hpledge. bind_step H cost Hcost.
  bind_step H margin Hmargin. bind_step H reward Hreward.
  bind_step H owners Howners. bind_step H relays Hrelays.
  bind_step H metadata Hmetadata.
  bind_step H u1 Hmany. bind_step H u2 Hrelaysmany. bind_step H u3 Hsingle.
  injection H as <-. simpl.
  apply parseHexStringOfLength_inr in Hkey as [Hkey1 Hkey2]. injection Hkey1 as <-.
  apply parseHexStringOfLength_inr in Hvrf as [Hvrf1 Hvrf2]. injection Hvrf1 as <-.
  apply parseHexStringOfLength_inr in Hreward as [Hreward1 Hreward2].
  injection Hreward1 as <-.
  apply parseUint64_str_inr in Hpledge as [-> Hpledge].
  apply parseUint64_str_inr in Hcost as [-> Hcost].
  apply parseMargin_inr in Hmargin as (-> & Hnd & Hd).
  apply check_true in Hmany, Hrelaysmany, Hsingle.
  apply Nat.leb_le in Hmany, Hrelaysmany. apply Nat.eqb_eq in Hsingle.
  pose proof Howners as Heachowner. pose proof Hrelays as Heachrelay.
  apply mapM_inr in Heachowner, Heachrelay.
  apply mapM_length in Howners, Hrelays.
  apply parsePoolMetadataParams_inr in Hmetadata.
  unfold Parsing.POOL_REGISTRATION_OWNERS_MAX in Hmany.
  unfold Parsing.POOL_REGISTRATION_RELAYS_MAX in Hrelaysmany.
  repeat split; assumption.
Qed.

(** The sample pool, with its two owners and three relays. *)
Lemma parsePoolParams_returns_valid_request_witness :
  match Parsing.parsePoolParams Samples.lovelaceSupply Samples.marginBound
          Samples.samplePool with
  | inr pool =>
      Forall2 (fun owner parsed => Parsing.parsePoolOwnerParams owner = inr parsed)
        (Parsing.poolOwners Samples.samplePool) (Parsing.owners pool)
      /\ length (Parsing.owners pool) = length (Parsing.poolOwners Samples.samplePool)
      /\ length (Parsing.owners pool) <= 1000
      /\ length (filter Parsing.isPathOwner (Parsing.owners pool)) = 1
  | inl _ => False
  end.
Proof.
  destruct (Parsing.parsePoolParams Samples.lovelaceSupply Samples.marginBound
              Samples.samplePool) as [e | pool] eqn:Hpool.
  - vm_compute in Hpool. discriminate Hpool.
  - exact (proj1 (proj2 (proj2 (proj2 (proj2 (proj2 (proj2
             (@parsePoolParams_returns_valid_request _ _ _ _ Hpool)))))))).
Defined.

(** ** Certificates, one and several *)

(** X6.  [parseCertificate] by type: a type other than the four known
    ones is refused with [CERTIFICATE_INVALID]; a parsed certificate
    carries the type and the fields of the raw one, a stake registration
    or deregistration only when no pool key hash came with it; and for a
    pool registration the [path] and [poolKeyHashHex] of the raw
    certificate are never looked at. *)
Theorem parseCertificate_by_type
  (lovelace bound : string) (cert : Parsing.Certificate) :
  (Parsing.certType cert <> 0%Z -> Parsing.certType cert <> 1%Z ->
   Parsing.certType cert <> 2%Z -> Parsing.certType cert <> 3%Z ->
   Parsing.parseCertificate lovelace bound cert = inl (Error (Some CERTIFICATE_INVALID)))
  /\ (forall parsed,
         Parsing.parseCertificate lovelace bound cert = inr parsed ->
         match parsed with
         | Parsing.ParsedStakeCert type path =>
             type = Parsing.certType cert /\ (type = 0%Z \/ type = 1%Z)
             /\ Parsing.certPath cert = Some path
             /\ Parsing.certPoolKeyHashHex cert = None
         | Parsing.ParsedDelegation type path poolKeyHashHex =>
             type = Parsing.certType cert /\ type = 2%Z
             /\ Parsing.certPath cert = Some path
             /\ Parsing.certPoolKeyHashHex cert = Some poolKeyHashHex
             /\ Utils.Precondition.isHexStringOfLength poolKeyHashHex 28 = true
         | Parsing.ParsedPoolRegistration type pool =>
             type = Parsing.certType cert /\ type = 3%Z
             /\ exists params,
                 Parsing.poolRegistrationParams cert = Some params
                 /\ Parsing.parsePoolParams lovelace bound params = inr pool
         end)
  /\ (forall path path' keyHash keyHash',
         Parsing.parseCertificate lovelace bound
           (Parsing.mkCertificate 3 path keyHash (Parsing.poolRegistrationParams cert))
         = Parsing.parseCertificate lovelace bound
             (Parsing.mkCertificate 3 path' keyHash' (Parsing.poolRegistrationParams cert))).
Proof.
  repeat apply conj.
  - intros H0 H1 H2 H3. unfold Parsing.parseCertificate.
    apply Z.eqb_neq in H0, H1, H2, H3.
    unfold Parsing.CertificateType.STAKE_REGISTRATION,
      Parsing.CertificateType.STAKE_DEREGISTRATION,
      Parsing.CertificateType.STAKE_DELEGATION,
      Parsing.CertificateType.STAKE_POOL_REGISTRATION.
    rewrite H0, H1, H2, H3. reflexivity.
  - intros parsed. unfold Parsing.parseCertificate.
    unfold Parsing.CertificateType.STAKE_REGISTRATION,
      Parsing.CertificateType.STAKE_DEREGISTRATION,
      Parsing.CertificateType.STAKE_DELEGATION,
      Parsing.CertificateType.STAKE_POOL_REGISTRATION.
    destruct (Z.eqb_spec (Parsing.certType cert) 0) as [E0 | N0];
      [| destruct (Z.eqb_spec (Parsing.certType cert) 1) as [E1 | N1]]; simpl.
    + intros H. bind_step H u1 Hpath. bind_step H u2 Hnone. bind_step H path Hparse.
      injection H as <-.
      apply check_true in Hnone.
      unfold Parsing.parseBIP32Path in Hparse. bind_step Hparse u3 Hvalid.
      destruct (Parsing.certPath cert) as [p |]; [| discriminate].
      injection Hparse as <-.
      destruct (Parsing.certPoolKeyHashHex cert); [discriminate |]. auto.
    + intros H. bind_step H u1 Hpath. bind_step H u2 Hnone. bind_step H path Hparse.
      injection H as <-.
      apply check_true in Hnone.
      unfold Parsing.parseBIP32Path in Hparse. bind_step Hparse u3 Hvalid.
      destruct (Parsing.certPath cert) as [p |]; [| discriminate].
      injection Hparse as <-.
      destruct (Parsing.certPoolKeyHashHex cert); [discriminate |]. auto.
    + destruct (Z.eqb_spec (Parsing.certType cert) 2) as [E2 | N2].
      * intros H. bind_step H u1 Hpath. bind_step H u2 Hhash.
        bind_step H path Hparse. bind_step H hash Hparsehash.
        injection H as <-.
        unfold Parsing.parseBIP32Path in Hparse. bind_step Hparse u3 Hvalid.
        destruct (Parsing.certPath cert) as [p |]; [| discriminate].
        injection Hparse as <-.
        apply parseHexStringOfLength_inr in Hparsehash as [-> Hhex]. auto.
      * destruct (Z.eqb_spec (Parsing.certType cert) 3) as [E3 | N3]; [| discriminate].
        destruct (Parsing.poolRegistrationParams cert) as [params |]; [| discriminate].
        intros H. bind_step H pool Hpool. injection H as <-. eauto.
  - intros path path' keyHash keyHash'. reflexivity.
Qed.

(** X7.  [parseCertificates] accepts a list exactly when every
    certificate parses and the list either holds no pool registration or
    has one element; what it returns has one parsed certificate per raw
    one, of the same type and in the same order.  The empty list is
    accepted. *)
Theorem parseCertificates_accepts_iff
  (lovelace bound : string) (certificates : list Parsing.Certificate) :
  (forall parsed,
      Parsing.parseCertificates lovelace bound certificates = inr parsed <->
      Js.mapM (Parsing.parseCertificate lovelace bound) certificates = inr parsed
      /\ (existsb Parsing.isPoolRegistration certificates = false
          \/ length certificates = 1))
  /\ (forall parsed,
         Parsing.parseCertificates lovelace bound certificates = inr parsed ->
         map Parsing.parsedType parsed = map Parsing.certType certificates)
  /\ Parsing.parseCertificates lovelace bound [] = inr [].
Proof.
  assert (Hiff : forall parsed,
             Parsing.parseCertificates lovelace bound certificates = inr parsed <->
             Js.mapM (Parsing.parseCertificate lovelace bound) certificates = inr parsed
             /\ (existsb Parsing.isPoolRegistration certificates = false
                 \/ length certificates = 1)).
  { intros parsed.
    destruct (Js.mapM (Parsing.parseCertificate lovelace bound) certificates)
      as [e | parsed'] eqn:Hmap.
    - rewrite (@parseCertificates_invalid _ _ _ _ Hmap).
      split; [discriminate | intros [H _]; discriminate].
    - rewrite (@parseCertificates_unfold _ _ _ _ Hmap).
      destruct (existsb Parsing.isPoolRegistration certificates); simpl.
      + destruct (Nat.eqb_spec (length certificates) 1) as [Hone | Hmore].
        * split; [intros H; split; [exact H | right; exact Hone] | intros [H _]; exact H].
        * split; [discriminate |].
          intros [_ [Hno | Hone]]; [discriminate | contradiction].
      + split; [intros H; split; [exact H | left; reflexivity] | intros [H _]; exact H]. }
  repeat apply conj.
  - exact Hiff.
  - intros parsed Hparsed. apply Hiff in Hparsed as [Hmap _].
    apply mapM_inr in Hmap. clear Hiff.
    induction Hmap as [| c p cs ps Hc _ IH]; [reflexivity |].
    simpl. rewrite IH, (@parseCertificate_type _ _ _ _ Hc). reflexivity.
  - reflexivity.
Qed.

(** ** [validateTransaction]: what an accepted transaction looks like *)

Section LoopFacts.

Context {E A : Type}.

Lemma forEachM_inr (f : A -> Js.Result E unit) (l : list A) (u : unit) :
  Js.forEachM f l = inr u -> Forall (fun x => f x = inr tt) l.
Proof.
  induction l as [| x rest IH]; simpl; intros H; [constructor |].
  destruct (f x) as [e | []] eqn:Hx; [discriminate |].
  constructor; auto.
Qed.

Lemma forEachM_related {B : Type} (f : A -> Js.Result E unit) (g : B -> Js.Result E unit)
  (R : A -> B -> Prop) (l : list A) (l' : list B) :
  (forall a b, R a b -> f a = g b) ->
  Forall2 R l l' -> Js.forEachM f l = Js.forEachM g l'.
Proof.
  intros Hfg. induction 1 as [| a b rest rest' Hab _ IH]; [reflexivity |].
  simpl. rewrite (Hfg a b Hab), IH. reflexivity.
Qed.

End LoopFacts.

Section TransactionFacts.

Import Utils Parsing.

Variable lovelace bound : string.
Variable serializeOutputBasicParams : TxOutput -> Network -> Checked unit.

Lemma validateInput_inr (signing : bool) (input : InputTypeUTxO) (u : unit) :
  validateInput signing input = inr u ->
  Precondition.isHexStringOfLength (txHashHex input) TX_HASH_LENGTH = true
  /\ (signing = true -> inputPath input = None).
Proof.
  unfold validateInput, Precondition.checkIsHexStringOfLength, Precondition.check.
  destruct (Precondition.isHexStringOfLength (txHashHex input) TX_HASH_LENGTH);
    simpl; [| discriminate].
  destruct signing; [| intros _; split; [reflexivity | discriminate]].
  destruct (inputPath input); [discriminate | auto].
Qed.

Lemma validateToken_inr (token : Token) (u : unit) :
  validateToken token = inr u ->
  Precondition.isHexString (assetNameHex token) = true
  /\ String.length (assetNameHex token) <= 64
  /\ Precondition.isValidUintStr (tokenAmountStr token) UINT64_MAX_STR = true.
Proof.
  unfold validateToken, Precondition.checkIsHexString, Precondition.checkIsUint64Str,
    Precondition.checkIsValidUintStr, Precondition.check.
  destruct (Precondition.isHexString (assetNameHex token)); simpl; [| discriminate].
  change (TOKEN_NAME_LENGTH * 2) with 64.
  destruct (Nat.leb_spec (String.length (assetNameHex token)) 64) as [Hle | Hgt];
    simpl; [| discriminate].
  destruct (Precondition.isValidUintStr (tokenAmountStr token) UINT64_MAX_STR);
    [auto | discriminate].
Qed.

Lemma validateAssetGroup_inr (assetGroup : AssetGroup) (u : unit) :
  validateAssetGroup assetGroup = inr u ->
  Precondition.isHexStringOfLength (policyIdHex assetGroup) 28 = true
  /\ length (tokens assetGroup) <= 1000
  /\ Forall (fun token =>
               Precondition.isHexString (assetNameHex token) = true
               /\ String.length (assetNameHex token) <= 64
               /\ Precondition.isValidUintStr (tokenAmountStr token) UINT64_MAX_STR = true)
       (tokens assetGroup).
Proof.
  unfold validateAssetGroup, Precondition.checkIsHexStringOfLength, Precondition.check.
  change TOKEN_POLICY_LENGTH with 28. change TOKENS_IN_GROUP_MAX with 1000.
  destruct (Precondition.isHexStringOfLength (policyIdHex assetGroup) 28);
    simpl; [| discriminate].
  destruct (Nat.leb_spec (length (tokens assetGroup)) 1000) as [Hle | Hgt];
    simpl; [| discriminate].
  intros H. apply forEachM_inr in H.
  repeat split; try assumption.
  eapply Forall_impl; [| exact H].
  intros token Htoken. exact (validateToken_inr token Htoken).
Qed.

Lemma validateOutput_inr (signing : bool) (network : Network) (output : TxOutput) (u : unit) :
  validateOutput serializeOutputBasicParams signing network output = inr u ->
  serializeOutputBasicParams output network = inr tt
  /\ (signing = true -> spendingPath output = None)
  /\ match tokenBundle output with
     | Some bundle => Reference.bundleWithinBounds bundle
     | None => True
     end.
Proof.
  unfold validateOutput. intros H.
  bind_step H u1 Hserialize. bind_step H u2 Hpath.
  destruct u1. split; [reflexivity |]. split.
  - intros ->. destruct (spendingPath output); [discriminate Hpath | reflexivity].
  - destruct (tokenBundle output) as [bundle |]; [| exact I].
    bind_step H u3 Hmany. apply check_true in Hmany. apply Nat.leb_le in Hmany.
    apply forEachM_inr in H. split; [exact Hmany |].
    eapply Forall_impl; [| exact H].
    intros assetGroup Hgroup. exact (validateAssetGroup_inr assetGroup Hgroup).
Qed.

End TransactionFacts.

Section AcceptedTransaction.

Import Utils Parsing.

Variable lovelace bound : string.
Variable serializeOutputBasicParams : TxOutput -> Network -> Checked unit.

(** An accepted transaction has passed every step of the validation. *)
Lemma validateTransaction_steps
  (network : Network) (inputs : list InputTypeUTxO) (outputs : list TxOutput)
  (feeStr : string) (ttlStr : option string) (certificates : list Certificate)
  (withdrawals : list Withdrawal) (metadataHashHex validityIntervalStartStr : option string)
  (u : unit) :
  validateTransaction lovelace bound serializeOutputBasicParams network inputs outputs
    feeStr ttlStr certificates withdrawals metadataHashHex validityIntervalStartStr = inr u ->
  Forall (fun input =>
            validateInput (existsb isPoolRegistration certificates) input = inr tt) inputs
  /\ Forall (fun output =>
               validateOutput serializeOutputBasicParams
                 (existsb isPoolRegistration certificates) network output = inr tt) outputs
  /\ Precondition.isValidUintStr feeStr lovelace = true
  /\ (exists parsed, parseCertificates lovelace bound certificates = inr parsed)
  /\ (existsb isPoolRegistration certificates = true -> withdrawals = [])
  /\ Forall (fun withdrawal => validateWithdrawal lovelace withdrawal = inr tt) withdrawals
  /\ match metadataHashHex with
     | Some h => Precondition.isHexStringOfLength h 32 = true
     | None => True
     end.
Proof.
  unfold validateTransaction. intros H.
  bind_step H u1 Hinputs. bind_step H u2 Houtputs. bind_step H u3 Hfee.
  bind_step H u4 Httl. bind_step H parsed Hcerts. bind_step H u5 Hforbidden.
  bind_step H u6 Hwithdrawals. bind_step H u7 Hmetadata.
  apply forEachM_inr in Hinputs, Houtputs, Hwithdrawals.
  apply check_true in Hfee.
  repeat split; try assumption.
  - exists parsed. reflexivity.
  - intros Hpool. rewrite Hpool in Hforbidden. simpl in Hforbidden.
    destruct withdrawals; [reflexivity | discriminate Hforbidden].
  - destruct metadataHashHex as [h |]; [| exact I].
    apply check_true in Hmetadata. exact Hmetadata.
Qed.

End AcceptedTransaction.

(** X8.  The rules of signing a pool registration as an owner, read off
    an accepted transaction: when [validateTransaction] accepts a
    transaction whose certificates hold a pool registration, that
    certificate is the only one, no input carries a path, no output
    carries a spending path and there is no withdrawal. *)
Theorem validateTransaction_pool_registration_rules
  (lovelace bound : string)
  (serializeOutputBasicParams : Parsing.TxOutput -> Parsing.Network -> Checked unit)
  (network : Parsing.Network)
  (inputs : list Parsing.InputTypeUTxO) (outputs : list Parsing.TxOutput)
  (feeStr : string) (ttlStr : option string)
  (certificates : list Parsing.Certificate) (withdrawals : list Parsing.Withdrawal)
  (metadataHashHex validityIntervalStartStr : option string) :
  Parsing.validateTransaction lovelace bound serializeOutputBasicParams network inputs outputs
    feeStr ttlStr certificates withdrawals metadataHashHex validityIntervalStartStr = inr tt ->
  existsb Parsing.isPoolRegistration certificates = true ->
  length certificates = 1
  /\ Forall (fun input => Parsing.inputPath input = None) inputs
  /\ Forall (fun output => Parsing.spendingPath output = None) outputs
  /\ withdrawals = [].
Proof.
  intros Hvalid Hpool.
  apply validateTransaction_steps in Hvalid
    as (Hinputs & Houtputs & _ & [parsed Hcerts] & Hwithdrawals & _).
  rewrite Hpool in Hinputs, Houtputs.
  repeat split.
  - destruct (Js.mapM (Parsing.parseCertificate lovelace bound) certificates)
      as [e | parsed'] eqn:Hmap.
    + rewrite (@parseCertificates_invalid _ _ _ _ Hmap) in Hcerts. discriminate Hcerts.
    + rewrite (@parseCertificates_unfold _ _ _ _ Hmap), Hpool in Hcerts. simpl in Hcerts.
      destruct (Nat.eqb_spec (length certificates) 1) as [Hone | Hmore];
        [exact Hone | discriminate Hcerts].
  - eapply Forall_impl; [| exact Hinputs].
    intros input Hinput. apply validateInput_inr in Hinput as [_ Hpath]. auto.
  - eapply Forall_impl; [| exact Houtputs].
    intros output Houtput.
    apply validateOutput_inr in Houtput as (_ & Hpath & _). auto.
  - auto.
Qed.

(** A pool registration signed as an owner: one input without path, one
    output given by address, no withdrawal. *)
Lemma validateTransaction_pool_registration_rules_witness :
  Parsing.validateTransaction Samples.lovelaceSupply Samples.marginBound
    Samples.acceptValidAmount Samples.mainnet
    [Samples.inputNoPath] [Samples.outputNoPath] "42"%string (Some "10"%string)
    [Samples.poolRegistration] [] None None = inr tt
  /\ length [Samples.poolRegistration] = 1
  /\ Forall (fun input => Parsing.inputPath input = None) [Samples.inputNoPath].
Proof.
  assert (Hvalid : Parsing.validateTransaction Samples.lovelaceSupply Samples.marginBound
                     Samples.acceptValidAmount Samples.mainnet
                     [Samples.inputNoPath] [Samples.outputNoPath] "42"%string
                     (Some "10"%string) [Samples.poolRegistration] [] None None = inr tt)
    by (vm_compute; reflexivity).
  split; [exact Hvalid |].
  pose proof (@validateTransaction_pool_registration_rules _ _ _ _ _ _ _ _ _ _ _ _
                Hvalid eq_refl) as (Hone & Hinputs & _).
  split; [exact Hone | exact Hinputs].
Defined.

(** X9.  Every transaction [validateTransaction] accepts is within the
    bounds: each input has a 32-byte transaction hash; each output has
    passed [serializeOutputBasicParams] and its token bundle, when it has
    one, has at most 1000 asset groups with 28-byte policy ids, at most
    1000 tokens a group, asset names of at most 32 bytes and unsigned
    64-bit amounts; the fee is within the lovelace supply; the
    certificates parse; and the metadata hash, when given, has 32 bytes. *)
Theorem validateTransaction_accepted_within_bounds
  (lovelace bound : string)
  (serializeOutputBasicParams : Parsing.TxOutput -> Parsing.Network -> Checked unit)
  (network : Parsing.Network)
  (inputs : list Parsing.InputTypeUTxO) (outputs : list Parsing.TxOutput)
  (feeStr : string) (ttlStr : option string)
  (certificates : list Parsing.Certificate) (withdrawals : list Parsing.Withdrawal)
  (metadataHashHex validityIntervalStartStr : option string) :
  Parsing.validateTransaction lovelace bound serializeOutputBasicParams network inputs outputs
    feeStr ttlStr certificates withdrawals metadataHashHex validityIntervalStartStr = inr tt ->
  Forall (fun input =>
            Utils.Precondition.isHexStringOfLength (Parsing.txHashHex input) 32 = true)
    inputs
  /\ Forall (fun output =>
               serializeOutputBasicParams output network = inr tt
               /\ match Parsing.tokenBundle output with
                  | Some bundle => Reference.bundleWithinBounds bundle
                  | None => True
                  end)
       outputs
  /\ Utils.Precondition.isValidUintStr feeStr lovelace = true
  /\ Js.isOk (Parsing.parseCertificates lovelace bound certificates) = true
  /\ Forall (fun withdrawal =>
               Utils.Precondition.isValidUintStr (Parsing.withdrawalAmountStr withdrawal)
                 lovelace = true
               /\ exists path,
                   Parsing.withdrawalPath withdrawal = Some path
                   /\ Utils.Precondition.isValidPath path = true)
       withdrawals
  /\ match metadataHashHex with
     | Some h => Utils.Precondition.isHexStringOfLength h 32 = true
     | None => True
     end.
Proof.
  intros Hvalid.
  apply validateTransaction_steps in Hvalid
    as (Hinputs & Houtputs & Hfee & [parsed Hcerts] & _ & Hwithdrawals & Hmetadata).
  repeat split; try assumption.
  - eapply Forall_impl; [| exact Hinputs].
    intros input Hinput. apply validateInput_inr in Hinput as [Hhash _]. exact Hhash.
  - eapply Forall_impl; [| exact Houtputs].
    intros output Houtput.
    apply validateOutput_inr in Houtput as (Hserialize & _ & Hbundle). auto.
  - rewrite Hcerts. reflexivity.
  - eapply Forall_impl; [| exact Hwithdrawals].
    intros withdrawal Hw. unfold Parsing.validateWithdrawal in Hw.
    bind_step Hw u1 Hamount. apply check_true in Hamount, Hw.
    split; [exact Hamount |].
    destruct (Parsing.withdrawalPath withdrawal) as [path |]; [eauto | discriminate].
Qed.

(** A transaction with a token bundle of one group and one token. *)
Lemma validateTransaction_accepted_within_bounds_witness :
  Parsing.validateTransaction Samples.lovelaceSupply Samples.marginBound
    Samples.acceptValidAmount Samples.mainnet
    [Samples.inputWithPath] [Samples.outputWithTokens] "42"%string None
    [Samples.stakeRegistration] [Samples.withdrawal] (Some Samples.hash32) None = inr tt
  /\ Forall (fun output =>
               Samples.acceptValidAmount output Samples.mainnet = inr tt
               /\ match Parsing.tokenBundle output with
                  | Some bundle => Reference.bundleWithinBounds bundle
                  | None => True
                  end)
       [Samples.outputWithTokens].
Proof.
  assert (Hvalid : Parsing.validateTransaction Samples.lovelaceSupply Samples.marginBound
                     Samples.acceptValidAmount Samples.mainnet
                     [Samples.inputWithPath] [Samples.outputWithTokens] "42"%string None
                     [Samples.stakeRegistration] [Samples.withdrawal]
                     (Some Samples.hash32) None = inr tt)
    by (vm_compute; reflexivity).
  split; [exact Hvalid |].
  exact (proj1 (proj2 (@validateTransaction_accepted_within_bounds _ _ _ _ _ _ _ _ _ _ _ _
                         Hvalid))).
Defined.

(** X10.  [validateTransaction] reads of an input its transaction hash
    and whether it carries a path, and nothing else: two lists of inputs
    that agree on these give the same verdict, whatever the output
    indexes and whatever the paths hold. *)
Theorem validateTransaction_ignores_output_index
  (lovelace bound : string)
  (serializeOutputBasicParams : Parsing.TxOutput -> Parsing.Network -> Checked unit)
  (network : Parsing.Network)
  (inputs inputs' : list Parsing.InputTypeUTxO) (outputs : list Parsing.TxOutput)
  (feeStr : string) (ttlStr : option string)
  (certificates : list Parsing.Certificate) (withdrawals : list Parsing.Withdrawal)
  (metadataHashHex validityIntervalStartStr : option string) :
  Forall2 (fun a b =>
             Parsing.txHashHex a = Parsing.txHashHex b
             /\ (Parsing.inputPath a = None <-> Parsing.inputPath b = None))
    inputs inputs' ->
  Parsing.validateTransaction lovelace bound serializeOutputBasicParams network inputs outputs
    feeStr ttlStr certificates withdrawals metadataHashHex validityIntervalStartStr
  = Parsing.validateTransaction lovelace bound serializeOutputBasicParams network inputs'
      outputs feeStr ttlStr certificates withdrawals metadataHashHex validityIntervalStartStr.
Proof.
  intros Hagree. unfold Parsing.validateTransaction.
  assert (Hinputs :
            Js.forEachM (Parsing.validateInput
                           (existsb Parsing.isPoolRegistration certificates)) inputs
            = Js.forEachM (Parsing.validateInput
                             (existsb Parsing.isPoolRegistration certificates)) inputs').
  { apply forEachM_related with (2 := Hagree).
    intros a b [Hhash Hpath]. unfold Parsing.validateInput. rewrite Hhash.
    destruct (Parsing.inputPath a) as [pa |], (Parsing.inputPath b) as [pb |];
      try reflexivity.
    - destruct Hpath as [_ Hpath]. discriminate (Hpath eq_refl).
    - destruct Hpath as [Hpath _]. discriminate (Hpath eq_refl). }
  rewrite Hinputs. reflexivity.
Qed.

(** An output index of -5 and an empty path pass where 0 and a full path
    do. *)
Lemma validateTransaction_ignores_output_index_witness :
  Parsing.validateTransaction Samples.lovelaceSupply Samples.marginBound
    Samples.acceptValidAmount Samples.mainnet
    [Samples.inputWithPath] [Samples.outputNoPath] "42"%string None [] [] None None
  = Parsing.validateTransaction Samples.lovelaceSupply Samples.marginBound
      Samples.acceptValidAmount Samples.mainnet
      [Parsing.mkInput Samples.hash32 (-5) (Some [])] [Samples.outputNoPath]
      "42"%string None [] [] None None.
Proof.
  apply validateTransaction_ignores_output_index.
  constructor; [| constructor].
  split; [reflexivity |].
  split; intros H; discriminate H.
Defined.

(** ** Relays *)

Lemma printable_is_ascii7 (cs : list ascii) :
  forallb Parsing.isPrintableAscii cs = true -> forallb Parsing.isAscii7 cs = true.
Proof.
  induction cs as [| c rest IH]; simpl; [reflexivity |].
  rewrite !andb_true_iff. intros [Hc Hrest]. split; [| auto].
  unfold Parsing.isPrintableAscii in Hc. unfold Parsing.isAscii7.
  apply andb_true_iff in Hc as [_ Hc]. apply Nat.leb_le in Hc. apply Nat.leb_le. lia.
Qed.

(** The three tests of [parseDnsName] come to two. *)
Lemma parseDnsName_accepts_iff_printable_aux (dnsName : option string) (err : TxErrors) :
  Parsing.parseDnsName dnsName err
  = match dnsName with
    | Some name =>
        if (String.length name <=? 64)
           && forallb Parsing.isPrintableAscii (Js.chars name)
        then inr name
        else inl (Error (Some err))
    | None => inl (Error (Some err))
    end.
Proof.
  unfold Parsing.parseDnsName, Utils.Precondition.checkIsString, Utils.Precondition.check.
  destruct dnsName as [name |]; [| reflexivity]. simpl.
  destruct (String.length name <=? 64); simpl; [| reflexivity].
  destruct (forallb Parsing.isPrintableAscii (Js.chars name)) eqn:Hprintable.
  - rewrite (printable_is_ascii7 _ Hprintable). reflexivity.
  - destruct (forallb Parsing.isAscii7 (Js.chars name)); reflexivity.
Qed.

(** X11.  [parseDnsName] accepts a name exactly when it is present, has
    at most 64 characters and consists of printable ASCII characters (codes
    32 to 126); it returns the name unchanged and otherwise throws the
    error it was given.  The test against [/^[\x00-\x7F]*$/] never decides:
    a name that passes the printable test passes it too, and one that
    fails it fails with the same error. *)
Theorem parseDnsName_accepts_iff_printable (dnsName : option string) (err : TxErrors) :
  Parsing.parseDnsName dnsName err
  = match dnsName with
    | Some name =>
        if (String.length name <=? 64)
           && forallb Parsing.isPrintableAscii (Js.chars name)
        then inr name
        else inl (Error (Some err))
    | None => inl (Error (Some err))
    end
  /\ (forall name : string,
         forallb Parsing.isPrintableAscii (Js.chars name) = true ->
         forallb Parsing.isAscii7 (Js.chars name) = true).
Proof.
  split.
  - apply parseDnsName_accepts_iff_printable_aux.
  - intros name Hprintable. apply printable_is_ascii7. exact Hprintable.
Qed.

Lemma parsePort_inr (portNumber : Z) (err : TxErrors) (port : Z) :
  Parsing.parsePort portNumber err = inr port ->
  port = portNumber /\ (0 <= port <= 65535)%Z.
Proof.
  unfold Parsing.parsePort, Utils.Precondition.checkIsUint32, Utils.Precondition.check.
  destruct (Z.leb_spec 0 portNumber) as [Hlow | Hlow]; simpl; [| discriminate].
  destruct (Z.leb_spec portNumber 4294967295) as [H32 | H32]; simpl; [| discriminate].
  destruct (Z.leb_spec portNumber 65535) as [H16 | H16]; simpl; [| discriminate].
  intros H. injection H as <-. lia.
Qed.

Lemma parseOptional_port_inr (field : option Z) (err : TxErrors) (port : option Z) :
  Parsing.parseOptional (fun n => Parsing.parsePort n err) field = inr port ->
  port = field /\ match port with Some p => (0 <= p <= 65535)%Z | None => True end.
Proof.
  unfold Parsing.parseOptional. destruct field as [n |]; intros H.
  - bind_step H p Hp. injection H as <-.
    apply parsePort_inr in Hp as [-> Hrange]. auto.
  - injection H as <-. auto.
Qed.

Lemma parseOptional_present {A B : Type} (parse : A -> Checked B) (field : option A)
  (r : option B) :
  Parsing.parseOptional parse field = inr r -> (r = None <-> field = None).
Proof.
  unfold Parsing.parseOptional. destruct field as [v |]; intros H.
  - bind_step H b Hb. injection H as <-. split; discriminate.
  - injection H as <-. split; reflexivity.
Qed.

Lemma parseDnsName_inr (dnsName : option string) (err : TxErrors) (name : string) :
  Parsing.parseDnsName dnsName err = inr name -> dnsName = Some name.
Proof.
  rewrite parseDnsName_accepts_iff_printable_aux.
  destruct dnsName as [s |]; [| discriminate].
  destruct (_ && _); [| discriminate].
  intros H. injection H as <-. reflexivity.
Qed.

(** X12.  [parsePoolRelayParams] by type: a type other than the three
    relay types is refused with the invalid-type reason; a parsed relay is
    of the variant its type names, with the port of the request, between 0
    and 65535, and with an address exactly where the request has one.  The
    fields of the other variants are never looked at: a DNS name beside a
    single-host address, addresses beside a host name, and a port or
    addresses beside a multi-host name change nothing. *)
Theorem parsePoolRelayParams_by_type
  (relayType : Z) (portNumber : option Z) (ipv4 ipv6 dnsName : option string) :
  (relayType <> 0%Z -> relayType <> 1%Z -> relayType <> 2%Z ->
   Parsing.parsePoolRelayParams
     (Parsing.mkRelayParams relayType (Parsing.mkRelayFields portNumber ipv4 ipv6 dnsName))
   = inl (Error (Some CERTIFICATE_POOL_RELAY_INVALID_TYPE)))
  /\ (forall parsed,
         Parsing.parsePoolRelayParams
           (Parsing.mkRelayParams relayType
              (Parsing.mkRelayFields portNumber ipv4 ipv6 dnsName)) = inr parsed ->
         match parsed with
         | Parsing.ParsedSingleHostAddr port v4 v6 =>
             relayType = 0%Z /\ port = portNumber
             /\ match port with Some p => (0 <= p <= 65535)%Z | None => True end
             /\ (v4 = None <-> ipv4 = None) /\ (v6 = None <-> ipv6 = None)
         | Parsing.ParsedSingleHostName port name =>
             relayType = 1%Z /\ port = portNumber
             /\ match port with Some p => (0 <= p <= 65535)%Z | None => True end
             /\ dnsName = Some name
         | Parsing.ParsedMultiHostName name =>
             relayType = 2%Z /\ dnsName = Some name
         end)
  /\ (forall dnsName',
         Parsing.parsePoolRelayParams
           (Parsing.mkRelayParams 0 (Parsing.mkRelayFields portNumber ipv4 ipv6 dnsName))
         = Parsing.parsePoolRelayParams
             (Parsing.mkRelayParams 0 (Parsing.mkRelayFields portNumber ipv4 ipv6 dnsName')))
  /\ (forall ipv4' ipv6',
         Parsing.parsePoolRelayParams
           (Parsing.mkRelayParams 1 (Parsing.mkRelayFields portNumber ipv4 ipv6 dnsName))
         = Parsing.parsePoolRelayParams
             (Parsing.mkRelayParams 1 (Parsing.mkRelayFields portNumber ipv4' ipv6' dnsName)))
  /\ (forall portNumber' ipv4' ipv6',
         Parsing.parsePoolRelayParams
           (Parsing.mkRelayParams 2 (Parsing.mkRelayFields portNumber ipv4 ipv6 dnsName))
         = Parsing.parsePoolRelayParams
             (Parsing.mkRelayParams 2
                (Parsing.mkRelayFields portNumber' ipv4' ipv6' dnsName))).
Proof.
  repeat apply conj.
  - intros H0 H1 H2. unfold Parsing.parsePoolRelayParams. simpl.
    apply Z.eqb_neq in H0, H1, H2.
    unfold Parsing.RelayType.SingleHostAddr, Parsing.RelayType.SingleHostName,
      Parsing.RelayType.MultiHostName.
    rewrite H0, H1, H2. reflexivity.
  - intros parsed. unfold Parsing.parsePoolRelayParams. simpl.
    unfold Parsing.RelayType.SingleHostAddr, Parsing.RelayType.SingleHostName,
      Parsing.RelayType.MultiHostName.
    destruct (Z.eqb_spec relayType 0) as [E0 | N0].
    + intros H. bind_step H port Hport. bind_step H v4 Hv4. bind_step H v6 Hv6.
      injection H as <-.
      apply parseOptional_port_inr in Hport as [-> Hrange].
      apply parseOptional_present in Hv4, Hv6. auto.
    + destruct (Z.eqb_spec relayType 1) as [E1 | N1].
      * intros H. bind_step H port Hport. bind_step H name Hname.
        injection H as <-.
        apply parseOptional_port_inr in Hport as [-> Hrange].
        apply parseDnsName_inr in Hname. auto.
      * destruct (Z.eqb_spec relayType 2) as [E2 | N2]; [| discriminate].
        intros H. bind_step H name Hname. injection H as <-.
        apply parseDnsName_inr in Hname. auto.
  - intros dnsName'. reflexivity.
  - intros ipv4' ipv6'. reflexivity.
  - intros portNumber' ipv4' ipv6'. reflexivity.
Qed.

(** X13.  An address [parseIPv4] accepts has exactly four dot-separated
    parts and the buffer it returns has four bytes, each between 0 and
    255; a string with another number of parts is refused with the error
    given. *)
Theorem parseIPv4_four_octets (ipv4 : string) (err : TxErrors) :
  (forall bytes,
      Parsing.parseIPv4 ipv4 err = inr bytes ->
      length (Js.split "."%char ipv4) = 4
      /\ length bytes = 4
      /\ Forall (fun b => (0 <= b <= 255)%Z) bytes)
  /\ (length (Js.split "."%char ipv4) <> 4 ->
      Parsing.parseIPv4 ipv4 err = inl (Error (Some err))).
Proof.
  unfold Parsing.parseIPv4, Utils.Precondition.checkIsString, Utils.Precondition.check.
  simpl. split.
  - intros bytes H.
    destruct (Nat.eqb_spec (length (Js.split "."%char ipv4)) 4) as [Hfour | Hother];
      simpl in H; [| discriminate].
    split; [exact Hfour |].
    pose proof (mapM_length _ _ H) as Hlen. split; [lia |].
    apply mapM_inr in H. clear Hfour Hlen.
    induction H as [| part b parts bs Hpart _ IH]; constructor; [| exact IH].
    bind_step Hpart octet Hparsed. bind_step Hpart u1 Hoctet. injection Hpart as <-.
    unfold Utils.Precondition.checkIsUint8, Utils.Precondition.check in Hoctet.
    destruct (Z.leb_spec 0 octet) as [Hlow | Hlow]; simpl in Hoctet; [| discriminate].
    destruct (Z.leb_spec octet 255) as [Hhigh | Hhigh]; simpl in Hoctet; [| discriminate].
    lia.
  - intros Hother. apply Nat.eqb_neq in Hother. rewrite Hother. reflexivity.
Qed.

(** ** The other methods of the legacy class *)

Section LegacyFacts.

Import Utils Legacy.

Lemma length_slice (buf : Buffer) (start stop : nat) :
  length (slice buf start stop) = Nat.min (stop - start) (length buf - start).
Proof.
  unfold slice. rewrite length_firstn, length_skipn. reflexivity.
Qed.

Lemma slice_app_middle (before middle after : Buffer) :
  slice (before ++ middle ++ after) (length before) (length before + length middle) = middle.
Proof.
  unfold slice. rewrite skipn_app, skipn_all, Nat.sub_diag. simpl.
  replace (length before + length middle - length before) with (length middle + 0) by lia.
  rewrite firstn_app_2. simpl. apply app_nil_r.
Qed.

Lemma length_toHexString (buf : Buffer) :
  String.length (toHexString buf) = 2 * length buf.
Proof.
  induction buf as [| b rest IH]; simpl; [reflexivity | rewrite IH; lia].
Qed.

Lemma hexDigit_round_trip (n : Z) :
  (0 <= n < 16)%Z -> isHexChar (hexDigit n) = true /\ hexValue (hexDigit n) = n.
Proof.
  intros Hn.
  assert (Hall : forallb (fun k => isHexChar (hexDigit (Z.of_nat k))
                                   && (hexValue (hexDigit (Z.of_nat k)) =? Z.of_nat k)%Z)
                   (seq 0 16) = true) by reflexivity.
  rewrite forallb_forall in Hall.
  specialize (Hall (Z.to_nat n)). rewrite Z2Nat.id in Hall by lia.
  assert (Hin : In (Z.to_nat n) (seq 0 16)) by (apply in_seq; lia).
  apply Hall, andb_true_iff in Hin. destruct Hin as [Hchar Hvalue].
  apply Z.eqb_eq in Hvalue. split; assumption.
Qed.

(** Decoding the hex form of a buffer of bytes gives the buffer back. *)
Lemma bufferFromHex_toHexString (buf : Buffer) :
  Forall (fun b => (0 <= b <= 255)%Z) buf -> bufferFromHex (toHexString buf) = buf.
Proof.
  unfold bufferFromHex, Js.chars.
  induction 1 as [| b rest Hb _ IH]; [reflexivity |].
  cbn [toHexString list_ascii_of_string decodeHex].
  assert (Hhi : (0 <= b / 16 < 16)%Z)
    by (split; [apply Z.div_pos; lia | apply Z.div_lt_upper_bound; lia]).
  assert (Hlo : (0 <= b mod 16 < 16)%Z) by (apply Z.mod_pos_bound; lia).
  destruct (hexDigit_round_trip Hhi) as [Hhi1 Hhi2].
  destruct (hexDigit_round_trip Hlo) as [Hlo1 Hlo2].
  rewrite Hhi1, Hlo1, Hhi2, Hlo2, IH. simpl. f_equal.
  pose proof (Z.div_mod b 16). lia.
Qed.

Lemma readUInt32LE_inside (E : Type) (res : Buffer) (offset : nat) :
  offset + 4 <= length res -> exists value, @readUInt32LE E res offset = inr value.
Proof.
  intros Hinside. unfold readUInt32LE.
  pose proof (length_slice res offset (offset + 4)) as Hlen.
  replace (Nat.min (offset + 4 - offset) (length res - offset)) with 4 in Hlen by lia.
  destruct (slice res offset (offset + 4)) as [| b0 [| b1 [| b2 [| b3 [| b4 rest]]]]];
    try discriminate Hlen.
  eauto.
Qed.

Lemma readUInt32LE_outside (E : Type) (res : Buffer) (offset : nat) :
  length res < offset + 4 -> @readUInt32LE E res offset = inl RangeError.
Proof.
  intros Houtside. unfold readUInt32LE.
  pose proof (length_slice res offset (offset + 4)) as Hlen.
  destruct (slice res offset (offset + 4)) as [| b0 [| b1 [| b2 [| b3 [| b4 rest]]]]];
    try reflexivity.
  simpl in Hlen. lia.
Qed.

Lemma length_hexDigits (width : nat) :
  forall (n : Z) (acc : string),
    String.length (hexDigits width n acc) = width + String.length acc.
Proof.
  induction width as [| w IH]; intros n acc; simpl; [reflexivity |].
  rewrite IH. simpl. lia.
Qed.

(** The entries of a response that holds them all. *)
Lemma readTxs_complete (E : Type) (res : Buffer) :
  forall (count offset : nat),
    offset + 20 * count <= length res ->
    exists txs,
      @readTxs E count res offset = inr txs
      /\ length txs = count
      /\ Forall (fun tx => length (address tx) = 12 /\ String.length (amount tx) = 16) txs.
Proof.
  induction count as [| n IH]; intros offset Hfits.
  - exists []. simpl. auto.
  - cbn [readTxs]. unfold MAX_ADDR_PRINT_LENGTH.
    destruct (@readUInt32LE_inside E res (offset + 12 + 4)) as [hi Hhi]; [lia |].
    destruct (@readUInt32LE_inside E res (offset + 12)) as [lo Hlo]; [lia |].
    destruct (IH (offset + 12 + 8)) as (txs & Hrest & Hcount & Hshape); [lia |].
    rewrite Hhi, Hlo, Hrest.
    eexists. split; [reflexivity |]. split; [simpl; lia |].
    constructor; [| exact Hshape]. cbn [address amount]. split.
    + rewrite length_slice. lia.
    + unfold toOctetString. rewrite length_hexDigits. reflexivity.
Qed.

(** A response that ends before its last entry. *)
Lemma readTxs_truncated (E : Type) (res : Buffer) :
  forall (count offset : nat),
    0 < count ->
    length res < offset + 20 * count ->
    @readTxs E count res offset = inl RangeError.
Proof.
  induction count as [| n IH]; intros offset Hsome Hshort; [lia |].
  cbn [readTxs]. unfold MAX_ADDR_PRINT_LENGTH.
  destruct (le_lt_dec (offset + 20) (length res)) as [Hfirst | Hfirst].
  - destruct (@readUInt32LE_inside E res (offset + 12 + 4)) as [hi Hhi]; [lia |].
    destruct (@readUInt32LE_inside E res (offset + 12)) as [lo Hlo]; [lia |].
    rewrite Hhi, Hlo, (IH (offset + 12 + 8)) by lia. reflexivity.
  - rewrite (@readUInt32LE_outside E res (offset + 12 + 4)) by lia. reflexivity.
Qed.

End LegacyFacts.

Section LegacyMethods.

Import Utils Legacy.

(** X14.  [getWalletPublicKeyWithIndex] of the legacy class: an index that
    is not a number is refused with the status 0x5003 and an index outside
    the unsigned 32-bit range with a [RangeError], in both cases before
    anything is sent; for every other index exactly one frame is sent, with
    CLA 0x80, INS_GET_PUBLIC_KEY, P1 = 2, P2 = 0, and its data are four
    bytes that spell the index in big-endian order. *)
Theorem getWalletPublicKeyWithIndex_request (Device E : Type) (send : Transport Device E)
  (toError : Z -> E) (index : JsNumber) (d : Device) :
  let outcome := getWalletPublicKeyWithIndex (logged send) toError index (d, []) in
  match index with
  | NaN => outcome = (inl (TransportThrew (toError 20483%Z)), (d, []))
  | Num value =>
      if ((0 <=? value) && (value <=? 4294967295))%Z
      then exists bytes,
             sentBy outcome = [mkApdu CLA INS_GET_PUBLIC_KEY 2 0 bytes]
             /\ length bytes = 4
             /\ Forall (fun b => (0 <= b <= 255)%Z) bytes
             /\ bigEndian bytes = value
      else outcome = (inl RangeError, (d, []))
  end.
Proof.
  destruct index as [| value]; cbn zeta; [reflexivity |].
  unfold getWalletPublicKeyWithIndex, writeUInt32BE.
  destruct ((0 <=? value) && (value <=? 4294967295))%Z eqn:Hrange; [| reflexivity].
  apply andb_true_iff in Hrange. destruct Hrange as [Hlow Hhigh].
  apply Z.leb_le in Hlow. apply Z.leb_le in Hhigh.
  exists [(value / 16777216)%Z; ((value / 65536) mod 256)%Z;
          ((value / 256) mod 256)%Z; (value mod 256)%Z].
  split; [| split; [reflexivity | split]].
  - unfold logged, sentBy. cbn [fst snd].
    destruct (send _ d) as [[e | response] d1]; reflexivity.
  - repeat constructor; try (apply Z.mod_pos_bound; lia);
      try (apply Z.div_pos; lia);
      try (pose proof (Z.mod_pos_bound (value / 65536) 256);
           pose proof (Z.mod_pos_bound (value / 256) 256);
           pose proof (Z.mod_pos_bound value 256); lia).
    assert (value / 16777216 < 256)%Z by (apply Z.div_lt_upper_bound; lia). lia.
  - unfold bigEndian. cbn [fold_left].
    Z.div_mod_to_equations. lia.
Qed.

(** X15.  [getWalletRecoveryPassphrase] reads its answer by position: the
    first byte is the length of the key, the key follows and the 32 bytes
    after it are the chain code, both returned in hex.  A response that is
    too short for what its first byte announces is not refused: the two
    fields are the bytes that are there, so the key has
    [2 * min len (L - 1)] characters and the chain code
    [2 * min 32 (L - 1 - len)]. *)
Theorem getWalletRecoveryPassphrase_layout (Device E : Type) (send : Transport Device E)
  (d d1 : Device) (response : Buffer) :
  send (mkApdu CLA INS_GET_PUBLIC_KEY 1 0 []) d = (inr response, d1) ->
  exists key,
    getWalletRecoveryPassphrase send d = (inr key, d1)
    /\ String.length (publicKey key)
       = 2 * Nat.min (Z.to_nat (nth 0 response 0%Z)) (length response - 1)
    /\ String.length (chainCode key)
       = 2 * Nat.min 32 (length response - (1 + Z.to_nat (nth 0 response 0%Z)))
    /\ (forall key_bytes chain_bytes rest,
          response = Z.of_nat (length key_bytes) :: key_bytes ++ chain_bytes ++ rest ->
          length chain_bytes = 32 ->
          key = mkWalletKey (toHexString key_bytes) (toHexString chain_bytes)).
Proof.
  intros Hanswer. unfold getWalletRecoveryPassphrase. rewrite Hanswer.
  eexists. split; [reflexivity |]. cbn [publicKey chainCode].
  rewrite !length_toHexString, !length_slice.
  split; [f_equal; lia |]. split; [f_equal; lia |].
  intros key_bytes chain_bytes rest -> Hchain.
  cbn [nth]. rewrite Nat2Z.id. f_equal; f_equal.
  - exact (slice_app_middle [Z.of_nat (length key_bytes)] key_bytes (chain_bytes ++ rest)).
  - rewrite <- Hchain.
    exact (slice_app_middle (Z.of_nat (length key_bytes) :: key_bytes) chain_bytes rest).
Qed.

(** At a device that answers with a two-byte key. *)
Lemma getWalletRecoveryPassphrase_layout_witness :
  exists key,
    getWalletRecoveryPassphrase Samples.answersRootKey tt = (inr key, tt)
    /\ String.length (publicKey key) = 4
    /\ String.length (chainCode key) = 64.
Proof.
  destruct (@getWalletRecoveryPassphrase_layout unit unit Samples.answersRootKey tt tt
              Samples.rootKey eq_refl) as (key & Hrun & Hkey & Hchain & _).
  exists key. split; [exact Hrun |]. split; [exact Hkey | exact Hchain].
Defined.

(** X16.  [setTransaction] takes its payload in hex: handed the hex form
    ([toString("hex")]) of a buffer of bytes it runs exactly as the chunk
    loop on those bytes, so what is proved of the frames in terms of the
    byte payload holds of the hex string handed in. *)
Theorem setTransaction_decodes_hex (Device E : Type) (send : Transport Device E)
  (rawTx : Buffer) (d : Device) :
  Forall (fun b => (0 <= b <= 255)%Z) rawTx ->
  bufferFromHex (toHexString rawTx) = rawTx
  /\ setTransaction send (toHexString rawTx) d = setTransactionRaw send rawTx d.
Proof.
  intros Hbytes. unfold setTransaction.
  rewrite (bufferFromHex_toHexString Hbytes). split; reflexivity.
Qed.

(** At a payload of 59 bytes. *)
Lemma setTransaction_decodes_hex_witness :
  String.length (toHexString Samples.payload59) = 118
  /\ setTransaction Samples.acknowledge (toHexString Samples.payload59) tt
     = setTransactionRaw Samples.acknowledge Samples.payload59 tt.
Proof.
  split; [reflexivity |].
  apply (@setTransaction_decodes_hex unit unit Samples.acknowledge Samples.payload59 tt).
  unfold Samples.payload59. apply Forall_forall. intros b Hin.
  apply repeat_spec in Hin. subst b. lia.
Defined.

(** X17.  What [setTransaction] reads from one response of the device: a
    response of at most four bytes leaves the summary as it was; a longer
    one is read as the two counts followed by [outputs] entries of 20
    bytes, a 12-byte address and an amount printed as 16 hex digits, and a
    response that ends before its last entry makes the read of the amount
    throw a [RangeError]. *)
Theorem readSummary_layout (E : Type) (res : Buffer) (previous : option Summary) :
  if 4 <? length res
  then
    if 2 + 20 * Z.to_nat (nth 1 res 0%Z) <=? length res
    then exists entries,
           @readSummary E res previous
           = inr (Some (mkSummary (nth 0 res 0%Z) (nth 1 res 0%Z) entries))
           /\ length entries = Z.to_nat (nth 1 res 0%Z)
           /\ Forall (fun tx => length (address tx) = 12 /\ String.length (amount tx) = 16)
                entries
    else @readSummary E res previous = inl RangeError
  else @readSummary E res previous = inr previous.
Proof.
  unfold readSummary.
  destruct (4 <? length res) eqn:Hlong; [| reflexivity].
  destruct (Nat.leb_spec (2 + 20 * Z.to_nat (nth 1 res 0%Z)) (length res)) as [Hfits | Hshort].
  - destruct (@readTxs_complete E res (Z.to_nat (nth 1 res 0%Z)) 2 Hfits)
      as (entries & Hread & Hcount & Hshape).
    rewrite Hread. exists entries. auto.
  - apply Nat.ltb_lt in Hlong.
    rewrite (@readTxs_truncated E res (Z.to_nat (nth 1 res 0%Z)) 2) by lia.
    reflexivity.
Qed.

End LegacyMethods.

(** ** Failures of the transport and the wrapper of [getVersion] *)

Section TransportFailures.

Import Utils AdaApi.

(** What [_send] throws when the transport throws. *)
Lemma send_failed (Device : Type) (transport : TransportSend Device) (params : SendParams)
  (d d1 : Device) (e : JsError) :
  transport (frameOf params) d = (inl e, d1) ->
  _send transport params d
  = (inl (match statusCode e with
          | Some c => DeviceStatusError c
          | None => e
          end), d1).
Proof.
  intros Hfails. unfold _send, wrapConvertDeviceStatusError.
  fold (frameOf params). rewrite Hfails.
  destruct (statusCode e); reflexivity.
Qed.

(** X18.  How a failure of the transport on the first request of an
    operation reaches the caller.  An error with a numeric status code is
    rethrown as a device status error with that code, any other error as it
    is.  An error without status code, or with a code other than "still in
    call", ends the operation after that one frame and is what the caller
    sees. *)
Theorem send_translates_transport_failure (Device T : Type) (ERR_STILL_IN_CALL : Z)
  (transport : TransportSend Device) (params : SendParams)
  (next : Buffer -> Interaction T) (d d1 : Device) (e : JsError) :
  transport (frameOf params) d = (inl e, d1) ->
  let outcome :=
    interact ERR_STILL_IN_CALL (Yield params next) (_send (loggedTransport transport)) (d, [])
  in
  _send transport params d
  = (inl (match statusCode e with
          | Some c => DeviceStatusError c
          | None => e
          end), d1)
  /\ (statusCode e = None -> outcome = (inl e, (d1, [frameOf params])))
  /\ (forall c, statusCode e = Some c -> c <> ERR_STILL_IN_CALL ->
        outcome = (inl (DeviceStatusError c), (d1, [frameOf params]))).
Proof.
  intros Hfails outcome.
  split; [exact (send_failed transport params d Hfails) |].
  assert (Hlogged : loggedTransport transport (frameOf params) (d, [])
                    = (inl e, (d1, [frameOf params])))
    by (rewrite loggedTransport_send, Hfails; reflexivity).
  pose proof (send_failed (loggedTransport transport) params (d, []) Hlogged) as Hsend.
  subst outcome. unfold interact. cbn [interactLoop]. unfold wrapRetryStillInCall.
  rewrite Hsend. clear Hsend Hlogged.
  split.
  - intros Hcode. rewrite Hcode.
    rewrite (@isStillInCall_false ERR_STILL_IN_CALL e) by (rewrite Hcode; discriminate).
    reflexivity.
  - intros c Hcode Hother. rewrite Hcode.
    rewrite (@isStillInCall_false ERR_STILL_IN_CALL (DeviceStatusError c))
      by (destruct (statusCode (DeviceStatusError c)) eqn:Hconverted;
          [simpl in Hconverted; congruence | discriminate]).
    reflexivity.
Qed.

(** At a channel that is closed and at a transport that reports a status
    other than "still in call". *)
Lemma send_translates_transport_failure_witness :
  interact Samples.STILL_IN_CALL Samples.twoExchanges
    (_send (loggedTransport Samples.unplugged)) (tt, [])
  = (inl (TransportFailure "disconnected"), (tt, [frameOf (Samples.request 0)]))
  /\ _send Samples.rejecting (Samples.request 0) tt
     = (inl (DeviceStatusError Samples.REJECTED_BY_POLICY), tt)
  /\ interact Samples.STILL_IN_CALL Samples.twoExchanges
       (_send (loggedTransport Samples.rejecting)) (tt, [])
     = (inl (DeviceStatusError Samples.REJECTED_BY_POLICY),
        (tt, [frameOf (Samples.request 0)])).
Proof.
  destruct (@send_translates_transport_failure unit (Buffer * Buffer) Samples.STILL_IN_CALL
              Samples.unplugged (Samples.request 0)
              (fun r0 => Yield (Samples.request 1) (fun r1 => Done (r0, r1)))
              tt tt (TransportFailure "disconnected") eq_refl)
    as (_ & Hplain & _).
  destruct (@send_translates_transport_failure unit (Buffer * Buffer) Samples.STILL_IN_CALL
              Samples.rejecting (Samples.request 0)
              (fun r0 => Yield (Samples.request 1) (fun r1 => Done (r0, r1)))
              tt tt (TransportStatusError Samples.REJECTED_BY_POLICY) eq_refl)
    as (Hconverted & _ & Hstatus).
  split; [exact (Hplain eq_refl) |].
  split; [exact Hconverted |].
  apply (Hstatus Samples.REJECTED_BY_POLICY eq_refl). discriminate.
Defined.

(** X19.  [_getVersion], which only delegates to [getVersion] and returns
    its result, adds nothing: driving an interaction that delegates to [m]
    and returns what [m] returned is driving [m], with the same exchanges,
    the same retry on the first of them and the same outcome. *)
Theorem getVersion_wrapper_adds_nothing (Device T : Type) (ERR_STILL_IN_CALL : Z)
  (send : SendFn Device) (m : Interaction T) (GET_VERSION : SendParams)
  (decodeVersion : Buffer -> Js.Result JsError Version) :
  (forall (first : bool) (d : Device),
     interactLoop ERR_STILL_IN_CALL send first (delegate m (fun value => Done value)) d
     = interactLoop ERR_STILL_IN_CALL send first m d)
  /\ (forall d : Device,
        interact ERR_STILL_IN_CALL (_getVersion GET_VERSION decodeVersion) send d
        = interact ERR_STILL_IN_CALL (getVersion GET_VERSION decodeVersion) send d).
Proof.
  assert (Hidentity : forall (A : Type) (cursor : Interaction A) (first : bool) (d : Device),
             interactLoop ERR_STILL_IN_CALL send first
               (delegate cursor (fun value => Done value)) d
             = interactLoop ERR_STILL_IN_CALL send first cursor d).
  { intros A cursor.
    induction cursor as [value | apdu next IH | e]; intros first d; simpl;
      try reflexivity.
    destruct ((if first then wrapRetryStillInCall ERR_STILL_IN_CALL send else send) apdu d)
      as [[e | res] d1]; [reflexivity | apply IH]. }
  split.
  - apply Hidentity.
  - intros d. unfold interact, _getVersion. apply Hidentity.
Qed.

End TransportFailures.
